(** * ExtensionsService: the extension lifecycle manager

    A shallow embedding of [chrome/browser/extensions/extensions_service.cc]
    and the properties its specification states about it.

    The C++ object is a record of its members; every member function is a
    state transformer that may stop on a fatal check.  What the service does
    to the outside world (notifications, tasks posted to other threads,
    installers started, log lines) is appended, in program order, to a trace
    kept beside the members. *)

From stdpp Require Import strings gmap list pretty.
From Stdlib Require Import ZArith Ascii.

Local Open Scope string_scope.
Local Open Scope list_scope.

(** ** base/ helpers *)

Definition FilePath := string.
Definition GURL := string.

(** Modelled from the spec: [StringToLowerASCII] of base/string_util.h, which
    is not among the sources.  An extension has a "stable lowercase
    identifier", and lookups lowercase the identifier they are given:
    'A'..'Z' become 'a'..'z', every other character stays. *)
Definition ToLowerASCII (c : ascii) : ascii :=
  let n := nat_of_ascii c in
  if (65 <=? n)%nat && (n <=? 90)%nat then ascii_of_nat (n + 32) else c.

Fixpoint StringToLowerASCII (s : string) : string :=
  match s with
  | EmptyString => EmptyString
  | String c s' => String (ToLowerASCII c) (StringToLowerASCII s')
  end.

(** The C++ stream operator prints a [bool] as 1 or 0. *)
Definition stream_bool (b : bool) : string := if b then "1" else "0".

(** ** Enumerations of extension.h and notification_type.h *)

(** Modelled from the spec: Extension::Location of extension.h, which is not
    among the sources.  The install location is "one of:
    user-loaded-unpacked, externally-registered-via-preferences,
    externally-registered-via-platform-registry, packaged-component,
    standard-install"; the source names four of them. *)
Inductive Location :=
  | INTERNAL            (* standard install *)
  | EXTERNAL_PREF       (* registered through the preferences file *)
  | EXTERNAL_REGISTRY   (* registered through the platform registry *)
  | LOAD                (* unpacked, loaded by the user from a directory *)
  | COMPONENT.          (* packaged with the browser *)

#[global] Instance Location_eq_dec : EqDecision Location.
Proof. solve_decision. Defined.

(** Modelled from the spec: Extension::IsExternalLocation (extension.h).
    The two externally registered locations; [LoadInstalledExtension] tests
    for the same two before it asks for an external uninstall check. *)
Definition IsExternalLocation (location : Location) : bool :=
  match location with
  | EXTERNAL_PREF | EXTERNAL_REGISTRY => true
  | _ => false
  end.

(** Modelled from the spec: the persisted enable state, Extension::State of
    extension.h.  [OnExtensionLoaded] switches on ENABLED and DISABLED, and
    "any other stored state is a fatal invariant violation"; KILLBIT stands
    for any other state. *)
Inductive State := DISABLED | ENABLED | KILLBIT.

Inductive NotificationType :=
  | EXTENSION_LOADED
  | EXTENSION_UNLOADED
  | EXTENSION_UNLOADED_DISABLED
  | EXTENSION_UPDATE_DISABLED
  | EXTENSION_INSTALLED
  | THEME_INSTALLED
  | NO_THEME_DETECTED
  | EXTENSION_INSTALL_ERROR
  | EXTENSION_OVERINSTALL_ERROR
  | EXTENSIONS_READY
  | EXTENSION_HOST_DID_STOP_LOADING
  | EXTENSION_PROCESS_TERMINATED.

Inductive ThreadID := UI | FILE | IO.

Inductive Severity := INFO | WARNING.

(** Modelled from the spec: the names of the "tab access" and "bookmark
    access" capability grants and of the unlimited-storage grant
    (Extension::kTabPermission and the like, declared in extension.h). *)
Definition kTabPermission : string := "tabs".
Definition kBookmarkPermission : string := "bookmarks".
Definition kUnlimitedStoragePermission : string := "unlimited_storage".

(** Why a run stopped: a CHECK that failed, or a step C++ leaves undefined
    (dereferencing NULL, erasing at end()).  DCHECK and NOTREACHED are
    followed as in a release build: control goes on, and a NOTREACHED that
    was hit is recorded in the trace. *)
Inductive Failure :=
  | CHECK_failed (what : string)
  | Undefined (what : string).

Section ExtensionsService.

Set Default Proof Using "Type".

(** ** Collaborators that are not part of the sources

    base/version.h, the manifest parser of extension.cc and the permission
    comparison are taken as parameters: every result below holds for any
    implementation of them. *)

(** base::Version with [Version::CompareTo] (negative, zero or positive) and
    [Version::GetVersionFromString] (NULL on a malformed string). *)
Variable Version : Type.
Variable CompareTo : Version -> Version -> Z.
Variable GetVersionFromString : string -> option Version.
Variable Version_GetString : Version -> string.

(** The parsed manifest (a DictionaryValue). *)
Variable Manifest : Type.

(** An Extension object, as seen through its accessors.  [ptr_] is the address
    of the object: the registry lists hold [Extension*], and [std::find]
    compares those pointers. *)
Record Extension := {
  ptr_ : nat;
  id_ : string;
  version_ : Version;
  path_ : FilePath;
  location_ : Location;
  url_ : GURL;
  is_theme_ : bool;
  api_permissions_ : list string;
  chrome_url_overrides_ : list (string * string);
  default_locale_ : string;
  manifest_value_ : Manifest;
  being_upgraded_ : bool
}.

Definition set_being_upgraded (b : bool) (e : Extension) : Extension :=
  {| ptr_ := ptr_ e; id_ := id_ e; version_ := version_ e; path_ := path_ e;
     location_ := location_ e; url_ := url_ e; is_theme_ := is_theme_ e;
     api_permissions_ := api_permissions_ e;
     chrome_url_overrides_ := chrome_url_overrides_ e;
     default_locale_ := default_locale_ e;
     manifest_value_ := manifest_value_ e; being_upgraded_ := b |}.

Definition set_location (l : Location) (e : Extension) : Extension :=
  {| ptr_ := ptr_ e; id_ := id_ e; version_ := version_ e; path_ := path_ e;
     location_ := l; url_ := url_ e; is_theme_ := is_theme_ e;
     api_permissions_ := api_permissions_ e;
     chrome_url_overrides_ := chrome_url_overrides_ e;
     default_locale_ := default_locale_ e;
     manifest_value_ := manifest_value_ e;
     being_upgraded_ := being_upgraded_ e |}.

Definition HasApiPermission (e : Extension) (permission : string) : bool :=
  existsb (String.eqb permission) (api_permissions_ e).

(** Extension::IsPrivilegeIncrease(old, new) and Extension::IdIsValid. *)
Variable IsPrivilegeIncrease : Extension -> Extension -> bool.
Variable IdIsValid : string -> bool.

(** [new Extension(path)] followed by [InitFromValue(manifest, require_key,
    &error)]: the new object, or the error text. *)
Variable InitFromValue : FilePath -> Manifest -> bool -> Extension + string.

(** extension_file_util::LoadExtension(path, require_id, &error): what the
    file thread reads from the disk, and file_util::AbsolutePath. *)
Variable LoadExtension_from_disk : FilePath -> bool -> Extension + string.
Variable AbsolutePath : FilePath -> FilePath.
Variable BaseName : FilePath -> string.

(** extension_manifest_errors::kManifestUnreadable. *)
Variable kManifestUnreadable : string.

(** ** PendingExtensionInfo *)

Record PendingExtensionInfo := {
  update_url : GURL;
  version : Version;
  is_theme : bool;
  install_silently : bool
}.

(** ** ExtensionInfo: one installed extension as the preferences list it *)

Record ExtensionInfo := {
  extension_manifest : option Manifest;
  extension_id : string;
  extension_path : FilePath;
  extension_location : Location
}.

(** ** ExtensionPrefs

    Modelled from the spec: ExtensionPrefs (extension_prefs.cc is not among
    the sources).  The specification's Preference Store "persists/retrieves
    per-identifier enable state, install metadata, blacklist set, ... and
    permission-escalation flags"; a stored state of enabled is "the default
    for first install", and an uninstall is persisted "with an external
    flag". *)
Record ExtensionPrefs := {
  pref_state : gmap string State;
  pref_escalated : gmap string bool;
  pref_blacklist : gset string;
  pref_installed : gmap string ExtensionInfo;
  pref_uninstalled : list (string * Location * bool)
}.

Definition GetExtensionState (p : ExtensionPrefs) (id : string) : State :=
  default ENABLED (pref_state p !! id).

Definition SetExtensionState (p : ExtensionPrefs) (e : Extension) (st : State)
  : ExtensionPrefs :=
  {| pref_state := <[id_ e := st]> (pref_state p);
     pref_escalated := pref_escalated p;
     pref_blacklist := pref_blacklist p;
     pref_installed := pref_installed p;
     pref_uninstalled := pref_uninstalled p |}.

Definition DidExtensionEscalatePermissions (p : ExtensionPrefs) (id : string)
  : bool :=
  default false (pref_escalated p !! id).

Definition SetDidExtensionEscalatePermissions (p : ExtensionPrefs)
    (e : Extension) (did_escalate : bool) : ExtensionPrefs :=
  {| pref_state := pref_state p;
     pref_escalated := <[id_ e := did_escalate]> (pref_escalated p);
     pref_blacklist := pref_blacklist p;
     pref_installed := pref_installed p;
     pref_uninstalled := pref_uninstalled p |}.

Definition UpdateBlacklist (p : ExtensionPrefs) (blacklist_set : gset string)
  : ExtensionPrefs :=
  {| pref_state := pref_state p;
     pref_escalated := pref_escalated p;
     pref_blacklist := blacklist_set;
     pref_installed := pref_installed p;
     pref_uninstalled := pref_uninstalled p |}.

Definition info_of (e : Extension) : ExtensionInfo :=
  {| extension_manifest := Some (manifest_value_ e);
     extension_id := id_ e;
     extension_path := path_ e;
     extension_location := location_ e |}.

Definition Prefs_OnExtensionInstalled (p : ExtensionPrefs) (e : Extension)
  : ExtensionPrefs :=
  {| pref_state := pref_state p;
     pref_escalated := pref_escalated p;
     pref_blacklist := pref_blacklist p;
     pref_installed := <[id_ e := info_of e]> (pref_installed p);
     pref_uninstalled := pref_uninstalled p |}.

Definition UpdateManifest (p : ExtensionPrefs) (e : Extension)
  : ExtensionPrefs :=
  {| pref_state := pref_state p;
     pref_escalated := pref_escalated p;
     pref_blacklist := pref_blacklist p;
     pref_installed :=
       alter (fun i => {| extension_manifest := Some (manifest_value_ e);
                          extension_id := extension_id i;
                          extension_path := extension_path i;
                          extension_location := extension_location i |})
             (id_ e) (pref_installed p);
     pref_uninstalled := pref_uninstalled p |}.

Definition Prefs_OnExtensionUninstalled (p : ExtensionPrefs) (id : string)
    (location : Location) (external_uninstall : bool) : ExtensionPrefs :=
  {| pref_state := pref_state p;
     pref_escalated := pref_escalated p;
     pref_blacklist := pref_blacklist p;
     pref_installed := pref_installed p;
     pref_uninstalled :=
       pref_uninstalled p ++ [(id, location, external_uninstall)] |}.

Definition GetInstalledExtensionInfo (p : ExtensionPrefs) (id : string)
  : option ExtensionInfo :=
  pref_installed p !! id.

(** ** What the service does to the rest of the browser *)

Inductive Details :=
  | DetailsExtension (e : Extension)
  | DetailsString (s : string)
  | NoDetails.

(** A CrxInstaller as the service configures it before [InstallCrx]. *)
Record CrxInstaller := {
  client : bool;                    (* an ExtensionInstallUI, or NULL *)
  install_source : option Location;
  expected_id : option string;
  allow_privilege_increase : bool;
  delete_source : bool;
  force_web_origin_to_download_url : bool;
  original_url : option GURL
}.

Inductive Task :=
  | DeleteFileHelper (path : FilePath) (recursive : bool)
  | UninstallExtensionFiles (id : string) (install_directory : FilePath)
  | Backend_LoadSingleExtension (path : FilePath)
  | Backend_CheckExternalUninstall (id : string) (location : Location)
  | OnNewExtensions (id : string) (path : FilePath) (locale : string)
      (api_permissions : list string)
  | OnUnloadedExtension (id : string)
  | SetOriginQuotaInMemory (origin : GURL)
  | Frontend_OnExtensionInstalled (e : Extension) (allow : bool)
  | Frontend_ReportExtensionLoadError (path : FilePath) (error : string)
      (type : NotificationType) (be_noisy : bool).

Inductive Event :=
  | Notify (type : NotificationType) (details : Details)
  | PostTask (thread : ThreadID) (task : Task)
  | InstallCrx (installer : CrxInstaller) (source : FilePath)
  | Log (severity : Severity) (message : string)
  | NOTREACHED (message : string)
  | ReportError (message : string) (be_noisy : bool)
  | RegisterChromeURLOverrides (overrides : list (string * string))
  | UnregisterChromeURLOverrides (overrides : list (string * string))
  | SetActiveExtensions (ids : gset string)
  | BrowserEventRouter_Init
  | BookmarkEventRouter_Observe
  | DetachClientHost (id : string)
  | StartDeleting (url : GURL).

(** The profile, as far as the service asks it. [background_hosts] gives, for
    the extensions that have a background host, the cookie that
    DevToolsManager::DetachClientHost returns for it (negative: no inspector
    was open). *)
Record Profile := {
  IsOffTheRecord : bool;
  GetRequestContext : bool;
  background_hosts : gmap string Z
}.

(** ** The service object *)

Record ExtensionsService := {
  extensions_ : list Extension;
  disabled_extensions_ : list Extension;
  pending_extensions_ : gmap string PendingExtensionInfo;
  unloaded_extension_paths_ : gmap string FilePath;
  orphaned_dev_tools_ : gmap string Z;
  extension_prefs_ : ExtensionPrefs;
  extensions_enabled_ : bool;
  install_directory_ : FilePath;
  profile_ : option Profile;
  trace_ : list Event
}.

Definition with_extensions (f : list Extension -> list Extension)
    (s : ExtensionsService) : ExtensionsService :=
  {| extensions_ := f (extensions_ s);
     disabled_extensions_ := disabled_extensions_ s;
     pending_extensions_ := pending_extensions_ s;
     unloaded_extension_paths_ := unloaded_extension_paths_ s;
     orphaned_dev_tools_ := orphaned_dev_tools_ s;
     extension_prefs_ := extension_prefs_ s;
     extensions_enabled_ := extensions_enabled_ s;
     install_directory_ := install_directory_ s;
     profile_ := profile_ s;
     trace_ := trace_ s |}.

Definition with_disabled_extensions (f : list Extension -> list Extension)
    (s : ExtensionsService) : ExtensionsService :=
  {| extensions_ := extensions_ s;
     disabled_extensions_ := f (disabled_extensions_ s);
     pending_extensions_ := pending_extensions_ s;
     unloaded_extension_paths_ := unloaded_extension_paths_ s;
     orphaned_dev_tools_ := orphaned_dev_tools_ s;
     extension_prefs_ := extension_prefs_ s;
     extensions_enabled_ := extensions_enabled_ s;
     install_directory_ := install_directory_ s;
     profile_ := profile_ s;
     trace_ := trace_ s |}.

Definition with_pending_extensions
    (f : gmap string PendingExtensionInfo -> gmap string PendingExtensionInfo)
    (s : ExtensionsService) : ExtensionsService :=
  {| extensions_ := extensions_ s;
     disabled_extensions_ := disabled_extensions_ s;
     pending_extensions_ := f (pending_extensions_ s);
     unloaded_extension_paths_ := unloaded_extension_paths_ s;
     orphaned_dev_tools_ := orphaned_dev_tools_ s;
     extension_prefs_ := extension_prefs_ s;
     extensions_enabled_ := extensions_enabled_ s;
     install_directory_ := install_directory_ s;
     profile_ := profile_ s;
     trace_ := trace_ s |}.

Definition with_unloaded_extension_paths
    (f : gmap string FilePath -> gmap string FilePath)
    (s : ExtensionsService) : ExtensionsService :=
  {| extensions_ := extensions_ s;
     disabled_extensions_ := disabled_extensions_ s;
     pending_extensions_ := pending_extensions_ s;
     unloaded_extension_paths_ := f (unloaded_extension_paths_ s);
     orphaned_dev_tools_ := orphaned_dev_tools_ s;
     extension_prefs_ := extension_prefs_ s;
     extensions_enabled_ := extensions_enabled_ s;
     install_directory_ := install_directory_ s;
     profile_ := profile_ s;
     trace_ := trace_ s |}.

Definition with_orphaned_dev_tools (f : gmap string Z -> gmap string Z)
    (s : ExtensionsService) : ExtensionsService :=
  {| extensions_ := extensions_ s;
     disabled_extensions_ := disabled_extensions_ s;
     pending_extensions_ := pending_extensions_ s;
     unloaded_extension_paths_ := unloaded_extension_paths_ s;
     orphaned_dev_tools_ := f (orphaned_dev_tools_ s);
     extension_prefs_ := extension_prefs_ s;
     extensions_enabled_ := extensions_enabled_ s;
     install_directory_ := install_directory_ s;
     profile_ := profile_ s;
     trace_ := trace_ s |}.

Definition with_extension_prefs (f : ExtensionPrefs -> ExtensionPrefs)
    (s : ExtensionsService) : ExtensionsService :=
  {| extensions_ := extensions_ s;
     disabled_extensions_ := disabled_extensions_ s;
     pending_extensions_ := pending_extensions_ s;
     unloaded_extension_paths_ := unloaded_extension_paths_ s;
     orphaned_dev_tools_ := orphaned_dev_tools_ s;
     extension_prefs_ := f (extension_prefs_ s);
     extensions_enabled_ := extensions_enabled_ s;
     install_directory_ := install_directory_ s;
     profile_ := profile_ s;
     trace_ := trace_ s |}.

Definition with_trace (f : list Event -> list Event)
    (s : ExtensionsService) : ExtensionsService :=
  {| extensions_ := extensions_ s;
     disabled_extensions_ := disabled_extensions_ s;
     pending_extensions_ := pending_extensions_ s;
     unloaded_extension_paths_ := unloaded_extension_paths_ s;
     orphaned_dev_tools_ := orphaned_dev_tools_ s;
     extension_prefs_ := extension_prefs_ s;
     extensions_enabled_ := extensions_enabled_ s;
     install_directory_ := install_directory_ s;
     profile_ := profile_ s;
     trace_ := f (trace_ s) |}.

(** ** Member functions as state transformers *)

Inductive Result :=
  | Ok (s : ExtensionsService)
  | Fatal (why : Failure).

Definition Action := ExtensionsService -> Result.

Definition skip : Action := Ok.

Definition seq (a b : Action) : Action :=
  fun s => match a s with
           | Ok s' => b s'
           | Fatal why => Fatal why
           end.

Local Notation "a >> b" := (seq a b) (at level 62, right associativity).

Definition modify (f : ExtensionsService -> ExtensionsService) : Action :=
  fun s => Ok (f s).

Definition emit (ev : Event) : Action :=
  modify (with_trace (fun t => t ++ [ev])).

Definition when (b : bool) (a : Action) : Action := if b then a else skip.

Fixpoint for_each {A : Type} (body : A -> Action) (l : list A) : Action :=
  match l with
  | [] => skip
  | x :: l' => body x >> for_each body l'
  end.

(** ** Lookups *)

(** The loop over one list: the first element whose id() equals
    [lowercase_id]. *)
Fixpoint find_id (lowercase_id : string) (l : list Extension)
  : option Extension :=
  match l with
  | [] => None
  | e :: l' =>
      if String.eqb (id_ e) lowercase_id then Some e
      else find_id lowercase_id l'
  end.

Definition GetExtensionByIdInternal (s : ExtensionsService) (id : string)
    (include_enabled include_disabled : bool) : option Extension :=
  let lowercase_id := StringToLowerASCII id in
  match (if include_enabled then find_id lowercase_id (extensions_ s)
         else None) with
  | Some e => Some e
  | None =>
      if include_disabled then find_id lowercase_id (disabled_extensions_ s)
      else None
  end.

(** Modelled from the spec: GetExtensionById is defined in
    extensions_service.h, which is not among the sources.  Reload asks it
    whether the extension is "currently loaded" and external discovery
    compares "against any existing registration": it searches the Enabled
    list and, when asked, the Disabled list. *)
Definition GetExtensionById (s : ExtensionsService) (id : string)
    (include_disabled : bool) : option Extension :=
  GetExtensionByIdInternal s id true include_disabled.

(** [std::find(l.begin(), l.end(), p)]: the position of the first element
    that is the pointer [p]; [length l] stands for [l.end()]. *)
Fixpoint std_find (l : list Extension) (p : nat) : nat :=
  match l with
  | [] => 0
  | e :: l' => if Nat.eqb (ptr_ e) p then 0 else S (std_find l' p)
  end.

(** [extensions_.erase(iter)]; erasing at end() is undefined. *)
Definition erase_extensions (iter : nat) : Action :=
  fun s =>
    if (iter <? length (extensions_ s))%nat
    then Ok (with_extensions (delete iter) s)
    else Fatal (Undefined "extensions_.erase(extensions_.end())").

Definition erase_disabled_extensions (iter : nat) : Action :=
  fun s =>
    if (iter <? length (disabled_extensions_ s))%nat
    then Ok (with_disabled_extensions (delete iter) s)
    else Fatal (Undefined
                  "disabled_extensions_.erase(disabled_extensions_.end())").

(** A write through an [Extension*]: the object that lives at address [p]
    changes wherever a list points to it. *)
Definition poke (p : nat) (f : Extension -> Extension)
    (l : list Extension) : list Extension :=
  map (fun e => if Nat.eqb (ptr_ e) p then f e else e) l.

Definition update_object (p : nat) (f : Extension -> Extension) : Action :=
  modify (fun s => with_disabled_extensions (poke p f)
                     (with_extensions (poke p f) s)).

(** ** Notifications *)

(** The loop of [UpdateActiveExtensionsInCrashReporter]: the identifiers of
    the enabled extensions that are not themes. *)
Definition active_extension_ids (l : list Extension) : gset string :=
  foldl (fun ids e => if is_theme_ e then ids else {[ id_ e ]} ∪ ids) ∅ l.

Definition UpdateActiveExtensionsInCrashReporter : Action :=
  fun s =>
    emit (SetActiveExtensions (active_extension_ids (extensions_ s))) s.

Definition NotifyExtensionLoaded (extension : Extension) : Action :=
  emit (Log INFO "Sending EXTENSION_LOADED") >>
  (fun s =>
     match profile_ s with
     | Some profile =>
         if negb (IsOffTheRecord profile) then
           (when (GetRequestContext profile)
              (emit (PostTask IO
                       (OnNewExtensions (id_ extension) (path_ extension)
                          (default_locale_ extension)
                          (api_permissions_ extension)))) >>
            when (HasApiPermission extension kUnlimitedStoragePermission)
              (emit (PostTask FILE
                       (SetOriginQuotaInMemory (url_ extension))))) s
         else Ok s
     | None => Ok s
     end) >>
  emit (Notify EXTENSION_LOADED (DetailsExtension extension)).

Definition NotifyExtensionUnloaded (extension : Extension) : Action :=
  emit (Log INFO "Sending EXTENSION_UNLOADED") >>
  emit (Notify EXTENSION_UNLOADED (DetailsExtension extension)) >>
  (fun s =>
     match profile_ s with
     | Some profile =>
         if negb (IsOffTheRecord profile) then
           when (GetRequestContext profile)
             (emit (PostTask IO (OnUnloadedExtension (id_ extension)))) s
         else Ok s
     | None => Ok s
     end).

Definition ReportExtensionLoadError (extension_path : FilePath)
    (error : string) (type : NotificationType) (be_noisy : bool) : Action :=
  emit (Notify type (DetailsString error)) >>
  emit (ReportError
          ("Could not load extension from '" +:+ extension_path +:+ "'. "
             +:+ error)
          be_noisy).

(** ** Unload, enable, disable, uninstall *)

Definition UnloadExtension (extension_id : string) : Action :=
  fun s =>
    match GetExtensionByIdInternal s extension_id true true with
    | None => Fatal (CHECK_failed "extension.get()")
    | Some extension =>
        (modify (with_unloaded_extension_paths
                   <[id_ extension := path_ extension]>) >>
         emit (UnregisterChromeURLOverrides
                 (chrome_url_overrides_ extension)) >>
         (fun s1 =>
            let iter := std_find (disabled_extensions_ s1) (ptr_ extension) in
            if negb (iter =? length (disabled_extensions_ s1))%nat then
              (erase_disabled_extensions iter >>
               emit (Notify EXTENSION_UNLOADED_DISABLED
                       (DetailsExtension extension))) s1
            else
              (erase_extensions
                 (std_find (extensions_ s1) (ptr_ extension)) >>
               NotifyExtensionUnloaded extension >>
               UpdateActiveExtensionsInCrashReporter) s1)) s
    end.

Definition EnableExtension (extension_id : string) : Action :=
  fun s =>
    match GetExtensionByIdInternal s extension_id false true with
    | None =>
        emit (NOTREACHED
                "Trying to enable an extension that isn't disabled.") s
    | Some extension =>
        (modify (with_extension_prefs
                   (fun p => SetExtensionState p extension ENABLED)) >>
         modify (with_extensions (fun l => l ++ [extension])) >>
         (fun s1 =>
            erase_disabled_extensions
              (std_find (disabled_extensions_ s1) (ptr_ extension)) s1) >>
         emit (RegisterChromeURLOverrides
                 (chrome_url_overrides_ extension)) >>
         NotifyExtensionLoaded extension >>
         UpdateActiveExtensionsInCrashReporter) s
    end.

Definition DisableExtension (extension_id : string) : Action :=
  fun s =>
    match GetExtensionByIdInternal s extension_id true false with
    | None => Ok s
    | Some extension =>
        (modify (with_extension_prefs
                   (fun p => SetExtensionState p extension DISABLED)) >>
         modify (with_disabled_extensions (fun l => l ++ [extension])) >>
         (fun s1 =>
            erase_extensions
              (std_find (extensions_ s1) (ptr_ extension)) s1) >>
         emit (UnregisterChromeURLOverrides
                 (chrome_url_overrides_ extension)) >>
         NotifyExtensionUnloaded extension >>
         UpdateActiveExtensionsInCrashReporter) s
    end.

Definition ClearExtensionData (extension_url : GURL) : Action :=
  emit (StartDeleting extension_url).

Definition UninstallExtension (extension_id : string)
    (external_uninstall : bool) : Action :=
  fun s =>
    match GetExtensionByIdInternal s extension_id true true with
    | None => Fatal (Undefined "extension->url() on a NULL extension")
    | Some extension =>
        let extension_url := url_ extension in
        let location := location_ extension in
        let extension_id_copy := extension_id in
        (UnloadExtension extension_id >>
         modify (with_extension_prefs
                   (fun p => Prefs_OnExtensionUninstalled p extension_id_copy
                               location external_uninstall)) >>
         (fun s1 =>
            when (negb (bool_decide (LOAD = location)))
              (emit (PostTask FILE
                       (UninstallExtensionFiles extension_id_copy
                          (install_directory_ s1)))) s1) >>
         ClearExtensionData extension_url) s
    end.

Definition UnloadAllExtensions : Action :=
  modify (with_extensions (fun _ => [])).

(** ** Load and install *)

(** The switch on the persisted state at the end of the guarded block of
    [OnExtensionLoaded]. *)
Definition place_by_persisted_state (extension : Extension) : Action :=
  fun s =>
    match GetExtensionState (extension_prefs_ s) (id_ extension) with
    | ENABLED =>
        (modify (with_extensions (fun l => l ++ [extension])) >>
         when (HasApiPermission extension kTabPermission)
           (emit BrowserEventRouter_Init) >>
         when (HasApiPermission extension kBookmarkPermission)
           (fun s1 =>
              match profile_ s1 with
              | None => Fatal (Undefined "profile_->GetBookmarkModel()")
              | Some _ => emit BookmarkEventRouter_Observe s1
              end) >>
         NotifyExtensionLoaded extension >>
         emit (RegisterChromeURLOverrides
                 (chrome_url_overrides_ extension))) s
    | DISABLED =>
        (modify (with_disabled_extensions (fun l => l ++ [extension])) >>
         emit (Notify EXTENSION_UPDATE_DISABLED
                 (DetailsExtension extension))) s
    | KILLBIT => emit (NOTREACHED "") s
    end.

(** The gate in front of the guarded block. *)
Definition load_gate (s : ExtensionsService) (extension : Extension) : bool :=
  extensions_enabled_ s
  || is_theme_ extension
  || bool_decide (location_ extension = LOAD)
  || IsExternalLocation (location_ extension).

Definition OnExtensionLoaded (extension : Extension)
    (allow_privilege_increase : bool) : Action :=
  modify (with_unloaded_extension_paths (delete (id_ extension))) >>
  (fun s =>
     let finish :=
       update_object (ptr_ extension) (set_being_upgraded false) >>
       UpdateActiveExtensionsInCrashReporter in
     if load_gate s extension then
       match GetExtensionByIdInternal s (id_ extension) true true with
       | Some old =>
           if (CompareTo (version_ extension) (version_ old) >? 0)%Z then
             let allow_silent_upgrade :=
               allow_privilege_increase
               || negb (IsPrivilegeIncrease old extension) in
             let extension' :=
               if allow_silent_upgrade
               then set_being_upgraded true extension else extension in
             (when allow_silent_upgrade
                (update_object (ptr_ old) (set_being_upgraded true)) >>
              UnloadExtension (id_ old) >>
              when (negb allow_silent_upgrade)
                (modify (with_extension_prefs
                           (fun p => SetDidExtensionEscalatePermissions
                                       (SetExtensionState p extension'
                                          DISABLED)
                                       extension' true))) >>
              place_by_persisted_state extension' >>
              finish) s
           else
             let error_message :=
               "Duplicate extension load attempt: " +:+ id_ extension in
             (emit (Log WARNING error_message) >>
              ReportExtensionLoadError (path_ extension) error_message
                EXTENSION_OVERINSTALL_ERROR false) s
       | None => (place_by_persisted_state extension >> finish) s
       end
     else finish s).

Definition OnExtensionInstalled (extension : Extension)
    (allow_privilege_increase : bool) : Action :=
  fun s =>
    let it := pending_extensions_ s !! id_ extension in
    let proceed :=
      modify (with_extension_prefs
                (fun p => Prefs_OnExtensionInstalled p extension)) >>
      emit (Notify (if is_theme_ extension
                    then THEME_INSTALLED else EXTENSION_INSTALLED)
              (DetailsExtension extension)) >>
      OnExtensionLoaded extension allow_privilege_increase >>
      when (bool_decide (is_Some it))
        (modify (with_pending_extensions (delete (id_ extension)))) in
    match it with
    | Some pending =>
        if negb (Bool.eqb (is_theme pending) (is_theme_ extension)) then
          (emit (Log WARNING
                   ("Not installing pending extension " +:+ id_ extension
                      +:+ " with is_theme = "
                      +:+ stream_bool (is_theme_ extension)
                      +:+ "; expected is_theme = "
                      +:+ stream_bool (is_theme pending))) >>
           emit (PostTask FILE (DeleteFileHelper (path_ extension) true))) s
        else proceed s
    | None => proceed s
    end.

Definition InstallExtension (extension_path : FilePath) : Action :=
  emit (InstallCrx
          {| client := false; install_source := None; expected_id := None;
             allow_privilege_increase := true; delete_source := false;
             force_web_origin_to_download_url := false;
             original_url := None |}
          extension_path).

Definition UpdateExtension (id : string) (extension_path : FilePath)
    (download_url : GURL) : Action :=
  fun s =>
    let it := pending_extensions_ s !! id in
    if bool_decide (it = None :> option PendingExtensionInfo)
       && negb (bool_decide
                  (is_Some (GetExtensionByIdInternal s id true true))) then
      (emit (Log WARNING
               ("Will not update extension " +:+ id
                  +:+ " because it is not installed or pending")) >>
       emit (PostTask FILE (DeleteFileHelper extension_path false))) s
    else
      let has_client :=
        match it with
        | None => false
        | Some pending => negb (install_silently pending)
        end in
      emit (InstallCrx
              {| client := has_client; install_source := None;
                 expected_id := Some id; allow_privilege_increase := false;
                 delete_source := true;
                 force_web_origin_to_download_url := true;
                 original_url := Some download_url |}
              extension_path) s.

Definition AddPendingExtensionInternal (id : string) (update_url : GURL)
    (version : Version) (is_theme install_silently : bool) : Action :=
  modify (with_pending_extensions
            <[id := {| update_url := update_url; version := version;
                       is_theme := is_theme;
                       install_silently := install_silently |}]>).

Definition AddPendingExtension (id : string) (update_url : GURL)
    (version : Version) (is_theme install_silently : bool) : Action :=
  fun s =>
    match GetExtensionByIdInternal s id true true with
    | Some _ => Ok s
    | None =>
        AddPendingExtensionInternal id update_url version is_theme
          install_silently s
    end.

Definition LoadExtension (extension_path : FilePath) : Action :=
  emit (PostTask FILE (Backend_LoadSingleExtension extension_path)).

Definition LoadInstalledExtension (info : ExtensionInfo)
    (write_to_prefs : bool) : Action :=
  let loaded : Extension + string :=
    match extension_manifest info with
    | Some manifest =>
        let require_key :=
          negb (bool_decide (extension_location info = LOAD)) in
        InitFromValue (extension_path info) manifest require_key
    | None => inr kManifestUnreadable
    end in
  match loaded with
  | inr error =>
      ReportExtensionLoadError (extension_path info) error
        EXTENSION_INSTALL_ERROR false
  | inl tmp =>
      let extension := set_location (extension_location info) tmp in
      when write_to_prefs
        (modify (with_extension_prefs
                   (fun p => UpdateManifest p extension))) >>
      OnExtensionLoaded extension true >>
      when (bool_decide (extension_location info = EXTERNAL_PREF)
            || bool_decide (extension_location info = EXTERNAL_REGISTRY))
        (emit (PostTask FILE
                 (Backend_CheckExternalUninstall (extension_id info)
                    (extension_location info))))
  end.

(** ** Reload *)

(** What comes after [path] is known. *)
Definition reload_from (extension_id : string) (path : FilePath) : Action :=
  fun s =>
    match GetInstalledExtensionInfo (extension_prefs_ s) extension_id with
    | Some installed_extension =>
        match extension_manifest installed_extension with
        | Some _ => LoadInstalledExtension installed_extension false s
        | None =>
            if bool_decide (path = "") then Fatal (CHECK_failed "!path.empty()")
            else LoadExtension path s
        end
    | None =>
        if bool_decide (path = "") then Fatal (CHECK_failed "!path.empty()")
        else LoadExtension path s
    end.

Definition ReloadExtension (extension_id : string) : Action :=
  fun s =>
    match GetExtensionById s extension_id false with
    | Some current_extension =>
        match profile_ s with
        | None => Fatal (Undefined "profile_->GetExtensionProcessManager()")
        | Some profile =>
            (match background_hosts profile !! id_ current_extension with
             | Some devtools_cookie =>
                 emit (DetachClientHost (id_ current_extension)) >>
                 when (0 <=? devtools_cookie)%Z
                   (modify (with_orphaned_dev_tools
                              <[extension_id := devtools_cookie]>))
             | None => skip
             end >>
             UnloadExtension extension_id >>
             reload_from extension_id (path_ current_extension)) s
        end
    | None =>
        (* std::map::operator[] adds an empty path for a key it lacks *)
        match unloaded_extension_paths_ s !! extension_id with
        | Some path => reload_from extension_id path s
        | None =>
            (modify (with_unloaded_extension_paths <[extension_id := ""]>) >>
             reload_from extension_id "") s
        end
    end.

(** ** Blacklist *)

(** The first loop: the valid identifiers of the list, as a set. *)
Definition blacklist_set_of (blacklist : list string) : gset string :=
  foldl (fun set id => if IdIsValid id then {[ id ]} ∪ set else set)
        ∅ blacklist.

(** The second loop: the identifiers of the Enabled list that are in the
    set, in list order. *)
Definition to_be_removed_of (blacklist_set : gset string)
    (l : list Extension) : list string :=
  foldl (fun acc extension =>
           if bool_decide (id_ extension ∈ blacklist_set)
           then acc ++ [id_ extension] else acc)
        [] l.

Definition UpdateExtensionBlacklist (blacklist : list string) : Action :=
  let blacklist_set := blacklist_set_of blacklist in
  modify (with_extension_prefs (fun p => UpdateBlacklist p blacklist_set)) >>
  (fun s =>
     let to_be_removed := to_be_removed_of blacklist_set (extensions_ s) in
     for_each UnloadExtension to_be_removed s).

(** ** External extensions *)

Definition OnExternalExtensionFound (id : string) (version : string)
    (path : FilePath) (location : Location) : Action :=
  fun s =>
    let install :=
      emit (InstallCrx
              {| client := false; install_source := Some location;
                 expected_id := Some id; allow_privilege_increase := true;
                 delete_source := false;
                 force_web_origin_to_download_url := false;
                 original_url := None |}
              path) in
    match GetExtensionById s id true with
    | Some existing =>
        match GetVersionFromString version with
        | None => Fatal (Undefined "*other on a NULL version")
        | Some other =>
            match CompareTo (version_ existing) other with
            | (-1)%Z => install s
            | 0%Z => Ok s
            | 1%Z =>
                emit (Log WARNING
                        ("Found external version of extension " +:+ id
                           +:+ "that is older than current version. "
                           +:+ "Current version is: "
                           +:+ Version_GetString (version_ existing)
                           +:+ ". New version is: " +:+ version
                           +:+ ". Keeping current version.")) s
            | _ => install s
            end
        end
    | None => install s
    end.

(** ** The backend's single-extension load (file thread)

    What [ExtensionsServiceBackend::LoadSingleExtension] logs and posts back
    to the UI thread; [alert_on_error_] is true on this path. *)
Definition Backend_LoadSingleExtension_run (path_in : FilePath)
  : list Event :=
  let extension_path := AbsolutePath path_in in
  Log INFO ("Loading single extension from " +:+ BaseName extension_path) ::
  match LoadExtension_from_disk extension_path false with
  | inr error =>
      [PostTask UI
         (Frontend_ReportExtensionLoadError extension_path error
            EXTENSION_INSTALL_ERROR true)]
  | inl extension =>
      [PostTask UI
         (Frontend_OnExtensionInstalled (set_location LOAD extension) true)]
  end.

(** A task that was posted to the UI thread runs a member function. *)
Definition run_UI_task (t : Task) : Action :=
  match t with
  | Frontend_OnExtensionInstalled e allow => OnExtensionInstalled e allow
  | Frontend_ReportExtensionLoadError path error type be_noisy =>
      ReportExtensionLoadError path error type be_noisy
  | _ => skip
  end.

(** * Properties *)

(** [tauto] on the goal and the propositions at hand only: what the goal does
    not mention is cleared first. *)
Ltac pure_tauto :=
  repeat match goal with
         | x : ?T |- _ =>
             lazymatch type of T with
             | Prop => fail
             | _ => clear x
             end
         end;
  tauto.

(** ** Identifiers *)

Definition is_lowercase (id : string) : Prop := StringToLowerASCII id = id.

Lemma ToLowerASCII_idem (c : ascii) :
  ToLowerASCII (ToLowerASCII c) = ToLowerASCII c.
Proof. destruct c as [[] [] [] [] [] [] [] []]; reflexivity. Qed.

Lemma StringToLowerASCII_idem (s : string) :
  StringToLowerASCII (StringToLowerASCII s) = StringToLowerASCII s.
Proof.
  induction s as [|c s IH]; simpl; [reflexivity|].
  by rewrite ToLowerASCII_idem, IH.
Qed.

Lemma eqb_id_true (a b : string) : String.eqb a b = true <-> a = b.
Proof. apply String.eqb_eq. Qed.

Lemma eqb_id_false (a b : string) : String.eqb a b = false <-> a ≠ b.
Proof. apply String.eqb_neq. Qed.

(** ** The registry: what the two lists hold *)

Definition registered (s : ExtensionsService) : list Extension :=
  extensions_ s ++ disabled_extensions_ s.

(** The list without the records of one identifier. *)
Definition without (id : string) (l : list Extension) : list Extension :=
  filter (fun e => id_ e ≠ id) l.

(** The objects in the lists are distinct, no identifier is registered
    twice, and identifiers are lowercase (an Extension's id always is). *)
Definition wf_list (l : list Extension) : Prop :=
  NoDup (ptr_ <$> l)
  ∧ NoDup (id_ <$> l)
  ∧ Forall is_lowercase (id_ <$> l).

Definition wf (s : ExtensionsService) : Prop := wf_list (registered s).

(** ** find_id and std_find *)

Lemma find_id_Some lid l e :
  find_id lid l = Some e -> e ∈ l ∧ id_ e = lid.
Proof.
  induction l as [|x l IH]; simpl; [done|].
  destruct (String.eqb (id_ x) lid) eqn:E.
  - intros [= ->]. split; [left|]. by apply eqb_id_true.
  - intros H. destruct (IH H) as [? ?]. split; [by right|done].
Qed.

Lemma find_id_None lid l :
  find_id lid l = None <-> lid ∉ id_ <$> l.
Proof.
  induction l as [|x l IH]; simpl.
  - split; [intros _; apply not_elem_of_nil|done].
  - destruct (String.eqb (id_ x) lid) eqn:E.
    + apply eqb_id_true in E. split; [done|]. intros H. destruct H. rewrite E. left.
    + apply eqb_id_false in E. rewrite IH, not_elem_of_cons.
      split; [intros ?; split; [by intros ->|done]|by intros [_ ?]].
Qed.

Lemma find_id_unique l e :
  NoDup (id_ <$> l) -> e ∈ l -> find_id (id_ e) l = Some e.
Proof.
  induction l as [|x l IH]; simpl; intros Hnd Hin.
  - by apply elem_of_nil in Hin.
  - apply NoDup_cons in Hnd as [Hx Hnd].
    apply elem_of_cons in Hin as [->|Hin].
    + by rewrite String.eqb_refl.
    + destruct (String.eqb (id_ x) (id_ e)) eqn:E; [|by apply IH].
      apply eqb_id_true in E. destruct Hx. rewrite E.
      by apply list_elem_of_fmap_2.
Qed.

Lemma std_find_notin l p :
  p ∉ ptr_ <$> l -> std_find l p = length l.
Proof.
  induction l as [|x l IH]; simpl; [done|].
  rewrite not_elem_of_cons. intros [Hne Hl].
  destruct (Nat.eqb (ptr_ x) p) eqn:E.
  - apply Nat.eqb_eq in E. congruence.
  - by rewrite IH.
Qed.

Lemma std_find_in l e :
  e ∈ l -> (std_find l (ptr_ e) < length l)%nat.
Proof.
  induction l as [|x l IH]; simpl; intros Hin.
  - by apply elem_of_nil in Hin.
  - destruct (Nat.eqb (ptr_ x) (ptr_ e)) eqn:E; [lia|].
    apply elem_of_cons in Hin as [->|Hin].
    + by rewrite Nat.eqb_refl in E.
    + apply IH in Hin. lia.
Qed.

Lemma without_notin id l :
  id ∉ id_ <$> l -> without id l = l.
Proof.
  unfold without. induction l as [|x l IH]; simpl; [done|].
  rewrite not_elem_of_cons. intros [Hne Hl].
  rewrite filter_cons_True by done. by rewrite IH.
Qed.

Lemma erase_std_find l e :
  NoDup (ptr_ <$> l) -> NoDup (id_ <$> l) -> e ∈ l ->
  delete (std_find l (ptr_ e)) l = without (id_ e) l.
Proof.
  induction l as [|x l IH]; simpl; intros Hp Hi Hin.
  - by apply elem_of_nil in Hin.
  - apply NoDup_cons in Hp as [Hpx Hp]. apply NoDup_cons in Hi as [Hix Hi].
    destruct (Nat.eqb (ptr_ x) (ptr_ e)) eqn:E.
    + apply Nat.eqb_eq in E.
      apply elem_of_cons in Hin as [->|Hin].
      * unfold without. rewrite filter_cons_False by (intros H; by apply H).
        symmetry. by apply without_notin.
      * destruct Hpx. rewrite E. by apply list_elem_of_fmap_2.
    + apply Nat.eqb_neq in E.
      apply elem_of_cons in Hin as [->|Hin]; [done|].
      unfold without. rewrite filter_cons_True.
      * simpl. f_equal. by apply IH.
      * intros Heq. destruct Hix. rewrite Heq. by apply list_elem_of_fmap_2.
Qed.


Lemma poke_notin p f l :
  p ∉ ptr_ <$> l -> poke p f l = l.
Proof.
  unfold poke. induction l as [|x l IH]; simpl; [done|].
  rewrite not_elem_of_cons. intros [Hne Hl].
  destruct (Nat.eqb (ptr_ x) p) eqn:E.
  - apply Nat.eqb_eq in E. congruence.
  - by rewrite IH.
Qed.

Lemma poke_ptrs p f l :
  (forall e, ptr_ (f e) = ptr_ e) -> ptr_ <$> poke p f l = ptr_ <$> l.
Proof.
  intros Hf. unfold poke. induction l as [|x l IH]; simpl; [done|].
  f_equal; [|done]. by destruct (Nat.eqb (ptr_ x) p).
Qed.

Lemma poke_ids p f l :
  (forall e, id_ (f e) = id_ e) -> id_ <$> poke p f l = id_ <$> l.
Proof.
  intros Hf. unfold poke. induction l as [|x l IH]; simpl; [done|].
  f_equal; [|done]. by destruct (Nat.eqb (ptr_ x) p).
Qed.

(** ** Actions that only add to the trace *)

(** All members but the trace agree. *)
Definition same_members (s s' : ExtensionsService) : Prop :=
  extensions_ s' = extensions_ s
  ∧ disabled_extensions_ s' = disabled_extensions_ s
  ∧ pending_extensions_ s' = pending_extensions_ s
  ∧ unloaded_extension_paths_ s' = unloaded_extension_paths_ s
  ∧ orphaned_dev_tools_ s' = orphaned_dev_tools_ s
  ∧ extension_prefs_ s' = extension_prefs_ s
  ∧ extensions_enabled_ s' = extensions_enabled_ s
  ∧ install_directory_ s' = install_directory_ s
  ∧ profile_ s' = profile_ s.

Definition add_events (evs : list Event) (s : ExtensionsService)
  : ExtensionsService :=
  with_trace (fun t => t ++ evs) s.

Definition trace_only (a : Action) : Prop :=
  forall s, exists evs, a s = Ok (add_events evs s).

Lemma add_events_nil s : add_events [] s = s.
Proof. destruct s. unfold add_events, with_trace. simpl. by rewrite app_nil_r. Qed.

Lemma add_events_app evs1 evs2 s :
  add_events evs2 (add_events evs1 s) = add_events (evs1 ++ evs2) s.
Proof. unfold add_events, with_trace. simpl. by rewrite app_assoc. Qed.

Lemma same_members_add_events evs s : same_members s (add_events evs s).
Proof. by repeat split. Qed.

Lemma trace_only_skip : trace_only skip.
Proof. intros s. exists []. by rewrite add_events_nil. Qed.

Lemma trace_only_emit ev : trace_only (emit ev).
Proof. intros s. by exists [ev]. Qed.

Lemma trace_only_seq a b : trace_only a -> trace_only b -> trace_only (a >> b).
Proof.
  intros Ha Hb s. destruct (Ha s) as [evs1 H1].
  destruct (Hb (add_events evs1 s)) as [evs2 H2].
  exists (evs1 ++ evs2). unfold seq. by rewrite H1, H2, add_events_app.
Qed.

Lemma trace_only_when c a : trace_only a -> trace_only (when c a).
Proof. destruct c; simpl; [done|]. intros _. apply trace_only_skip. Qed.

Lemma trace_only_NotifyExtensionLoaded e : trace_only (NotifyExtensionLoaded e).
Proof.
  unfold NotifyExtensionLoaded.
  apply trace_only_seq; [apply trace_only_emit|].
  apply trace_only_seq; [|apply trace_only_emit].
  intros s. destruct (profile_ s) as [p|]; [|exists []; by rewrite add_events_nil].
  destruct (negb (IsOffTheRecord p)); [|exists []; by rewrite add_events_nil].
  apply trace_only_seq; apply trace_only_when, trace_only_emit.
Qed.

Lemma trace_only_NotifyExtensionUnloaded e :
  trace_only (NotifyExtensionUnloaded e).
Proof.
  unfold NotifyExtensionUnloaded.
  apply trace_only_seq; [apply trace_only_emit|].
  apply trace_only_seq; [apply trace_only_emit|].
  intros s. destruct (profile_ s) as [p|]; [|exists []; by rewrite add_events_nil].
  destruct (negb (IsOffTheRecord p)); [|exists []; by rewrite add_events_nil].
  apply trace_only_when, trace_only_emit.
Qed.

Lemma trace_only_UpdateActiveExtensionsInCrashReporter :
  trace_only UpdateActiveExtensionsInCrashReporter.
Proof. intros s. eexists. reflexivity. Qed.

Lemma trace_only_ReportExtensionLoadError path error type noisy :
  trace_only (ReportExtensionLoadError path error type noisy).
Proof. apply trace_only_seq; apply trace_only_emit. Qed.


(** ** Lookups against the lists *)

Lemma lookup_none_iff s id (enabled disabled : bool) :
  GetExtensionByIdInternal s id enabled disabled = None <->
  (enabled = true -> StringToLowerASCII id ∉ id_ <$> extensions_ s)
  ∧ (disabled = true ->
     StringToLowerASCII id ∉ id_ <$> disabled_extensions_ s).
Proof.
  unfold GetExtensionByIdInternal.
  destruct enabled, disabled; simpl.
  - destruct (find_id _ (extensions_ s)) eqn:E1.
    + split; [done|]. intros [H _]. specialize (H eq_refl).
      apply find_id_None in H. congruence.
    + apply find_id_None in E1. rewrite find_id_None.
      split; [intros H; split; intros _; done|intros [_ H]; by apply H].
  - destruct (find_id _ (extensions_ s)) eqn:E1.
    + split; [done|]. intros [H _]. specialize (H eq_refl).
      apply find_id_None in H. congruence.
    + apply find_id_None in E1.
      split; [intros _; split; [intros _; done|intros [=]]|done].
  - rewrite find_id_None.
    split; [intros H; split; [intros [=]|intros _; done]
           |intros [_ H]; by apply H].
  - split; [intros _; split; intros [=]|done].
Qed.

Lemma lookup_both_none s id :
  StringToLowerASCII id ∉ id_ <$> registered s ->
  GetExtensionByIdInternal s id true true = None.
Proof.
  unfold registered. rewrite fmap_app, not_elem_of_app. intros [? ?].
  by apply lookup_none_iff.
Qed.

Lemma wf_enabled_not_disabled s e :
  wf s -> e ∈ extensions_ s -> id_ e ∉ id_ <$> disabled_extensions_ s.
Proof.
  intros (_ & Hid & _) He Hd. unfold registered in Hid.
  rewrite fmap_app in Hid. apply NoDup_app in Hid as (_ & Hdisj & _).
  apply (Hdisj (id_ e)); [by apply list_elem_of_fmap_2|done].
Qed.

Lemma wf_lowercase s e : wf s -> e ∈ registered s -> is_lowercase (id_ e).
Proof.
  intros (_ & _ & Hl) He. rewrite Forall_forall in Hl.
  by apply Hl, list_elem_of_fmap_2.
Qed.

Lemma lookup_enabled s e (disabled : bool) :
  wf s -> e ∈ extensions_ s ->
  GetExtensionByIdInternal s (id_ e) true disabled = Some e.
Proof.
  intros Hwf He. unfold GetExtensionByIdInternal.
  rewrite (wf_lowercase s e Hwf) by (apply elem_of_app; by left).
  destruct Hwf as (_ & Hid & _). unfold registered in Hid.
  rewrite fmap_app in Hid. apply NoDup_app in Hid as (Hid & _ & _).
  by rewrite (find_id_unique _ _ Hid He).
Qed.

Lemma lookup_disabled s e (enabled : bool) :
  wf s -> e ∈ disabled_extensions_ s ->
  GetExtensionByIdInternal s (id_ e) enabled true = Some e.
Proof.
  intros Hwf He. unfold GetExtensionByIdInternal.
  rewrite (wf_lowercase s e Hwf) by (apply elem_of_app; by right).
  assert (find_id (id_ e) (extensions_ s) = None) as Hnone.
  { apply find_id_None. intros Hin.
    apply list_elem_of_fmap in Hin as (x & Hx & Hxin).
    apply (wf_enabled_not_disabled s x Hwf Hxin).
    rewrite <- Hx. by apply list_elem_of_fmap_2. }
  destruct Hwf as (_ & Hid & _). unfold registered in Hid.
  rewrite fmap_app in Hid. apply NoDup_app in Hid as (_ & _ & Hid).
  rewrite Hnone, (find_id_unique _ _ Hid He). by destruct enabled.
Qed.

Lemma lookup_registered s e :
  wf s -> e ∈ registered s ->
  GetExtensionByIdInternal s (id_ e) true true = Some e.
Proof.
  intros Hwf He. apply elem_of_app in He as [He|He].
  - by apply lookup_enabled.
  - by apply lookup_disabled.
Qed.

(** ** Rejections and no-ops *)

(** C3: when a pending entry exists for the identifier of the installed
    bundle and its theme flag differs from the bundle's, OnExtensionInstalled
    rejects the installation: it logs, schedules the bundle's directory for
    (recursive) deletion and does nothing else.  The Enabled and Disabled
    lists, the pending map and the preference store are unchanged, and no
    notification is sent. *)
Theorem OnExtensionInstalled_rejects_theme_mismatch
    s extension allow pending :
  pending_extensions_ s !! id_ extension = Some pending ->
  is_theme pending ≠ is_theme_ extension ->
  exists s' msg,
    OnExtensionInstalled extension allow s = Ok s'
    ∧ same_members s s'
    ∧ trace_ s' =
        trace_ s ++ [Log WARNING msg;
                     PostTask FILE (DeleteFileHelper (path_ extension) true)].
Proof.
  intros Hpending Hne. unfold OnExtensionInstalled. rewrite Hpending.
  assert (Bool.eqb (is_theme pending) (is_theme_ extension) = false) as ->.
  { by destruct (is_theme pending), (is_theme_ extension). }
  simpl. eexists _, _. split; [reflexivity|].
  split; [by repeat split|]. simpl. by rewrite <- app_assoc.
Qed.

(** C5: UpdateExtension for an identifier that is neither pending nor
    registered (enabled or disabled) creates no installer: it logs a warning
    and schedules the bundle file for deletion; the lists and the pending map
    are unchanged. *)
Theorem UpdateExtension_unknown_id s id extension_path download_url :
  pending_extensions_ s !! id = None ->
  StringToLowerASCII id ∉ id_ <$> registered s ->
  exists s' msg,
    UpdateExtension id extension_path download_url s = Ok s'
    ∧ same_members s s'
    ∧ trace_ s' =
        trace_ s ++ [Log WARNING msg;
                     PostTask FILE (DeleteFileHelper extension_path false)].
Proof.
  intros Hpending Hreg. unfold UpdateExtension.
  rewrite Hpending, (lookup_both_none _ _ Hreg). simpl.
  eexists _, _. split; [reflexivity|].
  split; [by repeat split|]. simpl. by rewrite <- app_assoc.
Qed.


(** C9, as the code has it: EnableExtension for an identifier that is not in
    the Disabled list changes nothing and reports through NOTREACHED;
    DisableExtension for an identifier that is not in the Enabled list
    changes nothing and reports nothing ("the extension may have been
    disabled already").  Neither touches the lists or the persisted state,
    and neither sends a load or unload notification. *)
Theorem Enable_Disable_outside_source_list s id :
  (StringToLowerASCII id ∉ id_ <$> disabled_extensions_ s ->
   exists s',
     EnableExtension id s = Ok s'
     ∧ same_members s s'
     ∧ trace_ s' =
         trace_ s
         ++ [NOTREACHED "Trying to enable an extension that isn't disabled."])
  ∧ (StringToLowerASCII id ∉ id_ <$> extensions_ s ->
     DisableExtension id s = Ok s).
Proof.
  split; intros Hnot.
  - unfold EnableExtension.
    assert (GetExtensionByIdInternal s id false true = None) as ->
        by (apply lookup_none_iff; done).
    eexists. split; [reflexivity|]. split; [by repeat split|done].
  - unfold DisableExtension.
    assert (GetExtensionByIdInternal s id true false = None) as ->
        by (apply lookup_none_iff; done).
    done.
Qed.

(** C10: with the service's extensions-enabled flag off, a newly loaded
    extension (a new object, held by neither list) that is no theme, was not loaded unpacked and does not come
    from an external location is dropped: OnExtensionLoaded adds it to
    neither list, sends no notification (the only effect outside is the
    refresh of the crash reporter's snapshot), and changes no member but the
    unloaded-path map, where the identifier's entry is erased. *)
Theorem OnExtensionLoaded_gate_closed s extension allow :
  extensions_enabled_ s = false ->
  is_theme_ extension = false ->
  location_ extension ≠ LOAD ->
  IsExternalLocation (location_ extension) = false ->
  ptr_ extension ∉ ptr_ <$> registered s ->
  exists s',
    OnExtensionLoaded extension allow s = Ok s'
    ∧ extensions_ s' = extensions_ s
    ∧ disabled_extensions_ s' = disabled_extensions_ s
    ∧ pending_extensions_ s' = pending_extensions_ s
    ∧ extension_prefs_ s' = extension_prefs_ s
    ∧ orphaned_dev_tools_ s' = orphaned_dev_tools_ s
    ∧ unloaded_extension_paths_ s' =
        delete (id_ extension) (unloaded_extension_paths_ s)
    ∧ trace_ s' =
        trace_ s ++ [SetActiveExtensions
                       (active_extension_ids (extensions_ s))].
Proof.
  intros Hflag Htheme Hload Hext Hfresh.
  unfold registered in Hfresh. rewrite fmap_app, not_elem_of_app in Hfresh.
  destruct Hfresh as [Hf1 Hf2].
  unfold OnExtensionLoaded, seq, modify, load_gate. simpl.
  rewrite Hflag, Htheme, Hext. rewrite bool_decide_eq_false_2 by done. simpl.
  unfold update_object, modify, UpdateActiveExtensionsInCrashReporter. simpl.
  eexists. split; [reflexivity|]. simpl.
  rewrite !poke_notin by done. by repeat split.
Qed.

(** C4, as the code has it: in a registry that satisfies the invariant
    [wf], when the load gate is open (extensions enabled, or a theme, or an
    unpacked or external extension) and a record with the same identifier is
    registered (enabled or disabled) at a version that
    the new one does not exceed, OnExtensionLoaded rejects the load: it logs
    the duplicate, reports an overinstall load error, and leaves both lists,
    the pending map and the preference store as they were. *)
Theorem OnExtensionLoaded_rejects_stale_version s old extension allow :
  wf s ->
  old ∈ registered s ->
  id_ extension = id_ old ->
  (CompareTo (version_ extension) (version_ old) <= 0)%Z ->
  load_gate s extension = true ->
  let error_message :=
    "Duplicate extension load attempt: " +:+ id_ extension in
  exists s',
    OnExtensionLoaded extension allow s = Ok s'
    ∧ extensions_ s' = extensions_ s
    ∧ disabled_extensions_ s' = disabled_extensions_ s
    ∧ pending_extensions_ s' = pending_extensions_ s
    ∧ extension_prefs_ s' = extension_prefs_ s
    ∧ trace_ s' =
        trace_ s
        ++ [Log WARNING error_message;
            Notify EXTENSION_OVERINSTALL_ERROR (DetailsString error_message);
            ReportError
              ("Could not load extension from '" +:+ path_ extension
                 +:+ "'. " +:+ error_message)
              false].
Proof.
  intros Hwf Hold Hid Hle Hgate error_message.
  unfold OnExtensionLoaded, seq, modify. simpl.
  set (s1 := with_unloaded_extension_paths _ s).
  assert (load_gate s1 extension = true) as -> by done.
  assert (GetExtensionByIdInternal s1 (id_ extension) true true = Some old)
    as ->.
  { rewrite Hid. change (GetExtensionByIdInternal s (id_ old) true true = Some old).
    by apply lookup_registered. }
  assert ((CompareTo (version_ extension) (version_ old) >? 0)%Z = false)
    as -> by lia.
  unfold ReportExtensionLoadError, seq, emit, modify. simpl.
  eexists. split; [reflexivity|]. simpl.
  repeat split. by rewrite <- !app_assoc.
Qed.


(** The installer that [OnExternalExtensionFound] starts: silent, pinned to
    the identifier, from the given location, privilege increase allowed. *)
Definition external_installer (id : string) (location : Location)
  : CrxInstaller :=
  {| client := false; install_source := Some location;
     expected_id := Some id; allow_privilege_increase := true;
     delete_source := false; force_web_origin_to_download_url := false;
     original_url := None |}.

(** C6: in a registry that satisfies the invariant [wf],
    OnExternalExtensionFound for an identifier that is registered in the
    Enabled list, with a version string that parses, compares the registered version with the discovered one
    (CompareTo answers -1, 0 or 1).  Registered older than discovered: an
    install is started.  Equal: the call returns and nothing changes.
    Registered newer than discovered: a warning is logged, nothing is
    installed and no member changes. *)
Theorem OnExternalExtensionFound_registered
    s existing id version other path location :
  wf s ->
  existing ∈ extensions_ s ->
  StringToLowerASCII id = id_ existing ->
  GetVersionFromString version = Some other ->
  let run := OnExternalExtensionFound id version path location s in
  ((CompareTo (version_ existing) other < 0)%Z ->
   exists s',
     run = Ok s' ∧ same_members s s'
     ∧ trace_ s' =
         trace_ s ++ [InstallCrx (external_installer id location) path])
  ∧ (CompareTo (version_ existing) other = 0%Z -> run = Ok s)
  ∧ (CompareTo (version_ existing) other = 1%Z ->
     exists s' msg,
       run = Ok s' ∧ same_members s s'
       ∧ trace_ s' = trace_ s ++ [Log WARNING msg]).
Proof.
  intros Hwf Hin Hid Hparse run. subst run.
  unfold OnExternalExtensionFound, GetExtensionById.
  assert (GetExtensionByIdInternal s id true true = Some existing) as ->.
  { pose proof (lookup_enabled s existing true Hwf Hin) as H.
    unfold GetExtensionByIdInternal in *.
    rewrite Hid. by rewrite (wf_lowercase s existing Hwf) in H
      by (apply elem_of_app; by left). }
  rewrite Hparse. repeat split.
  - intros Hlt.
    destruct (CompareTo (version_ existing) other) as [|p|p]; try lia.
    destruct p; (eexists; split; [reflexivity|by repeat split]).
  - by intros ->.
  - intros ->. by eexists _, _.
Qed.


(** ** Unloading *)

Lemma state_eq (s s' : ExtensionsService) :
  extensions_ s = extensions_ s' ->
  disabled_extensions_ s = disabled_extensions_ s' ->
  pending_extensions_ s = pending_extensions_ s' ->
  unloaded_extension_paths_ s = unloaded_extension_paths_ s' ->
  orphaned_dev_tools_ s = orphaned_dev_tools_ s' ->
  extension_prefs_ s = extension_prefs_ s' ->
  extensions_enabled_ s = extensions_enabled_ s' ->
  install_directory_ s = install_directory_ s' ->
  profile_ s = profile_ s' ->
  trace_ s = trace_ s' ->
  s = s'.
Proof. destruct s, s'; simpl; intros; by subst. Qed.

(** The members after the record [e] was unloaded. *)
Definition unloaded_state (e : Extension) (s : ExtensionsService)
  : ExtensionsService :=
  with_unloaded_extension_paths <[id_ e := path_ e]>
    (with_disabled_extensions (without (id_ e))
       (with_extensions (without (id_ e)) s)).

Lemma wf_parts s :
  wf s ->
  NoDup (ptr_ <$> extensions_ s) ∧ NoDup (ptr_ <$> disabled_extensions_ s)
  ∧ NoDup (id_ <$> extensions_ s) ∧ NoDup (id_ <$> disabled_extensions_ s)
  ∧ (forall e, e ∈ extensions_ s -> ptr_ e ∉ ptr_ <$> disabled_extensions_ s)
  ∧ (forall e, e ∈ extensions_ s -> id_ e ∉ id_ <$> disabled_extensions_ s)
  ∧ (forall e, e ∈ disabled_extensions_ s -> id_ e ∉ id_ <$> extensions_ s).
Proof.
  intros (Hp & Hi & _). unfold registered in *.
  rewrite fmap_app in Hp. rewrite fmap_app in Hi.
  apply NoDup_app in Hp as (Hp1 & Hp2 & Hp3).
  apply NoDup_app in Hi as (Hi1 & Hi2 & Hi3).
  repeat split; try done.
  - intros e He. apply Hp2. by apply list_elem_of_fmap_2.
  - intros e He. apply Hi2. by apply list_elem_of_fmap_2.
  - intros e He Hin. apply (Hi2 _ Hin). by apply list_elem_of_fmap_2.
Qed.

Lemma UnloadExtension_registered s id e :
  wf s -> e ∈ registered s -> StringToLowerASCII id = id_ e ->
  exists evs, UnloadExtension id s = Ok (add_events evs (unloaded_state e s)).
Proof.
  intros Hwf Hin Hid.
  assert (GetExtensionByIdInternal s id true true = Some e) as Hlook.
  { pose proof (lookup_registered s e Hwf Hin) as H.
    unfold GetExtensionByIdInternal in *. rewrite Hid.
    by rewrite (wf_lowercase s e Hwf Hin) in H. }
  destruct (wf_parts s Hwf) as (Hp1 & Hp2 & Hi1 & Hi2 & Hpd & Hid1 & Hid2).
  unfold UnloadExtension. rewrite Hlook. unfold seq at 1 2. simpl.
  apply elem_of_app in Hin as [Hin|Hin].
  - (* held by the Enabled list *)
    rewrite (std_find_notin (disabled_extensions_ s)) by by apply Hpd.
    rewrite Nat.eqb_refl. simpl.
    pose proof (std_find_in _ _ Hin) as Hlt.
    unfold seq at 1, erase_extensions. simpl.
    apply Nat.ltb_lt in Hlt. rewrite Hlt.
    destruct (trace_only_seq _ _ (trace_only_NotifyExtensionUnloaded e)
                trace_only_UpdateActiveExtensionsInCrashReporter
                (with_extensions
                   (delete (std_find (extensions_ s) (ptr_ e)))
                   (with_trace
                      (fun t => t
                         ++ [UnregisterChromeURLOverrides
                               (chrome_url_overrides_ e)])
                      (with_unloaded_extension_paths
                         <[id_ e := path_ e]> s))))
      as [evs Hevs].
    rewrite Hevs.
    exists (UnregisterChromeURLOverrides (chrome_url_overrides_ e) :: evs).
    f_equal. apply state_eq; simpl; try done.
    + by apply erase_std_find.
    + symmetry. apply without_notin. by apply Hid1.
    + by rewrite <- app_assoc.
  - (* held by the Disabled list *)
    pose proof (std_find_in _ _ Hin) as Hlt.
    assert ((std_find (disabled_extensions_ s) (ptr_ e)
             =? length (disabled_extensions_ s))%nat = false) as ->
        by (apply Nat.eqb_neq; lia).
    simpl. unfold seq, erase_disabled_extensions. simpl.
    apply Nat.ltb_lt in Hlt. rewrite Hlt. simpl.
    exists [UnregisterChromeURLOverrides (chrome_url_overrides_ e);
            Notify EXTENSION_UNLOADED_DISABLED (DetailsExtension e)].
    unfold emit, modify. f_equal. apply state_eq; simpl; try done.
    + symmetry. apply without_notin. by apply Hid2.
    + by apply erase_std_find.
    + by rewrite <- app_assoc.
Qed.


(** ** The invariant under list surgery *)

Lemma wf_list_perm l l' : l ≡ₚ l' -> wf_list l -> wf_list l'.
Proof.
  intros Hperm (Hp & Hi & Hl). repeat split.
  - by rewrite <- Hperm.
  - by rewrite <- Hperm.
  - by rewrite <- Hperm.
Qed.

Lemma wf_list_nil : wf_list [].
Proof. repeat split; simpl; constructor. Qed.

Lemma wf_list_cons e l :
  wf_list (e :: l) <->
  (ptr_ e ∉ ptr_ <$> l) ∧ (id_ e ∉ id_ <$> l)
  ∧ is_lowercase (id_ e) ∧ wf_list l.
Proof.
  unfold wf_list. simpl. rewrite !NoDup_cons, Forall_cons. pure_tauto.
Qed.

Lemma wf_list_snoc e l :
  wf_list l -> ptr_ e ∉ ptr_ <$> l -> id_ e ∉ id_ <$> l ->
  is_lowercase (id_ e) -> wf_list (l ++ [e]).
Proof.
  intros. apply (wf_list_perm (e :: l)).
  - apply Permutation_cons_append.
  - by apply wf_list_cons.
Qed.

Lemma wf_list_filter (P : Extension -> Prop) `{!forall e, Decision (P e)} l :
  wf_list l -> wf_list (filter P l).
Proof.
  induction l as [|x l IH]; [done|].
  rewrite wf_list_cons. intros (Hp & Hi & Hl & Hwf).
  rewrite filter_cons. destruct (decide (P x)); [|by apply IH].
  apply wf_list_cons. split; [|split; [|split; [done|by apply IH]]].
  - intros Hin. apply Hp. apply list_elem_of_fmap in Hin as (y & -> & Hy).
    apply list_elem_of_filter in Hy as [_ Hy]. by apply list_elem_of_fmap_2.
  - intros Hin. apply Hi. apply list_elem_of_fmap in Hin as (y & -> & Hy).
    apply list_elem_of_filter in Hy as [_ Hy]. by apply list_elem_of_fmap_2.
Qed.

Lemma wf_list_poke p f l :
  (forall e, ptr_ (f e) = ptr_ e) -> (forall e, id_ (f e) = id_ e) ->
  wf_list l -> wf_list (poke p f l).
Proof.
  intros Hp Hi. unfold wf_list. by rewrite poke_ptrs, poke_ids.
Qed.

Lemma poke_app p f l1 l2 : poke p f (l1 ++ l2) = poke p f l1 ++ poke p f l2.
Proof. unfold poke. apply map_app. Qed.

Lemma NoDup_fmap_same {B} (f : Extension -> B) l x y :
  NoDup (f <$> l) -> x ∈ l -> y ∈ l -> f x = f y -> x = y.
Proof.
  induction l as [|z l IH]; simpl; intros Hnd Hx Hy Heq.
  - by apply elem_of_nil in Hx.
  - apply NoDup_cons in Hnd as [Hz Hnd].
    apply elem_of_cons in Hx as [->|Hx]; apply elem_of_cons in Hy as [->|Hy].
    + done.
    + destruct Hz. rewrite Heq. by apply list_elem_of_fmap_2.
    + destruct Hz. rewrite <- Heq. by apply list_elem_of_fmap_2.
    + by apply IH.
Qed.

Lemma without_app id l1 l2 :
  without id (l1 ++ l2) = without id l1 ++ without id l2.
Proof. apply filter_app. Qed.

Lemma id_notin_without id l : id ∉ id_ <$> without id l.
Proof.
  intros Hin. apply list_elem_of_fmap in Hin as (y & -> & Hy).
  apply list_elem_of_filter in Hy as [Hne _]. done.
Qed.

Lemma ptr_notin_without p id l :
  p ∉ ptr_ <$> l -> p ∉ ptr_ <$> without id l.
Proof.
  intros Hp Hin. apply Hp. apply list_elem_of_fmap in Hin as (y & -> & Hy).
  apply list_elem_of_filter in Hy as [_ Hy]. by apply list_elem_of_fmap_2.
Qed.

Lemma perm_extract l e :
  NoDup (id_ <$> l) -> e ∈ l -> l ≡ₚ e :: without (id_ e) l.
Proof.
  induction l as [|x l IH]; simpl; intros Hnd Hin.
  - by apply elem_of_nil in Hin.
  - apply NoDup_cons in Hnd as [Hx Hnd]. unfold without.
    apply elem_of_cons in Hin as [->|Hin].
    + rewrite filter_cons_False by (intros H; by apply H).
      fold (without (id_ x) l). by rewrite without_notin.
    + rewrite filter_cons_True.
      * rewrite (IH Hnd Hin) at 1. apply perm_swap.
      * intros Heq. apply Hx. rewrite Heq. by apply list_elem_of_fmap_2.
Qed.

Lemma without_poke id p f l :
  (forall e, id_ (f e) = id_ e) ->
  (forall x, x ∈ l -> ptr_ x = p -> id_ x = id) ->
  without id (poke p f l) = without id l.
Proof.
  intros Hf. unfold without, poke.
  induction l as [|x l IH]; simpl; intros Hown; [done|].
  assert (forall x0, x0 ∈ l -> ptr_ x0 = p -> id_ x0 = id) as Hown'
      by (intros; apply Hown; [by right|done]).
  destruct (Nat.eqb (ptr_ x) p) eqn:E.
  - apply Nat.eqb_eq in E.
    rewrite !filter_cons_False; [by apply IH| |].
    + intros H. apply H. apply Hown; [left|done].
    + intros H. apply H. rewrite Hf. apply Hown; [left|done].
  - rewrite !filter_cons. destruct (decide (id_ x ≠ id)); by rewrite IH.
Qed.


(** ** Enable and disable *)

Lemma seq_Ok (a b : Action) s s1 : a s = Ok s1 -> (a >> b) s = b s1.
Proof. unfold seq. by intros ->. Qed.

(** One step of symbolic execution through a sequence. *)
Ltac run_step :=
  match goal with
  | |- context [seq (modify ?f) ?b ?s] =>
      change (seq (modify f) b s) with (b (f s))
  | |- context [seq (emit ?ev) ?b ?s] =>
      change (seq (emit ev) b s) with (b (add_events [ev] s))
  end; cbv beta.

Lemma erase_extensions_member s e :
  NoDup (ptr_ <$> extensions_ s) -> NoDup (id_ <$> extensions_ s) ->
  e ∈ extensions_ s ->
  erase_extensions (std_find (extensions_ s) (ptr_ e)) s
  = Ok (with_extensions (without (id_ e)) s).
Proof.
  intros Hp Hi Hin. unfold erase_extensions.
  pose proof (std_find_in _ _ Hin) as Hlt. apply Nat.ltb_lt in Hlt.
  rewrite Hlt. f_equal. apply state_eq; simpl; try done.
  by apply erase_std_find.
Qed.

Lemma erase_disabled_extensions_member s e :
  NoDup (ptr_ <$> disabled_extensions_ s) ->
  NoDup (id_ <$> disabled_extensions_ s) ->
  e ∈ disabled_extensions_ s ->
  erase_disabled_extensions (std_find (disabled_extensions_ s) (ptr_ e)) s
  = Ok (with_disabled_extensions (without (id_ e)) s).
Proof.
  intros Hp Hi Hin. unfold erase_disabled_extensions.
  pose proof (std_find_in _ _ Hin) as Hlt. apply Nat.ltb_lt in Hlt.
  rewrite Hlt. f_equal. apply state_eq; simpl; try done.
  by apply erase_std_find.
Qed.

(** The members after the disabled record [e] was enabled. *)
Definition enabled_state (e : Extension) (s : ExtensionsService)
  : ExtensionsService :=
  with_disabled_extensions (without (id_ e))
    (with_extensions (fun l => l ++ [e])
       (with_extension_prefs (fun p => SetExtensionState p e ENABLED) s)).

(** The members after the enabled record [e] was disabled. *)
Definition disabled_state (e : Extension) (s : ExtensionsService)
  : ExtensionsService :=
  with_extensions (without (id_ e))
    (with_disabled_extensions (fun l => l ++ [e])
       (with_extension_prefs (fun p => SetExtensionState p e DISABLED) s)).

Lemma EnableExtension_disabled s id e :
  wf s -> e ∈ disabled_extensions_ s -> StringToLowerASCII id = id_ e ->
  exists evs, EnableExtension id s = Ok (add_events evs (enabled_state e s)).
Proof.
  intros Hwf Hin Hid.
  assert (GetExtensionByIdInternal s id false true = Some e) as Hlook.
  { pose proof (lookup_disabled s e false Hwf Hin) as H.
    unfold GetExtensionByIdInternal in *. rewrite Hid.
    by rewrite (wf_lowercase s e Hwf) in H by (apply elem_of_app; by right). }
  destruct (wf_parts s Hwf) as (Hp1 & Hp2 & Hi1 & Hi2 & Hpd & Hid1 & Hid2).
  unfold EnableExtension. rewrite Hlook. do 2 run_step.
  erewrite seq_Ok; [|by apply erase_disabled_extensions_member].
  destruct (trace_only_seq _ _
              (trace_only_emit (RegisterChromeURLOverrides
                                  (chrome_url_overrides_ e)))
              (trace_only_seq _ _ (trace_only_NotifyExtensionLoaded e)
                 trace_only_UpdateActiveExtensionsInCrashReporter)
              (enabled_state e s)) as [evs Hevs].
  exists evs. exact Hevs.
Qed.

Lemma DisableExtension_enabled s id e :
  wf s -> e ∈ extensions_ s -> StringToLowerASCII id = id_ e ->
  exists evs, DisableExtension id s = Ok (add_events evs (disabled_state e s)).
Proof.
  intros Hwf Hin Hid.
  assert (GetExtensionByIdInternal s id true false = Some e) as Hlook.
  { pose proof (lookup_enabled s e false Hwf Hin) as H.
    unfold GetExtensionByIdInternal in *. rewrite Hid.
    by rewrite (wf_lowercase s e Hwf) in H by (apply elem_of_app; by left). }
  destruct (wf_parts s Hwf) as (Hp1 & Hp2 & Hi1 & Hi2 & Hpd & Hid1 & Hid2).
  unfold DisableExtension. rewrite Hlook. do 2 run_step.
  erewrite seq_Ok; [|by apply erase_extensions_member].
  destruct (trace_only_seq _ _
              (trace_only_emit (UnregisterChromeURLOverrides
                                  (chrome_url_overrides_ e)))
              (trace_only_seq _ _ (trace_only_NotifyExtensionUnloaded e)
                 trace_only_UpdateActiveExtensionsInCrashReporter)
              (disabled_state e s)) as [evs Hevs].
  exists evs. exact Hevs.
Qed.

(** ** The invariant is kept *)

Lemma wf_unloaded_state e s : wf s -> wf (unloaded_state e s).
Proof.
  unfold wf, registered. simpl. rewrite <- without_app.
  apply wf_list_filter; apply _.
Qed.

Lemma wf_enabled_state e s :
  wf s -> e ∈ disabled_extensions_ s -> wf (enabled_state e s).
Proof.
  intros Hwf Hin.
  destruct (wf_parts s Hwf) as (_ & _ & _ & Hi2 & _).
  unfold wf, registered in *. simpl.
  apply (wf_list_perm (extensions_ s ++ disabled_extensions_ s)); [|done].
  rewrite (perm_extract (disabled_extensions_ s) e Hi2 Hin) at 1.
  rewrite <- app_assoc. simpl. done.
Qed.

Lemma wf_disabled_state e s :
  wf s -> e ∈ extensions_ s -> wf (disabled_state e s).
Proof.
  intros Hwf Hin.
  destruct (wf_parts s Hwf) as (_ & _ & Hi1 & _).
  unfold wf, registered in *. simpl.
  apply (wf_list_perm (extensions_ s ++ disabled_extensions_ s)); [|done].
  rewrite (perm_extract (extensions_ s) e Hi1 Hin) at 1.
  simpl. rewrite Permutation_middle. apply Permutation_app_head.
  apply Permutation_cons_append.
Qed.


(** ** Loading *)

(** A new object with a well-formed identifier: what [OnExtensionLoaded]
    and [OnExtensionInstalled] are handed. *)
Definition new_object (s : ExtensionsService) (e : Extension) : Prop :=
  (ptr_ e ∉ ptr_ <$> registered s) ∧ is_lowercase (id_ e).

(** The members after [e] was put into the list the state [st] names. *)
Definition placed_state (st : State) (e : Extension) (s : ExtensionsService)
  : ExtensionsService :=
  match st with
  | ENABLED => with_extensions (fun l => l ++ [e]) s
  | DISABLED => with_disabled_extensions (fun l => l ++ [e]) s
  | KILLBIT => s
  end.

(** [profile_->GetBookmarkModel()] is reached without a profile: the
    extension has the bookmark permission and is placed as enabled. *)
Definition stops_at_bookmark_model (s : ExtensionsService) (e : Extension)
    (st : State) : bool :=
  match st, profile_ s with
  | ENABLED, None => HasApiPermission e kBookmarkPermission
  | _, _ => false
  end.

(** The service has a profile, or the extension does not ask for the
    bookmark permission. *)
Definition bookmarks_observable (s : ExtensionsService) (e : Extension)
  : Prop :=
  HasApiPermission e kBookmarkPermission = true -> is_Some (profile_ s).

Lemma bookmarks_observable_no_stop s e st :
  bookmarks_observable s e -> stops_at_bookmark_model s e st = false.
Proof.
  unfold bookmarks_observable, stops_at_bookmark_model. intros H.
  destruct st; try done. destruct (profile_ s); [done|].
  destruct (HasApiPermission e kBookmarkPermission); [|done].
  by destruct (H eq_refl).
Qed.

Lemma stops_at_bookmark_model_spec s e st :
  stops_at_bookmark_model s e st = true ->
  st = ENABLED ∧ HasApiPermission e kBookmarkPermission = true
  ∧ profile_ s = None.
Proof.
  unfold stops_at_bookmark_model.
  destruct st; try done. by destruct (profile_ s).
Qed.

Lemma seq_skip (b : Action) s : (skip >> b) s = b s.
Proof. reflexivity. Qed.

Lemma seq_Fatal (a b : Action) s why : a s = Fatal why -> (a >> b) s = Fatal why.
Proof. unfold seq. by intros ->. Qed.

(** The step of the switch that asks the profile for its bookmark model. *)
Lemma seq_bookmark_model (b : Action) s :
  ((fun s1 =>
      match profile_ s1 with
      | None => Fatal (Undefined "profile_->GetBookmarkModel()")
      | Some _ => emit BookmarkEventRouter_Observe s1
      end) >> b) s
  = match profile_ s with
    | None => Fatal (Undefined "profile_->GetBookmarkModel()")
    | Some _ => b (add_events [BookmarkEventRouter_Observe] s)
    end.
Proof. unfold seq. by destruct (profile_ s). Qed.

Lemma place_by_persisted_state_run e s :
  exists evs,
    place_by_persisted_state e s
    = if stops_at_bookmark_model s e
           (GetExtensionState (extension_prefs_ s) (id_ e))
      then Fatal (Undefined "profile_->GetBookmarkModel()")
      else Ok (add_events evs
                 (placed_state (GetExtensionState (extension_prefs_ s) (id_ e))
                    e s)).
Proof.
  unfold place_by_persisted_state, stops_at_bookmark_model.
  destruct (GetExtensionState (extension_prefs_ s) (id_ e)); simpl.
  - by eexists.
  - run_step.
    pose proof (trace_only_seq _ _ (trace_only_NotifyExtensionLoaded e)
                  (trace_only_emit
                     (RegisterChromeURLOverrides (chrome_url_overrides_ e))))
      as Hrest.
    assert (forall s0,
              profile_ s0 = profile_ s ->
              exists evs,
                (when (HasApiPermission e kBookmarkPermission)
                   (fun s1 =>
                      match profile_ s1 with
                      | None =>
                          Fatal (Undefined "profile_->GetBookmarkModel()")
                      | Some _ => emit BookmarkEventRouter_Observe s1
                      end) >>
                 NotifyExtensionLoaded e >>
                 emit (RegisterChromeURLOverrides
                         (chrome_url_overrides_ e))) s0
                = match profile_ s with
                  | Some _ => Ok (add_events evs s0)
                  | None =>
                      if HasApiPermission e kBookmarkPermission
                      then Fatal (Undefined "profile_->GetBookmarkModel()")
                      else Ok (add_events evs s0)
                  end) as Hbook.
    { intros s0 Hs0.
      destruct (HasApiPermission e kBookmarkPermission); unfold when.
      - rewrite seq_bookmark_model, Hs0. destruct (profile_ s); [|by exists []].
        destruct (Hrest (add_events [BookmarkEventRouter_Observe] s0))
          as [evs ->].
        exists (BookmarkEventRouter_Observe :: evs).
        by rewrite add_events_app.
      - rewrite seq_skip. destruct (Hrest s0) as [evs ->].
        exists evs. by destruct (profile_ s). }
    destruct (HasApiPermission e kTabPermission); unfold when at 1.
    + run_step.
      destruct (Hbook (add_events [BrowserEventRouter_Init]
                         (with_extensions (fun l => l ++ [e]) s)) eq_refl)
        as [evs ->].
      exists (BrowserEventRouter_Init :: evs).
      destruct (profile_ s);
        [|destruct (HasApiPermission e kBookmarkPermission); [done|]];
        by rewrite add_events_app.
    + rewrite seq_skip.
      destruct (Hbook (with_extensions (fun l => l ++ [e]) s) eq_refl)
        as [evs ->].
      exists evs.
      destruct (profile_ s);
        [|destruct (HasApiPermission e kBookmarkPermission)]; done.
  - by eexists.
Qed.

Lemma poke_snoc p f l e :
  p ∉ ptr_ <$> l -> ptr_ e = p -> poke p f (l ++ [e]) = l ++ [f e].
Proof.
  intros Hl He. rewrite poke_app, poke_notin by done.
  unfold poke. simpl. by rewrite He, Nat.eqb_refl.
Qed.

Lemma poke_member p f l e :
  e ∈ l -> ptr_ e = p -> f e ∈ poke p f l.
Proof.
  intros Hin He. unfold poke. apply list_elem_of_fmap.
  exists e. split; [|done]. by rewrite He, Nat.eqb_refl.
Qed.

(** The members after the new object [e] was loaded where no record of its
    identifier was registered. *)
Definition loaded_state (e : Extension) (s : ExtensionsService)
  : ExtensionsService :=
  placed_state (GetExtensionState (extension_prefs_ s) (id_ e))
    (set_being_upgraded false e)
    (with_unloaded_extension_paths (delete (id_ e)) s).

Lemma OnExtensionLoaded_new_id s e allow :
  new_object s e ->
  id_ e ∉ id_ <$> registered s ->
  load_gate s e = true ->
  exists evs,
    OnExtensionLoaded e allow s
    = if stops_at_bookmark_model s e
           (GetExtensionState (extension_prefs_ s) (id_ e))
      then Fatal (Undefined "profile_->GetBookmarkModel()")
      else Ok (add_events evs (loaded_state e s)).
Proof.
  intros [Hfresh Hlow] Hid Hgate.
  unfold registered in Hfresh. rewrite fmap_app, not_elem_of_app in Hfresh.
  destruct Hfresh as [Hf1 Hf2].
  unfold OnExtensionLoaded. run_step. cbv beta zeta.
  set (s0 := with_unloaded_extension_paths _ s).
  assert (load_gate s0 e = true) as -> by done.
  assert (GetExtensionByIdInternal s0 (id_ e) true true = None) as ->.
  { change (GetExtensionByIdInternal s (id_ e) true true = None).
    apply lookup_both_none. by rewrite Hlow. }
  destruct (place_by_persisted_state_run e s0) as [evs1 H1].
  change (stops_at_bookmark_model s0 e
            (GetExtensionState (extension_prefs_ s0) (id_ e)))
    with (stops_at_bookmark_model s e
            (GetExtensionState (extension_prefs_ s) (id_ e))) in H1.
  destruct (stops_at_bookmark_model s e _).
  { exists []. by rewrite (seq_Fatal _ _ _ _ H1). }
  rewrite (seq_Ok _ _ _ _ H1). unfold update_object. run_step.
  unfold UpdateActiveExtensionsInCrashReporter, emit, modify, loaded_state.
  fold s0. change (extension_prefs_ s) with (extension_prefs_ s0).
  destruct (GetExtensionState (extension_prefs_ s0) (id_ e));
    eexists (evs1 ++ [_]); f_equal;
    apply state_eq; simpl; rewrite ?poke_notin by done;
    rewrite ?poke_snoc by done; try done; by rewrite <- app_assoc.
Qed.


Lemma GetExtensionState_set p e st b :
  GetExtensionState
    (SetDidExtensionEscalatePermissions (SetExtensionState p e st) e b)
    (id_ e) = st.
Proof. unfold GetExtensionState. simpl. by rewrite lookup_insert_eq. Qed.

Lemma DidExtensionEscalatePermissions_set p e b :
  DidExtensionEscalatePermissions
    (SetDidExtensionEscalatePermissions p e b) (id_ e) = b.
Proof.
  unfold DidExtensionEscalatePermissions. simpl. by rewrite lookup_insert_eq.
Qed.

Lemma registered_owner s old x :
  wf s -> old ∈ registered s -> x ∈ registered s ->
  ptr_ x = ptr_ old -> id_ x = id_ old.
Proof.
  intros (Hp & _) Hold Hx Heq.
  by rewrite (NoDup_fmap_same ptr_ _ x old Hp Hx Hold Heq).
Qed.

(** The members after the registered record [old] was replaced by the new
    object [e] of the same identifier: [old] is unloaded, and [e] goes where
    the persisted state says (silent upgrade) or to the Disabled list with
    the escalation recorded (no silent upgrade). *)
Definition upgraded_state (old e : Extension) (allow_silent_upgrade : bool)
    (s : ExtensionsService) : ExtensionsService :=
  let s1 :=
    unloaded_state old
      (with_unloaded_extension_paths (delete (id_ e)) s) in
  if allow_silent_upgrade then
    placed_state (GetExtensionState (extension_prefs_ s) (id_ e))
      (set_being_upgraded false e) s1
  else
    placed_state DISABLED (set_being_upgraded false e)
      (with_extension_prefs
         (fun p => SetDidExtensionEscalatePermissions
                     (SetExtensionState p e DISABLED) e true)
         s1).

Lemma OnExtensionLoaded_upgrade_run s old e allow :
  wf s ->
  old ∈ registered s ->
  id_ e = id_ old ->
  ptr_ e ∉ ptr_ <$> registered s ->
  (CompareTo (version_ e) (version_ old) > 0)%Z ->
  load_gate s e = true ->
  exists evs,
    OnExtensionLoaded e allow s
    = if (allow || negb (IsPrivilegeIncrease old e))
         && stops_at_bookmark_model s e
              (GetExtensionState (extension_prefs_ s) (id_ e))
      then Fatal (Undefined "profile_->GetBookmarkModel()")
      else Ok (add_events evs
                 (upgraded_state old e
                    (allow || negb (IsPrivilegeIncrease old e)) s)).
Proof.
  intros Hwf Hold Hid Hfresh Hgt Hgate.
  pose proof Hfresh as Hfresh'.
  unfold registered in Hfresh'. rewrite fmap_app, not_elem_of_app in Hfresh'.
  destruct Hfresh' as [Hf1 Hf2].
  unfold OnExtensionLoaded. run_step. cbv beta zeta.
  set (s0 := with_unloaded_extension_paths _ s).
  assert (wf s0) as Hwf0 by done.
  assert (load_gate s0 e = true) as -> by done.
  assert (GetExtensionByIdInternal s0 (id_ e) true true = Some old) as ->.
  { rewrite Hid. by apply lookup_registered. }
  assert ((CompareTo (version_ e) (version_ old) >? 0)%Z = true) as -> by lia.
  unfold upgraded_state. fold s0.
  destruct (allow || negb (IsPrivilegeIncrease old e)); cbn [when negb].
  - (* silent upgrade *)
    unfold update_object. run_step.
    set (s1 := with_disabled_extensions _ _).
    assert (wf s1) as Hwf1.
    { unfold wf, registered, s1. simpl. rewrite <- poke_app.
      by apply wf_list_poke. }
    destruct (UnloadExtension_registered s1 (id_ old)
                (set_being_upgraded true old)) as [evs1 H1]; [done| |
      by apply (wf_lowercase s old) |].
    { unfold registered, s1. simpl. rewrite <- poke_app.
      by apply poke_member. }
    rewrite (seq_Ok _ _ _ _ H1), seq_skip.
    destruct (place_by_persisted_state_run (set_being_upgraded true e)
                (add_events evs1
                   (unloaded_state (set_being_upgraded true old) s1)))
      as [evs2 H2].
    change (stops_at_bookmark_model _ (set_being_upgraded true e) _)
      with (stops_at_bookmark_model s e
              (GetExtensionState (extension_prefs_ s) (id_ e))) in H2.
    cbn [andb].
    destruct (stops_at_bookmark_model s e _).
    { exists []. by rewrite (seq_Fatal _ _ _ _ H2). }
    rewrite (seq_Ok _ _ _ _ H2). run_step.
    unfold UpdateActiveExtensionsInCrashReporter, emit, modify.
    change (GetExtensionState _ (id_ (set_being_upgraded true e)))
      with (GetExtensionState (extension_prefs_ s) (id_ e)).
    assert (forall l, l = extensions_ s \/ l = disabled_extensions_ s ->
              without (id_ old)
                (poke (ptr_ old) (set_being_upgraded true) l)
              = without (id_ old) l) as Hwp.
    { intros l Hl. apply without_poke; [done|]. intros x Hx Hpx.
      apply (registered_owner s old x Hwf Hold); [|done].
      apply elem_of_app. destruct Hl as [-> | ->]; [by left|by right]. }
    destruct (GetExtensionState (extension_prefs_ s) (id_ e));
      eexists (evs1 ++ evs2 ++ [_]); f_equal;
      apply state_eq; simpl; rewrite ?Hwp by auto;
      rewrite ?poke_snoc by (by try apply ptr_notin_without);
      rewrite ?poke_notin by (by apply ptr_notin_without);
      try done; by rewrite <- !app_assoc.
  - (* no silent upgrade: the new record is disabled *)
    rewrite seq_skip.
    destruct (UnloadExtension_registered s0 (id_ old) old)
      as [evs1 H1]; [done|done|by apply (wf_lowercase s old)|].
    rewrite (seq_Ok _ _ _ _ H1). run_step.
    set (s2 := with_extension_prefs _ _).
    destruct (place_by_persisted_state_run e s2) as [evs2 H2].
    assert (GetExtensionState (extension_prefs_ s2) (id_ e) = DISABLED)
      as Hdisabled by apply GetExtensionState_set.
    rewrite Hdisabled in H2. cbn [stops_at_bookmark_model andb] in H2.
    cbn [andb].
    rewrite (seq_Ok _ _ _ _ H2). unfold update_object. run_step.
    unfold UpdateActiveExtensionsInCrashReporter, emit, modify.
    eexists (evs1 ++ evs2 ++ [_]); f_equal.
    apply state_eq; simpl;
      rewrite ?poke_snoc by (by try apply ptr_notin_without);
      rewrite ?poke_notin by (by apply ptr_notin_without);
      try done; by rewrite <- !app_assoc.
Qed.


Lemma registered_unloaded_state old s :
  registered (unloaded_state old s) = without (id_ old) (registered s).
Proof. unfold registered. simpl. by rewrite without_app. Qed.

Lemma wf_placed_state st e s :
  wf s -> ptr_ e ∉ ptr_ <$> registered s -> id_ e ∉ id_ <$> registered s ->
  is_lowercase (id_ e) -> wf (placed_state st e s).
Proof.
  intros Hwf Hp Hi Hl. unfold wf, registered in *. destruct st; simpl.
  - rewrite app_assoc. by apply wf_list_snoc.
  - apply (wf_list_perm ((extensions_ s ++ disabled_extensions_ s) ++ [e])).
    + rewrite <- !app_assoc. apply Permutation_app_head.
      apply Permutation_app_comm.
    + by apply wf_list_snoc.
  - done.
Qed.

Lemma wf_loaded_state e s :
  wf s -> new_object s e -> id_ e ∉ id_ <$> registered s ->
  wf (loaded_state e s).
Proof. intros Hwf [Hp Hl] Hi. by apply wf_placed_state. Qed.

Lemma wf_upgraded_state old e b s :
  wf s -> id_ e = id_ old -> new_object s e ->
  wf (upgraded_state old e b s).
Proof.
  intros Hwf Hid [Hp Hl]. unfold upgraded_state.
  set (s1 := unloaded_state old _).
  assert (wf s1) as Hwf1 by by apply wf_unloaded_state.
  assert (ptr_ e ∉ ptr_ <$> registered s1) as Hp1.
  { unfold s1. rewrite registered_unloaded_state. by apply ptr_notin_without. }
  assert (id_ e ∉ id_ <$> registered s1) as Hi1.
  { unfold s1. rewrite registered_unloaded_state, Hid.
    apply id_notin_without. }
  destruct b; by apply wf_placed_state.
Qed.

(** The gate is closed: nothing but the unloaded-path map changes. *)
Lemma OnExtensionLoaded_gate_closed_run s e allow :
  load_gate s e = false ->
  ptr_ e ∉ ptr_ <$> registered s ->
  OnExtensionLoaded e allow s
  = Ok (add_events
          [SetActiveExtensions (active_extension_ids (extensions_ s))]
          (with_unloaded_extension_paths (delete (id_ e)) s)).
Proof.
  intros Hgate Hfresh.
  unfold registered in Hfresh. rewrite fmap_app, not_elem_of_app in Hfresh.
  destruct Hfresh as [Hf1 Hf2].
  unfold OnExtensionLoaded. run_step. cbv beta zeta.
  set (s0 := with_unloaded_extension_paths _ s).
  assert (load_gate s0 e = false) as -> by done.
  unfold update_object. run_step.
  unfold UpdateActiveExtensionsInCrashReporter, emit, modify.
  f_equal. apply state_eq; simpl; by rewrite ?poke_notin by done.
Qed.

(** A record of the identifier is registered at a version the new object
    does not exceed: the load is reported and dropped. *)
Lemma OnExtensionLoaded_stale_run s old e allow :
  wf s ->
  old ∈ registered s ->
  id_ e = id_ old ->
  (CompareTo (version_ e) (version_ old) <= 0)%Z ->
  load_gate s e = true ->
  OnExtensionLoaded e allow s
  = Ok (add_events
          [Log WARNING ("Duplicate extension load attempt: " +:+ id_ e);
           Notify EXTENSION_OVERINSTALL_ERROR
             (DetailsString ("Duplicate extension load attempt: " +:+ id_ e));
           ReportError
             ("Could not load extension from '" +:+ path_ e +:+ "'. "
                +:+ ("Duplicate extension load attempt: " +:+ id_ e))
             false]
          (with_unloaded_extension_paths (delete (id_ e)) s)).
Proof.
  intros Hwf Hold Hid Hle Hgate.
  unfold OnExtensionLoaded. run_step. cbv beta zeta.
  set (s0 := with_unloaded_extension_paths _ s).
  assert (load_gate s0 e = true) as -> by done.
  assert (GetExtensionByIdInternal s0 (id_ e) true true = Some old) as ->.
  { rewrite Hid. by apply (lookup_registered s). }
  assert ((CompareTo (version_ e) (version_ old) >? 0)%Z = false) as -> by lia.
  unfold ReportExtensionLoadError. do 2 run_step.
  unfold emit, modify. f_equal. apply state_eq; simpl; try done.
  by rewrite <- !app_assoc.
Qed.

(** Under the invariant, loading a new object returns with the invariant
    kept, unless it stops for want of a profile. *)
Lemma OnExtensionLoaded_outcome s e allow :
  wf s -> new_object s e ->
  (exists s', OnExtensionLoaded e allow s = Ok s' ∧ wf s')
  ∨ (OnExtensionLoaded e allow s
     = Fatal (Undefined "profile_->GetBookmarkModel()")
     ∧ HasApiPermission e kBookmarkPermission = true
     ∧ profile_ s = None).
Proof.
  intros Hwf Hnew. pose proof Hnew as [Hfresh Hlow].
  destruct (load_gate s e) eqn:Hgate.
  - destruct (GetExtensionByIdInternal s (id_ e) true true) as [old|] eqn:Hl.
    + assert (old ∈ registered s ∧ id_ e = id_ old) as [Hold Hid].
      { unfold GetExtensionByIdInternal in Hl. rewrite Hlow in Hl.
        destruct (find_id (id_ e) (extensions_ s)) eqn:E.
        - injection Hl as ->. apply find_id_Some in E as [? ?].
          split; [apply elem_of_app; by left|done].
        - apply find_id_Some in Hl as [? ?].
          split; [apply elem_of_app; by right|done]. }
      destruct (Z.gtb_spec (CompareTo (version_ e) (version_ old)) 0).
      * destruct (OnExtensionLoaded_upgrade_run s old e allow)
          as [evs ->]; try done; [lia|].
        destruct (stops_at_bookmark_model s e _) eqn:Hstop.
        -- apply stops_at_bookmark_model_spec in Hstop as (_ & ? & ?).
           destruct (allow || negb (IsPrivilegeIncrease old e)); cbn [andb].
           ++ by right.
           ++ left. eexists. split; [done|]. by apply wf_upgraded_state.
        -- rewrite andb_false_r. left. eexists. split; [done|].
           by apply wf_upgraded_state.
      * rewrite (OnExtensionLoaded_stale_run s old e allow) by done.
        left. eexists. split; [done|]. done.
    + apply lookup_none_iff in Hl as [H1 H2].
      assert (id_ e ∉ id_ <$> registered s) as Hid.
      { unfold registered. rewrite fmap_app, not_elem_of_app.
        rewrite Hlow in *. auto. }
      destruct (OnExtensionLoaded_new_id s e allow) as [evs ->]; try done.
      destruct (stops_at_bookmark_model s e _) eqn:Hstop.
      * apply stops_at_bookmark_model_spec in Hstop as (_ & ? & ?).
        by right.
      * left. eexists. split; [done|]. by apply wf_loaded_state.
  - rewrite OnExtensionLoaded_gate_closed_run by done.
    left. eexists. split; [done|]. done.
Qed.

Lemma OnExtensionLoaded_wf s e allow :
  wf s -> new_object s e -> bookmarks_observable s e ->
  exists s', OnExtensionLoaded e allow s = Ok s' ∧ wf s'.
Proof.
  intros Hwf Hnew Hbook.
  destruct (OnExtensionLoaded_outcome s e allow Hwf Hnew)
    as [?|(_ & Hperm & Hnone)]; [done|].
  destruct (Hbook Hperm) as [p Hp]. congruence.
Qed.

Lemma OnExtensionLoaded_keeps_wf s e allow s' :
  wf s -> new_object s e -> OnExtensionLoaded e allow s = Ok s' -> wf s'.
Proof.
  intros Hwf Hnew Hrun.
  destruct (OnExtensionLoaded_outcome s e allow Hwf Hnew)
    as [(s1 & H1 & Hwf1)|(Hstop & _)]; congruence.
Qed.


(** ** Installing *)

Definition theme_mismatch (s : ExtensionsService) (e : Extension) : Prop :=
  exists pending,
    pending_extensions_ s !! id_ e = Some pending
    ∧ is_theme pending ≠ is_theme_ e.

(** The state in which [OnExtensionInstalled] calls [OnExtensionLoaded]. *)
Definition installed_prefs_state (e : Extension) (s : ExtensionsService)
  : ExtensionsService :=
  add_events
    [Notify (if is_theme_ e then THEME_INSTALLED else EXTENSION_INSTALLED)
       (DetailsExtension e)]
    (with_extension_prefs (fun p => Prefs_OnExtensionInstalled p e) s).

(** The pending entry that was found before the load, if any, is erased
    after it. *)
Definition pending_cleared (s : ExtensionsService) (e : Extension)
    (s1 : ExtensionsService) : ExtensionsService :=
  if bool_decide (is_Some (pending_extensions_ s !! id_ e))
  then with_pending_extensions (delete (id_ e)) s1
  else s1.

Lemma OnExtensionInstalled_proceeds s e allow s1 :
  ¬ theme_mismatch s e ->
  OnExtensionLoaded e allow (installed_prefs_state e s) = Ok s1 ->
  OnExtensionInstalled e allow s = Ok (pending_cleared s e s1).
Proof.
  intros Hok Hload. unfold OnExtensionInstalled, pending_cleared. cbv zeta.
  assert ((modify (with_extension_prefs
                     (fun p => Prefs_OnExtensionInstalled p e)) >>
           emit (Notify (if is_theme_ e
                         then THEME_INSTALLED else EXTENSION_INSTALLED)
                   (DetailsExtension e)) >>
           OnExtensionLoaded e allow >>
           when (bool_decide (is_Some (pending_extensions_ s !! id_ e)))
             (modify (with_pending_extensions (delete (id_ e))))) s
          = Ok (if bool_decide (is_Some (pending_extensions_ s !! id_ e))
                then with_pending_extensions (delete (id_ e)) s1 else s1))
    as Hrun.
  { do 2 run_step.
    change (add_events _ _) with (installed_prefs_state e s).
    rewrite (seq_Ok _ _ _ _ Hload).
    by destruct (bool_decide (is_Some (pending_extensions_ s !! id_ e))). }
  destruct (pending_extensions_ s !! id_ e) as [pending|] eqn:Hp; [|done].
  destruct (Bool.eqb (is_theme pending) (is_theme_ e)) eqn:E; [done|].
  destruct Hok. exists pending. split; [done|].
  intros Heq. rewrite Heq, Bool.eqb_reflx in E. done.
Qed.

Lemma OnExtensionInstalled_rejected s e allow pending :
  pending_extensions_ s !! id_ e = Some pending ->
  is_theme pending ≠ is_theme_ e ->
  exists msg,
    OnExtensionInstalled e allow s
    = Ok (add_events
            [Log WARNING msg;
             PostTask FILE (DeleteFileHelper (path_ e) true)] s).
Proof.
  intros Hpending Hne. unfold OnExtensionInstalled. rewrite Hpending.
  assert (Bool.eqb (is_theme pending) (is_theme_ e) = false) as ->.
  { by destruct (is_theme pending), (is_theme_ e). }
  simpl. eexists. run_step. unfold emit, modify. f_equal.
  apply state_eq; simpl; try done. by rewrite <- app_assoc.
Qed.

Lemma theme_mismatch_dec s e : theme_mismatch s e \/ ¬ theme_mismatch s e.
Proof.
  unfold theme_mismatch.
  destruct (pending_extensions_ s !! id_ e) as [pending|] eqn:Hp.
  - destruct (decide (is_theme pending = is_theme_ e)) as [Heq|Hne].
    + right. intros (p & [= <-] & Hne). done.
    + left. by exists pending.
  - right. by intros (p & [=] & _).
Qed.

Lemma wf_pending_cleared s e s1 : wf s1 -> wf (pending_cleared s e s1).
Proof. unfold pending_cleared. by destruct (bool_decide _). Qed.

Lemma OnExtensionInstalled_stops s e allow why :
  ¬ theme_mismatch s e ->
  OnExtensionLoaded e allow (installed_prefs_state e s) = Fatal why ->
  OnExtensionInstalled e allow s = Fatal why.
Proof.
  intros Hok Hload. unfold OnExtensionInstalled. cbv zeta.
  assert ((modify (with_extension_prefs
                     (fun p => Prefs_OnExtensionInstalled p e)) >>
           emit (Notify (if is_theme_ e
                         then THEME_INSTALLED else EXTENSION_INSTALLED)
                   (DetailsExtension e)) >>
           OnExtensionLoaded e allow >>
           when (bool_decide (is_Some (pending_extensions_ s !! id_ e)))
             (modify (with_pending_extensions (delete (id_ e))))) s
          = Fatal why) as Hrun.
  { do 2 run_step.
    change (add_events _ _) with (installed_prefs_state e s).
    by rewrite (seq_Fatal _ _ _ _ Hload). }
  destruct (pending_extensions_ s !! id_ e) as [pending|] eqn:Hp; [|done].
  destruct (Bool.eqb (is_theme pending) (is_theme_ e)) eqn:E; [done|].
  destruct Hok. exists pending. split; [done|].
  intros Heq. rewrite Heq, Bool.eqb_reflx in E. done.
Qed.

Lemma OnExtensionInstalled_outcome s e allow :
  wf s -> new_object s e ->
  (exists s', OnExtensionInstalled e allow s = Ok s' ∧ wf s')
  ∨ (OnExtensionInstalled e allow s
     = Fatal (Undefined "profile_->GetBookmarkModel()")
     ∧ HasApiPermission e kBookmarkPermission = true
     ∧ profile_ s = None).
Proof.
  intros Hwf Hnew.
  destruct (theme_mismatch_dec s e) as [(pending & Hp & Hne)|Hok].
  - destruct (OnExtensionInstalled_rejected s e allow pending Hp Hne)
      as [msg ->].
    left. by eexists.
  - destruct (OnExtensionLoaded_outcome (installed_prefs_state e s) e allow)
      as [(s1 & Hload & Hwf1)|(Hstop & Hperm & Hnone)]; [done|done| |].
    + rewrite (OnExtensionInstalled_proceeds s e allow s1 Hok Hload).
      left. eexists. split; [done|]. by apply wf_pending_cleared.
    + right. split; [|done]. by apply OnExtensionInstalled_stops.
Qed.

Lemma OnExtensionInstalled_wf s e allow :
  wf s -> new_object s e -> bookmarks_observable s e ->
  exists s', OnExtensionInstalled e allow s = Ok s' ∧ wf s'.
Proof.
  intros Hwf Hnew Hbook.
  destruct (OnExtensionInstalled_outcome s e allow Hwf Hnew)
    as [?|(_ & Hperm & Hnone)]; [done|].
  destruct (Hbook Hperm) as [p Hp]. congruence.
Qed.

Lemma OnExtensionInstalled_keeps_wf s e allow s' :
  wf s -> new_object s e -> OnExtensionInstalled e allow s = Ok s' -> wf s'.
Proof.
  intros Hwf Hnew Hrun.
  destruct (OnExtensionInstalled_outcome s e allow Hwf Hnew)
    as [(s1 & H1 & Hwf1)|(Hstop & _)]; congruence.
Qed.

(** ** Uninstalling *)

Lemma lookup_Some_registered s id e :
  GetExtensionByIdInternal s id true true = Some e ->
  e ∈ registered s ∧ StringToLowerASCII id = id_ e.
Proof.
  unfold GetExtensionByIdInternal. intros Hl.
  destruct (find_id _ (extensions_ s)) eqn:E.
  - injection Hl as ->. apply find_id_Some in E as [? ?].
    split; [apply elem_of_app; by left|done].
  - apply find_id_Some in Hl as [? ?].
    split; [apply elem_of_app; by right|done].
Qed.

Lemma UnloadExtension_wf s id s' :
  wf s -> UnloadExtension id s = Ok s' -> wf s'.
Proof.
  intros Hwf Hrun.
  destruct (GetExtensionByIdInternal s id true true) as [e|] eqn:Hl.
  - apply lookup_Some_registered in Hl as [He Hid].
    destruct (UnloadExtension_registered s id e Hwf He Hid) as [evs Heq].
    rewrite Heq in Hrun. injection Hrun as <-.
    by apply (wf_unloaded_state e s).
  - unfold UnloadExtension in Hrun. by rewrite Hl in Hrun.
Qed.

Lemma UninstallExtension_wf s id external s' :
  wf s -> UninstallExtension id external s = Ok s' -> wf s'.
Proof.
  intros Hwf Hrun. unfold UninstallExtension in Hrun.
  destruct (GetExtensionByIdInternal s id true true) as [e|] eqn:Hl; [|done].
  apply lookup_Some_registered in Hl as [He Hid].
  destruct (UnloadExtension_registered s id e Hwf He Hid) as [evs Heq].
  cbv zeta in Hrun. rewrite (seq_Ok _ _ _ _ Heq) in Hrun.
  revert Hrun. run_step.
  destruct (negb (bool_decide (LOAD = location_ e)));
    simpl; intros [= <-]; by apply (wf_unloaded_state e s).
Qed.


Lemma lookup_disabled_Some s id e :
  GetExtensionByIdInternal s id false true = Some e ->
  e ∈ disabled_extensions_ s ∧ StringToLowerASCII id = id_ e.
Proof.
  unfold GetExtensionByIdInternal. intros H.
  by apply find_id_Some in H as [? ?].
Qed.

Lemma lookup_enabled_Some s id e :
  GetExtensionByIdInternal s id true false = Some e ->
  e ∈ extensions_ s ∧ StringToLowerASCII id = id_ e.
Proof.
  unfold GetExtensionByIdInternal.
  destruct (find_id _ (extensions_ s)) eqn:E; [|done].
  intros [= ->]. by apply find_id_Some in E as [? ?].
Qed.

Lemma EnableExtension_wf s id s' :
  wf s -> EnableExtension id s = Ok s' -> wf s'.
Proof.
  intros Hwf Hrun.
  destruct (GetExtensionByIdInternal s id false true) as [e|] eqn:Hl.
  - apply lookup_disabled_Some in Hl as [He Hid].
    destruct (EnableExtension_disabled s id e Hwf He Hid) as [evs Heq].
    rewrite Heq in Hrun. injection Hrun as <-.
    by apply (wf_enabled_state e s).
  - unfold EnableExtension in Hrun. rewrite Hl in Hrun.
    by injection Hrun as <-.
Qed.

Lemma DisableExtension_wf s id s' :
  wf s -> DisableExtension id s = Ok s' -> wf s'.
Proof.
  intros Hwf Hrun.
  destruct (GetExtensionByIdInternal s id true false) as [e|] eqn:Hl.
  - apply lookup_enabled_Some in Hl as [He Hid].
    destruct (DisableExtension_enabled s id e Hwf He Hid) as [evs Heq].
    rewrite Heq in Hrun. injection Hrun as <-.
    by apply (wf_disabled_state e s).
  - unfold DisableExtension in Hrun. rewrite Hl in Hrun.
    by injection Hrun as <-.
Qed.

(** ** The blacklist *)

Lemma elem_of_blacklist_set_of blacklist id :
  id ∈ blacklist_set_of blacklist <-> id ∈ blacklist ∧ IdIsValid id = true.
Proof.
  unfold blacklist_set_of.
  assert (forall (acc : gset string),
            id ∈ foldl (fun set id => if IdIsValid id then {[ id ]} ∪ set
                                      else set) acc blacklist
            <-> id ∈ acc \/ (id ∈ blacklist ∧ IdIsValid id = true)) as H.
  { induction blacklist as [|x l IH]; intros acc; simpl.
    - rewrite elem_of_nil. pure_tauto.
    - rewrite IH, elem_of_cons. destruct (IdIsValid x) eqn:E.
      + rewrite elem_of_union, elem_of_singleton.
        split; [intros [[->|?]|[? ?]]|intros [?|[[->|?] ?]]]; auto.
      + split; [intros [?|[? ?]]|intros [?|[[->|?] ?]]]; auto.
        congruence. }
  rewrite H, elem_of_empty. pure_tauto.
Qed.

Lemma to_be_removed_of_filter (set : gset string) l :
  to_be_removed_of set l = id_ <$> filter (fun e => id_ e ∈ set) l.
Proof.
  unfold to_be_removed_of.
  assert (forall acc,
            foldl (fun acc e => if bool_decide (id_ e ∈ set)
                                then acc ++ [id_ e] else acc) acc l
            = acc ++ (id_ <$> filter (fun e => id_ e ∈ set) l)) as H.
  { induction l as [|x l IH]; intros acc; simpl.
    - by rewrite app_nil_r.
    - rewrite IH, filter_cons. destruct (decide (id_ x ∈ set)).
      + rewrite bool_decide_eq_true_2 by done. simpl.
        by rewrite <- app_assoc.
      + by rewrite bool_decide_eq_false_2 by done. }
  by rewrite H.
Qed.

Lemma filter_ext_in (P Q : Extension -> Prop)
    `{!forall e, Decision (P e)} `{!forall e, Decision (Q e)}
    (l : list Extension) :
  (forall x, x ∈ l -> (P x <-> Q x)) -> filter P l = filter Q l.
Proof.
  induction l as [|x l IH]; intros Hext; [done|].
  rewrite !filter_cons.
  assert (filter P l = filter Q l) as ->
      by (apply IH; intros; apply Hext; by right).
  pose proof (Hext x (list_elem_of_here x l)) as Hx.
  destruct (decide (P x)), (decide (Q x)); try done; pure_tauto.
Qed.

Lemma filter_all (P : Extension -> Prop) `{!forall e, Decision (P e)}
    (l : list Extension) :
  (forall x, P x) -> filter P l = l.
Proof.
  intros HP. induction l as [|x l IH]; [done|].
  by rewrite filter_cons_True, IH.
Qed.

Lemma for_each_UnloadExtension rs :
  forall s,
    wf s ->
    (forall r, r ∈ rs -> r ∈ extensions_ s) ->
    NoDup (id_ <$> rs) ->
    exists s',
      for_each UnloadExtension (id_ <$> rs) s = Ok s'
      ∧ wf s'
      ∧ extensions_ s'
        = filter (fun e => id_ e ∉ id_ <$> rs) (extensions_ s)
      ∧ disabled_extensions_ s' = disabled_extensions_ s
      ∧ extension_prefs_ s' = extension_prefs_ s
      ∧ pending_extensions_ s' = pending_extensions_ s
      ∧ (forall r, r ∈ rs ->
           unloaded_extension_paths_ s' !! id_ r = Some (path_ r))
      ∧ (forall i, i ∉ id_ <$> rs ->
           unloaded_extension_paths_ s' !! i
           = unloaded_extension_paths_ s !! i).
Proof.
  induction rs as [|r rs IH]; intros s Hwf Hin Hnd.
  - exists s. simpl. split; [done|]. split; [done|].
    split; [symmetry; apply filter_all; intros x; apply not_elem_of_nil|].
    repeat split; try done. intros r Hr. by apply elem_of_nil in Hr.
  - simpl in Hnd. apply NoDup_cons in Hnd as [Hr Hnd].
    assert (r ∈ extensions_ s) as Hrin by (apply Hin; left).
    assert (r ∈ registered s) as Hrreg by (apply elem_of_app; by left).
    destruct (UnloadExtension_registered s (id_ r) r Hwf Hrreg
                (wf_lowercase s r Hwf Hrreg)) as [evs H1].
    destruct (IH (add_events evs (unloaded_state r s)))
      as (s' & Hrun & Hwf' & Hext & Hdis & Hprefs & Hpend & Hp1 & Hp2);
      [by apply (wf_unloaded_state r s)| |done|].
    { intros r' Hr'. simpl. apply list_elem_of_filter. split.
      - intros Heq. apply Hr. rewrite <- Heq. by apply list_elem_of_fmap_2.
      - apply Hin. by right. }
    exists s'. simpl. rewrite (seq_Ok _ _ _ _ H1).
    split; [done|]. split; [done|]. simpl in *.
    split; [|split; [|split; [done|split; [done|split]]]].
    + rewrite Hext. unfold without. rewrite list_filter_filter.
      apply list_filter_iff. intros x. rewrite not_elem_of_cons. pure_tauto.
    + rewrite Hdis. apply without_notin.
      by apply (wf_enabled_not_disabled s r).
    + intros r0 Hr0. apply elem_of_cons in Hr0 as [->|Hr0]; [|by apply Hp1].
      rewrite Hp2 by done. by rewrite lookup_insert_eq.
    + intros i Hi. apply not_elem_of_cons in Hi as [Hne Hi].
      rewrite Hp2 by done. by rewrite lookup_insert_ne.
Qed.


Lemma UpdateExtensionBlacklist_run s blacklist :
  wf s ->
  exists s',
    UpdateExtensionBlacklist blacklist s = Ok s'
    ∧ wf s'
    ∧ extension_prefs_ s'
      = UpdateBlacklist (extension_prefs_ s) (blacklist_set_of blacklist)
    ∧ extensions_ s'
      = filter (fun e => id_ e ∉ blacklist_set_of blacklist) (extensions_ s)
    ∧ disabled_extensions_ s' = disabled_extensions_ s
    ∧ pending_extensions_ s' = pending_extensions_ s
    ∧ (forall e, e ∈ extensions_ s -> id_ e ∈ blacklist_set_of blacklist ->
         unloaded_extension_paths_ s' !! id_ e = Some (path_ e)).
Proof.
  intros Hwf. unfold UpdateExtensionBlacklist. cbv zeta. run_step.
  set (set := blacklist_set_of blacklist).
  set (s0 := with_extension_prefs _ s).
  rewrite to_be_removed_of_filter.
  set (rs := filter (fun e => id_ e ∈ set) (extensions_ s0)).
  destruct (wf_parts s Hwf) as (_ & _ & Hi1 & _).
  destruct (for_each_UnloadExtension rs s0)
    as (s' & Hrun & Hwf' & Hext & Hdis & Hprefs & Hpend & Hp1 & _).
  - done.
  - intros r Hr. by apply list_elem_of_filter in Hr as [_ ?].
  - eapply sublist_NoDup; [exact Hi1|].
    apply fmap_sublist, sublist_filter.
  - exists s'. split; [done|]. split; [done|]. split; [done|].
    split; [|split; [done|split; [done|]]].
    + rewrite Hext. apply filter_ext_in. intros x Hx. split.
      * intros Hn Hin. apply Hn. apply list_elem_of_fmap_2.
        by apply list_elem_of_filter.
      * intros Hn Hin. apply list_elem_of_fmap in Hin as (y & Hy & Hyin).
        apply list_elem_of_filter in Hyin as [Hyset _]. by rewrite Hy in Hn.
    + intros e He Hin. apply Hp1. by apply list_elem_of_filter.
Qed.

(** C2, as the code has it: in a registry that satisfies the invariant
    [wf], UpdateExtensionBlacklist persists the set of the
    valid identifiers of the given list and unloads every extension of the
    Enabled list whose identifier is in that set; the other enabled
    extensions stay, in order, and the Disabled list is not scanned: it is
    left as it was, blacklisted identifiers included. *)
Theorem UpdateExtensionBlacklist_unloads_enabled s blacklist :
  wf s ->
  let blacklist_set := blacklist_set_of blacklist in
  exists s',
    UpdateExtensionBlacklist blacklist s = Ok s'
    ∧ (forall id, id ∈ blacklist_set <-> id ∈ blacklist ∧ IdIsValid id = true)
    ∧ pref_blacklist (extension_prefs_ s') = blacklist_set
    ∧ extensions_ s'
      = filter (fun e => id_ e ∉ blacklist_set) (extensions_ s)
    ∧ disabled_extensions_ s' = disabled_extensions_ s
    ∧ (forall e, e ∈ extensions_ s -> id_ e ∈ blacklist_set ->
         (id_ e ∉ id_ <$> registered s')
         ∧ unloaded_extension_paths_ s' !! id_ e = Some (path_ e)).
Proof.
  intros Hwf blacklist_set.
  destruct (UpdateExtensionBlacklist_run s blacklist Hwf)
    as (s' & Hrun & _ & Hprefs & Hext & Hdis & _ & Hpaths).
  exists s'. split; [done|].
  split; [apply elem_of_blacklist_set_of|].
  split; [by rewrite Hprefs|]. split; [done|]. split; [done|].
  intros e He Hin. split; [|by apply Hpaths].
  unfold registered. rewrite fmap_app, not_elem_of_app, Hext, Hdis. split.
  - intros Hx. apply list_elem_of_fmap in Hx as (y & Hy & Hyin).
    apply list_elem_of_filter in Hyin as [Hn _]. apply Hn. by rewrite <- Hy.
  - by apply (wf_enabled_not_disabled s e).
Qed.

(** ** Reachable states *)

(** One call of a member function that returns.  A load or an install is
    handed a new object (its address is not that of a registered record)
    whose identifier is lowercase. *)
Inductive step : ExtensionsService -> ExtensionsService -> Prop :=
  | step_enable id s s' :
      EnableExtension id s = Ok s' -> step s s'
  | step_disable id s s' :
      DisableExtension id s = Ok s' -> step s s'
  | step_loaded e allow s s' :
      new_object s e -> OnExtensionLoaded e allow s = Ok s' -> step s s'
  | step_installed e allow s s' :
      new_object s e -> OnExtensionInstalled e allow s = Ok s' -> step s s'
  | step_unload id s s' :
      UnloadExtension id s = Ok s' -> step s s'
  | step_uninstall id external s s' :
      UninstallExtension id external s = Ok s' -> step s s'
  | step_blacklist blacklist s s' :
      UpdateExtensionBlacklist blacklist s = Ok s' -> step s s'
  | step_unload_all s s' :
      UnloadAllExtensions s = Ok s' -> step s s'
  | step_update id path url s s' :
      UpdateExtension id path url s = Ok s' -> step s s'
  | step_add_pending id url v theme silently s s' :
      AddPendingExtension id url v theme silently s = Ok s' -> step s s'
  | step_external_found id v path location s s' :
      OnExternalExtensionFound id v path location s = Ok s' -> step s s'.

(** The states the service can be in: it starts with both lists empty. *)
Inductive reachable : ExtensionsService -> Prop :=
  | reachable_init s :
      extensions_ s = [] -> disabled_extensions_ s = [] -> reachable s
  | reachable_step s s' :
      reachable s -> step s s' -> reachable s'.

(** No identifier is in both lists. *)
Definition enabled_disabled_disjoint (s : ExtensionsService) : Prop :=
  forall id,
    ¬ (id ∈ id_ <$> extensions_ s ∧ id ∈ id_ <$> disabled_extensions_ s).

Lemma wf_disjoint s : wf s -> enabled_disabled_disjoint s.
Proof.
  intros Hwf id [H1 H2]. apply list_elem_of_fmap in H1 as (e & -> & He).
  by apply (wf_enabled_not_disabled s e).
Qed.

Lemma same_lists_wf s s' :
  extensions_ s' = extensions_ s ->
  disabled_extensions_ s' = disabled_extensions_ s ->
  wf s -> wf s'.
Proof. unfold wf, registered. by intros -> ->. Qed.

Lemma step_wf s s' : wf s -> step s s' -> wf s'.
Proof.
  intros Hwf Hstep. destruct Hstep as
    [id s s' H|id s s' H|e allow s s' Hnew H|e allow s s' Hnew H
    |id s s' H|id ext s s' H|bl s s' H|s s' H|id path url s s' H
    |id url v theme silently s s' H|id v path location s s' H].
  - by apply (EnableExtension_wf s id).
  - by apply (DisableExtension_wf s id).
  - by apply (OnExtensionLoaded_keeps_wf s e allow).
  - by apply (OnExtensionInstalled_keeps_wf s e allow).
  - by apply (UnloadExtension_wf s id).
  - by apply (UninstallExtension_wf s id ext).
  - destruct (UpdateExtensionBlacklist_run s bl Hwf) as (s1 & H1 & Hwf1 & _).
    congruence.
  - injection H as <-. destruct Hwf as (Hp & Hi & Hl).
    unfold wf, wf_list, registered in *. simpl.
    rewrite !fmap_app in *. apply NoDup_app in Hp as (_ & _ & Hp).
    apply NoDup_app in Hi as (_ & _ & Hi).
    apply Forall_app in Hl as [_ Hl]. done.
  - revert H. unfold UpdateExtension.
    destruct (_ && _); [|destruct (pending_extensions_ s !! id)];
      intros [= <-]; done.
  - revert H. unfold AddPendingExtension.
    destruct (GetExtensionByIdInternal s id true true);
      intros [= <-]; done.
  - revert H. unfold OnExternalExtensionFound.
    destruct (GetExtensionById s id true); [|by intros [= <-]].
    destruct (GetVersionFromString v); [|done].
    destruct (CompareTo _ _) as [|[]|[]]; by intros [= <-].
Qed.

Lemma reachable_wf s : reachable s -> wf s.
Proof.
  induction 1 as [s H1 H2|s s' _ IH Hstep].
  - unfold wf, registered. rewrite H1, H2. apply wf_list_nil.
  - by apply (step_wf s).
Qed.

(** C7: in every state the service can reach, no identifier is in both the
    Enabled and the Disabled list, and every member function that changes
    the lists (enable, disable, load, install, unload, uninstall, blacklist
    update and the others) leads from such a state to one where this holds
    again. *)
Theorem reachable_enabled_disabled_disjoint s :
  reachable s ->
  enabled_disabled_disjoint s
  ∧ (forall s', step s s' -> enabled_disabled_disjoint s').
Proof.
  intros Hreach. split.
  - by apply wf_disjoint, reachable_wf.
  - intros s' Hstep. apply wf_disjoint, (step_wf s); [|done].
    by apply reachable_wf.
Qed.


(** ** Upgrade arbitration *)

(** The registered records of one identifier. *)
Definition records_of (id : string) (s : ExtensionsService)
  : list Extension :=
  filter (fun e => id_ e = id) (registered s).

Lemma filter_id_without id l :
  filter (fun e => id_ e = id) (without id l) = [].
Proof.
  unfold without. induction l as [|x l IH]; [done|].
  rewrite filter_cons. destruct (decide (id_ x ≠ id)); [|done].
  by rewrite filter_cons_False.
Qed.

Lemma records_of_placed st old e s0 :
  id_ e = id_ old ->
  st ≠ KILLBIT ->
  records_of (id_ e) (placed_state st e (unloaded_state old s0)) = [e].
Proof.
  intros Hid Hst. unfold records_of, registered.
  destruct st; [|  |done]; simpl; rewrite !filter_app, <- Hid,
    !filter_id_without; simpl; by rewrite filter_cons_True.
Qed.

Lemma not_registered_upgraded s old e b :
  wf s -> old ∈ registered s -> ptr_ e ∉ ptr_ <$> registered s ->
  old ∉ registered (upgraded_state old e b s).
Proof.
  intros Hwf Hold Hfresh.
  assert (forall st s1,
            registered s1 = without (id_ old) (registered s) ->
            old ∉ registered (placed_state st (set_being_upgraded false e) s1))
    as Hplaced.
  { intros st s1 Hreg Hin.
    assert (old ∈ registered s1 \/ old = set_being_upgraded false e) as [H|H].
    { unfold registered in *. destruct st; simpl in Hin; [|  |by left].
      - rewrite !elem_of_app, list_elem_of_singleton in Hin.
        rewrite elem_of_app. pure_tauto.
      - rewrite !elem_of_app, list_elem_of_singleton in Hin.
        rewrite elem_of_app. pure_tauto. }
    - rewrite Hreg in H. apply list_elem_of_filter in H as [Hne _]. done.
    - apply Hfresh. replace (ptr_ e) with (ptr_ old) by by rewrite H.
      by apply list_elem_of_fmap_2. }
  unfold upgraded_state. cbv zeta.
  destruct b; apply Hplaced; unfold registered; simpl;
    by rewrite without_app.
Qed.



(** ** Unload, then reload *)

(** The preferences hold no manifest for the identifier. *)
Definition no_persisted_manifest (s : ExtensionsService) (id : string)
  : Prop :=
  forall info,
    GetInstalledExtensionInfo (extension_prefs_ s) id = Some info ->
    extension_manifest info = None.

Lemma ReloadExtension_not_loaded s id (path : FilePath) :
  StringToLowerASCII id ∉ id_ <$> extensions_ s ->
  unloaded_extension_paths_ s !! id = Some path ->
  path ≠ "" ->
  no_persisted_manifest s id ->
  ReloadExtension id s
  = Ok (add_events [PostTask FILE (Backend_LoadSingleExtension path)] s).
Proof.
  intros Hnot Hpath Hne Hprefs. unfold ReloadExtension, GetExtensionById.
  assert (GetExtensionByIdInternal s id true false = None) as ->
      by (apply lookup_none_iff; done).
  rewrite Hpath. unfold reload_from.
  assert (bool_decide (path = "") = false) as Hb
      by by apply bool_decide_eq_false_2.
  destruct (GetInstalledExtensionInfo (extension_prefs_ s) id)
    as [info|] eqn:Hinfo.
  - rewrite (Hprefs info Hinfo), Hb. done.
  - by rewrite Hb.
Qed.

Lemma load_gate_LOAD s e : load_gate s (set_location LOAD e) = true.
Proof.
  unfold load_gate. simpl.
  by destruct (extensions_enabled_ s), (is_theme_ e).
Qed.

Lemma records_of_loaded s e :
  id_ e ∉ id_ <$> registered s ->
  GetExtensionState (extension_prefs_ s) (id_ e) ≠ KILLBIT ->
  records_of (id_ e) (loaded_state e s) = [set_being_upgraded false e].
Proof.
  intros Hid Hst. unfold records_of, loaded_state, registered in *.
  assert (forall l, id_ e ∉ id_ <$> l ->
            filter (fun x => id_ x = id_ e) l = []) as Hnone.
  { intros l Hl. rewrite <- (without_notin (id_ e) l) by done.
    apply filter_id_without. }
  rewrite fmap_app, not_elem_of_app in Hid. destruct Hid as [H1 H2].
  destruct (GetExtensionState (extension_prefs_ s) (id_ e)); [| |done];
    simpl; rewrite !filter_app;
    rewrite ?(Hnone (extensions_ s)), ?(Hnone (disabled_extensions_ s))
      by done;
    rewrite ?app_nil_r; simpl; by rewrite filter_cons_True.
Qed.



(** * More of the service *)

(** ** What was announced *)

(** The notifications among the events of a trace, in order. *)
Fixpoint notifications (t : list Event) : list (NotificationType * Details) :=
  match t with
  | [] => []
  | Notify type details :: t' => (type, details) :: notifications t'
  | _ :: t' => notifications t'
  end.

Lemma notifications_app t1 t2 :
  notifications (t1 ++ t2) = notifications t1 ++ notifications t2.
Proof.
  induction t1 as [|ev t1 IH]; simpl; [done|].
  destruct ev; simpl; by rewrite ?IH.
Qed.

(** The events of [NotifyExtensionLoaded], which depend on the profile. *)
Definition loaded_events (s : ExtensionsService) (e : Extension)
  : list Event :=
  Log INFO "Sending EXTENSION_LOADED"
  :: match profile_ s with
     | Some profile =>
         if negb (IsOffTheRecord profile) then
           (if GetRequestContext profile
            then [PostTask IO (OnNewExtensions (id_ e) (path_ e)
                                 (default_locale_ e) (api_permissions_ e))]
            else [])
           ++ (if HasApiPermission e kUnlimitedStoragePermission
               then [PostTask FILE (SetOriginQuotaInMemory (url_ e))]
               else [])
         else []
     | None => []
     end
  ++ [Notify EXTENSION_LOADED (DetailsExtension e)].

(** The events of [NotifyExtensionUnloaded]. *)
Definition unloaded_events (s : ExtensionsService) (e : Extension)
  : list Event :=
  [Log INFO "Sending EXTENSION_UNLOADED";
   Notify EXTENSION_UNLOADED (DetailsExtension e)]
  ++ match profile_ s with
     | Some profile =>
         if negb (IsOffTheRecord profile) && GetRequestContext profile
         then [PostTask IO (OnUnloadedExtension (id_ e))]
         else []
     | None => []
     end.

Lemma add_events_eq evs evs' s :
  evs = evs' -> add_events evs s = add_events evs' s.
Proof. by intros ->. Qed.

Lemma NotifyExtensionLoaded_run e s :
  NotifyExtensionLoaded e s = Ok (add_events (loaded_events s e) s).
Proof.
  unfold NotifyExtensionLoaded, loaded_events, seq, emit, modify, when, skip.
  simpl.
  destruct (profile_ s) as [p|]; simpl;
    [destruct (IsOffTheRecord p); simpl;
     [|destruct (GetRequestContext p),
         (HasApiPermission e kUnlimitedStoragePermission); simpl]|];
    f_equal; apply state_eq; simpl; try done; by rewrite <- ?app_assoc.
Qed.

Lemma NotifyExtensionUnloaded_run e s :
  NotifyExtensionUnloaded e s = Ok (add_events (unloaded_events s e) s).
Proof.
  unfold NotifyExtensionUnloaded, unloaded_events, seq, emit, modify, when,
    skip.
  simpl.
  destruct (profile_ s) as [p|]; simpl;
    [destruct (IsOffTheRecord p); simpl;
     [|destruct (GetRequestContext p); simpl]|];
    f_equal; apply state_eq; simpl; try done; by rewrite <- ?app_assoc.
Qed.

Lemma notifications_loaded_events s e :
  notifications (loaded_events s e)
  = [(EXTENSION_LOADED, DetailsExtension e)].
Proof.
  unfold loaded_events. simpl. rewrite notifications_app.
  destruct (profile_ s) as [p|]; [|done].
  destruct (negb (IsOffTheRecord p)); [|done].
  by destruct (GetRequestContext p),
       (HasApiPermission e kUnlimitedStoragePermission).
Qed.

Lemma notifications_unloaded_events s e :
  notifications (unloaded_events s e)
  = [(EXTENSION_UNLOADED, DetailsExtension e)].
Proof.
  unfold unloaded_events. simpl.
  destruct (profile_ s) as [p|]; [|done].
  by destruct (negb (IsOffTheRecord p) && GetRequestContext p).
Qed.


(** ** Enable, disable and unload in full *)

Lemma GetExtensionState_SetExtensionState p e st :
  GetExtensionState (SetExtensionState p e st) (id_ e) = st.
Proof. unfold GetExtensionState. simpl. by rewrite lookup_insert_eq. Qed.

Lemma lookup_as_registered s e id (enabled disabled : bool) :
  wf s -> e ∈ registered s -> StringToLowerASCII id = id_ e ->
  GetExtensionByIdInternal s id enabled disabled
  = GetExtensionByIdInternal s (id_ e) enabled disabled.
Proof.
  intros Hwf He Hid. unfold GetExtensionByIdInternal.
  by rewrite Hid, (wf_lowercase s e Hwf He).
Qed.

Lemma UnloadExtension_enabled_run s id e :
  wf s -> e ∈ extensions_ s -> StringToLowerASCII id = id_ e ->
  UnloadExtension id s
  = Ok (add_events
          (UnregisterChromeURLOverrides (chrome_url_overrides_ e)
           :: unloaded_events s e
           ++ [SetActiveExtensions
                 (active_extension_ids (without (id_ e) (extensions_ s)))])
          (unloaded_state e s)).
Proof.
  intros Hwf Hin Hid.
  assert (e ∈ registered s) as Hreg by (apply elem_of_app; by left).
  destruct (wf_parts s Hwf) as (Hp1 & Hp2 & Hi1 & Hi2 & Hpd & Hid1 & Hid2).
  unfold UnloadExtension.
  rewrite (lookup_as_registered s e id true true Hwf Hreg Hid),
    (lookup_registered s e Hwf Hreg).
  do 2 run_step.
  set (s1 := add_events _ _).
  change (disabled_extensions_ s1) with (disabled_extensions_ s).
  rewrite (std_find_notin (disabled_extensions_ s)) by by apply Hpd.
  rewrite Nat.eqb_refl. cbn [negb].
  change (extensions_ s1) with (extensions_ s).
  assert (erase_extensions (std_find (extensions_ s) (ptr_ e)) s1
          = Ok (with_extensions (without (id_ e)) s1)) as Herase
      by by apply (erase_extensions_member s1).
  rewrite (seq_Ok _ _ _ _ Herase).
  rewrite (seq_Ok _ _ _ _ (NotifyExtensionUnloaded_run e _)).
  unfold UpdateActiveExtensionsInCrashReporter, emit, modify.
  f_equal. apply state_eq; simpl; try done.
  - symmetry. apply without_notin. by apply Hid1.
  - unfold unloaded_events. simpl. by rewrite <- !app_assoc.
Qed.

Lemma UnloadExtension_disabled_run s id e :
  wf s -> e ∈ disabled_extensions_ s -> StringToLowerASCII id = id_ e ->
  UnloadExtension id s
  = Ok (add_events
          [UnregisterChromeURLOverrides (chrome_url_overrides_ e);
           Notify EXTENSION_UNLOADED_DISABLED (DetailsExtension e)]
          (unloaded_state e s)).
Proof.
  intros Hwf Hin Hid.
  assert (e ∈ registered s) as Hreg by (apply elem_of_app; by right).
  destruct (wf_parts s Hwf) as (Hp1 & Hp2 & Hi1 & Hi2 & Hpd & Hid1 & Hid2).
  unfold UnloadExtension.
  rewrite (lookup_as_registered s e id true true Hwf Hreg Hid),
    (lookup_registered s e Hwf Hreg).
  do 2 run_step.
  set (s1 := add_events _ _).
  change (disabled_extensions_ s1) with (disabled_extensions_ s).
  pose proof (std_find_in _ _ Hin) as Hlt.
  assert ((std_find (disabled_extensions_ s) (ptr_ e)
           =? length (disabled_extensions_ s))%nat = false) as ->
      by (apply Nat.eqb_neq; lia).
  cbn [negb].
  assert (erase_disabled_extensions
            (std_find (disabled_extensions_ s) (ptr_ e)) s1
          = Ok (with_disabled_extensions (without (id_ e)) s1)) as Herase
      by by apply (erase_disabled_extensions_member s1).
  rewrite (seq_Ok _ _ _ _ Herase).
  unfold emit, modify. f_equal. apply state_eq; simpl; try done.
  - symmetry. apply without_notin. by apply Hid2.
  - by rewrite <- !app_assoc.
Qed.

Lemma EnableExtension_run s id e :
  wf s -> e ∈ disabled_extensions_ s -> StringToLowerASCII id = id_ e ->
  EnableExtension id s
  = Ok (add_events
          (RegisterChromeURLOverrides (chrome_url_overrides_ e)
           :: loaded_events s e
           ++ [SetActiveExtensions
                 (active_extension_ids (extensions_ s ++ [e]))])
          (enabled_state e s)).
Proof.
  intros Hwf Hin Hid.
  assert (e ∈ registered s) as Hreg by (apply elem_of_app; by right).
  destruct (wf_parts s Hwf) as (Hp1 & Hp2 & Hi1 & Hi2 & Hpd & Hid1 & Hid2).
  unfold EnableExtension.
  rewrite (lookup_as_registered s e id false true Hwf Hreg Hid),
    (lookup_disabled s e false Hwf Hin).
  do 2 run_step.
  erewrite seq_Ok; [|by apply erase_disabled_extensions_member].
  run_step.
  rewrite (seq_Ok _ _ _ _ (NotifyExtensionLoaded_run e _)).
  unfold UpdateActiveExtensionsInCrashReporter, emit, modify.
  f_equal. apply state_eq; simpl; try done.
  unfold loaded_events. simpl. rewrite <- ?app_assoc. simpl.
  by rewrite <- ?app_assoc.
Qed.

Lemma DisableExtension_run s id e :
  wf s -> e ∈ extensions_ s -> StringToLowerASCII id = id_ e ->
  DisableExtension id s
  = Ok (add_events
          (UnregisterChromeURLOverrides (chrome_url_overrides_ e)
           :: unloaded_events s e
           ++ [SetActiveExtensions
                 (active_extension_ids (without (id_ e) (extensions_ s)))])
          (disabled_state e s)).
Proof.
  intros Hwf Hin Hid.
  assert (e ∈ registered s) as Hreg by (apply elem_of_app; by left).
  destruct (wf_parts s Hwf) as (Hp1 & Hp2 & Hi1 & Hi2 & Hpd & Hid1 & Hid2).
  unfold DisableExtension.
  rewrite (lookup_as_registered s e id true false Hwf Hreg Hid),
    (lookup_enabled s e false Hwf Hin).
  do 2 run_step.
  erewrite seq_Ok; [|by apply erase_extensions_member].
  run_step.
  rewrite (seq_Ok _ _ _ _ (NotifyExtensionUnloaded_run e _)).
  unfold UpdateActiveExtensionsInCrashReporter, emit, modify.
  f_equal. apply state_eq; simpl; try done.
  unfold unloaded_events. simpl. rewrite <- ?app_assoc. simpl.
  by rewrite <- ?app_assoc.
Qed.

(** X1: in a registry that satisfies the invariant [wf], EnableExtension of
    a record of the Disabled list moves it to the end of the Enabled list,
    persists the enabled state, registers its URL overrides and announces
    exactly one thing: the extension was loaded. *)
Theorem EnableExtension_moves_record s id e :
  wf s ->
  e ∈ disabled_extensions_ s ->
  StringToLowerASCII id = id_ e ->
  exists s' evs,
    EnableExtension id s = Ok s'
    ∧ extensions_ s' = extensions_ s ++ [e]
    ∧ disabled_extensions_ s' = without (id_ e) (disabled_extensions_ s)
    ∧ GetExtensionState (extension_prefs_ s') (id_ e) = ENABLED
    ∧ trace_ s' = trace_ s ++ evs
    ∧ RegisterChromeURLOverrides (chrome_url_overrides_ e) ∈ evs
    ∧ notifications evs = [(EXTENSION_LOADED, DetailsExtension e)].
Proof.
  intros Hwf Hin Hid. eexists _, _.
  split; [by apply EnableExtension_run|].
  split; [done|]. split; [done|].
  split; [apply GetExtensionState_SetExtensionState|].
  split; [done|]. split; [left|].
  cbn [notifications].
  by rewrite notifications_app, notifications_loaded_events.
Qed.

(** X2: in a registry that satisfies the invariant [wf], DisableExtension of
    a record of the Enabled list moves it to the end of the Disabled list,
    persists the disabled state, unregisters its URL overrides and announces
    exactly one thing: the extension was unloaded. *)
Theorem DisableExtension_moves_record s id e :
  wf s ->
  e ∈ extensions_ s ->
  StringToLowerASCII id = id_ e ->
  exists s' evs,
    DisableExtension id s = Ok s'
    ∧ extensions_ s' = without (id_ e) (extensions_ s)
    ∧ disabled_extensions_ s' = disabled_extensions_ s ++ [e]
    ∧ GetExtensionState (extension_prefs_ s') (id_ e) = DISABLED
    ∧ trace_ s' = trace_ s ++ evs
    ∧ UnregisterChromeURLOverrides (chrome_url_overrides_ e) ∈ evs
    ∧ notifications evs = [(EXTENSION_UNLOADED, DetailsExtension e)].
Proof.
  intros Hwf Hin Hid. eexists _, _.
  split; [by apply DisableExtension_run|].
  split; [done|]. split; [done|].
  split; [apply GetExtensionState_SetExtensionState|].
  split; [done|]. split; [left|].
  cbn [notifications].
  by rewrite notifications_app, notifications_unloaded_events.
Qed.

(** X3: disabling an enabled record and enabling it again does not restore
    the Enabled list as it was: the record comes back at the end of it.  The
    Disabled list is as before, and the persisted state is enabled. *)
Theorem Disable_then_Enable s e :
  wf s ->
  e ∈ extensions_ s ->
  exists s1 s2,
    DisableExtension (id_ e) s = Ok s1
    ∧ EnableExtension (id_ e) s1 = Ok s2
    ∧ extensions_ s2 = without (id_ e) (extensions_ s) ++ [e]
    ∧ disabled_extensions_ s2 = disabled_extensions_ s
    ∧ GetExtensionState (extension_prefs_ s2) (id_ e) = ENABLED
    ∧ pending_extensions_ s2 = pending_extensions_ s
    ∧ unloaded_extension_paths_ s2 = unloaded_extension_paths_ s.
Proof.
  intros Hwf Hin.
  assert (e ∈ registered s) as Hreg by (apply elem_of_app; by left).
  pose proof (wf_lowercase s e Hwf Hreg) as Hlow.
  pose proof (DisableExtension_run s (id_ e) e Hwf Hin Hlow) as H1.
  set (s1 := add_events _ (disabled_state e s)) in H1.
  assert (wf s1) as Hwf1 by by apply (wf_disabled_state e s).
  assert (e ∈ disabled_extensions_ s1) as Hin1.
  { unfold s1. simpl. apply elem_of_app. right. left. }
  pose proof (EnableExtension_run s1 (id_ e) e Hwf1 Hin1 Hlow) as H2.
  eexists _, _. split; [exact H1|]. split; [exact H2|].
  split; [done|]. split.
  { simpl. rewrite without_app. unfold without at 2.
    rewrite filter_cons_False by (intros H; by apply H).
    rewrite filter_nil, app_nil_r. apply without_notin.
    by apply (wf_enabled_not_disabled s e). }
  split; [apply GetExtensionState_SetExtensionState|]. by split.
Qed.

(** X4: UnloadExtension is not repeatable.  After a registered record was
    unloaded, unloading the same identifier again stops on the CHECK that
    the extension exists. *)
Theorem UnloadExtension_twice_is_fatal s e :
  wf s ->
  e ∈ registered s ->
  exists s1,
    UnloadExtension (id_ e) s = Ok s1
    ∧ UnloadExtension (id_ e) s1 = Fatal (CHECK_failed "extension.get()").
Proof.
  intros Hwf He. pose proof (wf_lowercase s e Hwf He) as Hlow.
  destruct (UnloadExtension_registered s (id_ e) e Hwf He Hlow) as [evs H1].
  eexists. split; [exact H1|].
  unfold UnloadExtension.
  assert (GetExtensionByIdInternal (add_events evs (unloaded_state e s))
            (id_ e) true true = None) as ->; [|done].
  apply lookup_both_none. rewrite Hlow.
  change (id_ e ∉ id_ <$> registered (unloaded_state e s)).
  rewrite registered_unloaded_state. apply id_notin_without.
Qed.


(** ** What stops a call *)

Lemma UninstallExtension_registered s id external e :
  wf s -> e ∈ registered s -> StringToLowerASCII id = id_ e ->
  exists evs,
    UninstallExtension id external s
    = Ok (add_events
            (evs
             ++ (if bool_decide (LOAD = location_ e) then []
                 else [PostTask FILE
                         (UninstallExtensionFiles id (install_directory_ s))])
             ++ [StartDeleting (url_ e)])
            (with_extension_prefs
               (fun p => Prefs_OnExtensionUninstalled p id (location_ e)
                           external)
               (unloaded_state e s)))
    ∧ UnloadExtension id s = Ok (add_events evs (unloaded_state e s)).
Proof.
  intros Hwf He Hid.
  destruct (UnloadExtension_registered s id e Hwf He Hid) as [evs Hun].
  exists evs. split; [|done]. unfold UninstallExtension.
  rewrite (lookup_as_registered s e id true true Hwf He Hid),
    (lookup_registered s e Hwf He).
  cbv zeta. rewrite (seq_Ok _ _ _ _ Hun). run_step.
  unfold ClearExtensionData.
  destruct (bool_decide (LOAD = location_ e)); simpl;
    unfold seq, when, skip, emit, modify; simpl;
    f_equal; apply state_eq; simpl; try done; by rewrite <- ?app_assoc.
Qed.

Lemma add_events_inj evs evs' s :
  Ok (add_events evs s) = Ok (add_events evs' s) -> evs = evs'.
Proof.
  intros H.
  assert (trace_ (add_events evs s) = trace_ (add_events evs' s)) as Ht
      by congruence.
  simpl in Ht. by apply app_inv_head in Ht.
Qed.

(** X5: in a registry that satisfies the invariant [wf], no call of
    EnableExtension, DisableExtension or UpdateExtensionBlacklist stops on a
    failed check, whatever its argument.  OnExtensionLoaded and
    OnExtensionInstalled for a new object return as well, with one
    exception: they stop where the profile is asked for its bookmark model,
    which takes a service without a profile and an object with the bookmark
    permission.  UnloadExtension and UninstallExtension return exactly when
    the identifier is registered. *)
Theorem calls_that_return s :
  wf s ->
  (forall id, exists s', EnableExtension id s = Ok s')
  ∧ (forall id, exists s', DisableExtension id s = Ok s')
  ∧ (forall blacklist, exists s', UpdateExtensionBlacklist blacklist s = Ok s')
  ∧ (forall e allow, new_object s e ->
       (exists s', OnExtensionLoaded e allow s = Ok s')
       ∨ (OnExtensionLoaded e allow s
          = Fatal (Undefined "profile_->GetBookmarkModel()")
          ∧ HasApiPermission e kBookmarkPermission = true
          ∧ profile_ s = None))
  ∧ (forall e allow, new_object s e ->
       (exists s', OnExtensionInstalled e allow s = Ok s')
       ∨ (OnExtensionInstalled e allow s
          = Fatal (Undefined "profile_->GetBookmarkModel()")
          ∧ HasApiPermission e kBookmarkPermission = true
          ∧ profile_ s = None))
  ∧ (forall id,
       (exists s', UnloadExtension id s = Ok s')
       <-> is_Some (GetExtensionByIdInternal s id true true))
  ∧ (forall id external,
       (exists s', UninstallExtension id external s = Ok s')
       <-> is_Some (GetExtensionByIdInternal s id true true)).
Proof.
  intros Hwf.
  split.
  { intros id.
    destruct (GetExtensionByIdInternal s id false true) as [e|] eqn:Hl.
    - apply lookup_disabled_Some in Hl as [He Hid].
      destruct (EnableExtension_disabled s id e Hwf He Hid) as [evs ->].
      by eexists.
    - unfold EnableExtension. rewrite Hl. by eexists. }
  split.
  { intros id.
    destruct (GetExtensionByIdInternal s id true false) as [e|] eqn:Hl.
    - apply lookup_enabled_Some in Hl as [He Hid].
      destruct (DisableExtension_enabled s id e Hwf He Hid) as [evs ->].
      by eexists.
    - unfold DisableExtension. rewrite Hl. by eexists. }
  split.
  { intros blacklist.
    destruct (UpdateExtensionBlacklist_run s blacklist Hwf) as (s' & -> & _).
    by eexists. }
  split.
  { intros e allow Hnew.
    destruct (OnExtensionLoaded_outcome s e allow Hwf Hnew)
      as [(s' & -> & _)|?]; [left; by eexists|by right]. }
  split.
  { intros e allow Hnew.
    destruct (OnExtensionInstalled_outcome s e allow Hwf Hnew)
      as [(s' & -> & _)|?]; [left; by eexists|by right]. }
  split.
  { intros id. split.
    - intros [s' Hrun]. unfold UnloadExtension in Hrun.
      by destruct (GetExtensionByIdInternal s id true true).
    - intros [e Hl]. apply lookup_Some_registered in Hl as [He Hid].
      destruct (UnloadExtension_registered s id e Hwf He Hid) as [evs ->].
      by eexists. }
  intros id external. split.
  - intros [s' Hrun]. unfold UninstallExtension in Hrun.
    by destruct (GetExtensionByIdInternal s id true true).
  - intros [e Hl]. apply lookup_Some_registered in Hl as [He Hid].
    destruct (UninstallExtension_registered s id external e Hwf He Hid)
      as (evs & -> & _).
    by eexists.
Qed.

(** ** Uninstalling, in full *)

(** X6: in a registry that satisfies the invariant [wf], UninstallExtension
    of a registered record unloads it, persists the uninstall under the
    identifier as the caller wrote it, with the record's location and the
    external flag, asks the file thread to delete the installed files unless
    the extension is an unpacked one, and ends by deleting the data of the
    extension's origin. *)
Theorem UninstallExtension_registered_record s id external e :
  wf s ->
  e ∈ registered s ->
  StringToLowerASCII id = id_ e ->
  exists s' evs,
    UninstallExtension id external s = Ok s'
    ∧ extensions_ s' = without (id_ e) (extensions_ s)
    ∧ disabled_extensions_ s' = without (id_ e) (disabled_extensions_ s)
    ∧ unloaded_extension_paths_ s' !! id_ e = Some (path_ e)
    ∧ extension_prefs_ s'
      = Prefs_OnExtensionUninstalled (extension_prefs_ s) id (location_ e)
          external
    ∧ trace_ s' = trace_ s ++ evs
    ∧ (PostTask FILE (UninstallExtensionFiles id (install_directory_ s))
         ∈ evs <-> location_ e ≠ LOAD)
    ∧ last evs = Some (StartDeleting (url_ e))
    ∧ (exists unloaded,
         notifications evs = [(unloaded, DetailsExtension e)]
         ∧ (unloaded = EXTENSION_UNLOADED ∧ e ∈ extensions_ s
            ∨ unloaded = EXTENSION_UNLOADED_DISABLED
              ∧ e ∈ disabled_extensions_ s)).
Proof.
  intros Hwf He Hid.
  destruct (UninstallExtension_registered s id external e Hwf He Hid)
    as (evs & Hrun & Hun).
  eexists _, _. split; [exact Hrun|].
  split; [done|]. split; [done|].
  split; [simpl; by rewrite lookup_insert_eq|].
  split; [done|]. split; [done|].
  assert (exists unloaded,
            notifications evs = [(unloaded, DetailsExtension e)]
            ∧ (unloaded = EXTENSION_UNLOADED ∧ e ∈ extensions_ s
               ∨ unloaded = EXTENSION_UNLOADED_DISABLED
                 ∧ e ∈ disabled_extensions_ s)
            ∧ PostTask FILE
                (UninstallExtensionFiles id (install_directory_ s)) ∉ evs)
    as (unloaded & Hn & Hwhere & Hnotask).
  { apply elem_of_app in He as [He|He].
    - rewrite (UnloadExtension_enabled_run s id e Hwf He Hid) in Hun.
      apply add_events_inj in Hun. subst evs.
      exists EXTENSION_UNLOADED. split; [|split; [by left|]].
      + cbn [notifications].
        by rewrite notifications_app, notifications_unloaded_events.
      + unfold unloaded_events.
        destruct (profile_ s) as [p|]; [destruct (_ && _)|]; simpl;
          rewrite ?elem_of_cons, elem_of_nil; intros H;
          repeat (destruct H as [H|H]; [done|]); done.
    - rewrite (UnloadExtension_disabled_run s id e Hwf He Hid) in Hun.
      apply add_events_inj in Hun. subst evs.
      exists EXTENSION_UNLOADED_DISABLED. split; [done|]. split; [by right|].
      rewrite ?elem_of_cons, elem_of_nil. intros H.
      repeat (destruct H as [H|H]; [done|]). done. }
  split; [|split].
  - rewrite !elem_of_app. destruct (bool_decide_reflect (LOAD = location_ e)).
    + rewrite elem_of_nil, list_elem_of_singleton. split; [|done].
      intros [?|[[]|?]]; done.
    + rewrite !list_elem_of_singleton. split; [by intros _ ?|].
      intros _. right. by left.
  - by rewrite app_assoc, last_snoc.
  - exists unloaded. split; [|done].
    rewrite !notifications_app, Hn.
    by destruct (bool_decide (LOAD = location_ e)).
Qed.


(** ** Loading and installing, in full *)

(** The events of the switch on the persisted state. *)
Definition placed_events (st : State) (s : ExtensionsService)
    (e : Extension) : list Event :=
  match st with
  | ENABLED =>
      (if HasApiPermission e kTabPermission
       then [BrowserEventRouter_Init] else [])
      ++ (if HasApiPermission e kBookmarkPermission
          then [BookmarkEventRouter_Observe] else [])
      ++ loaded_events s e
      ++ [RegisterChromeURLOverrides (chrome_url_overrides_ e)]
  | DISABLED => [Notify EXTENSION_UPDATE_DISABLED (DetailsExtension e)]
  | KILLBIT => [NOTREACHED ""]
  end.

Lemma place_by_persisted_state_events e s :
  place_by_persisted_state e s
  = if stops_at_bookmark_model s e
         (GetExtensionState (extension_prefs_ s) (id_ e))
    then Fatal (Undefined "profile_->GetBookmarkModel()")
    else Ok (add_events
               (placed_events
                  (GetExtensionState (extension_prefs_ s) (id_ e)) s e)
               (placed_state (GetExtensionState (extension_prefs_ s) (id_ e))
                  e s)).
Proof.
  unfold place_by_persisted_state, stops_at_bookmark_model.
  destruct (GetExtensionState (extension_prefs_ s) (id_ e)); simpl.
  - done.
  - run_step. unfold placed_events.
    destruct (HasApiPermission e kTabPermission); unfold when at 1;
      [run_step|rewrite seq_skip];
      (destruct (HasApiPermission e kBookmarkPermission); unfold when;
       [rewrite seq_bookmark_model;
        cbn [profile_ add_events with_trace with_extensions]
       |rewrite seq_skip]);
      destruct (profile_ s) as [p|] eqn:Hp; try done;
      rewrite (seq_Ok _ _ _ _ (NotifyExtensionLoaded_run e _));
      unfold emit, modify; f_equal; apply state_eq; simpl; try done;
      unfold loaded_events; simpl; rewrite ?Hp; simpl;
      rewrite <- ?app_assoc; simpl; by rewrite <- ?app_assoc.
  - done.
Qed.

Lemma notifications_placed_events st s e :
  notifications (placed_events st s e)
  = match st with
    | ENABLED => [(EXTENSION_LOADED, DetailsExtension e)]
    | DISABLED => [(EXTENSION_UPDATE_DISABLED, DetailsExtension e)]
    | KILLBIT => []
    end.
Proof.
  destruct st; [done| |done]. unfold placed_events.
  rewrite !notifications_app, notifications_loaded_events.
  by destruct (HasApiPermission e kTabPermission),
    (HasApiPermission e kBookmarkPermission).
Qed.

Lemma OnExtensionLoaded_new_id_run s e allow :
  new_object s e ->
  id_ e ∉ id_ <$> registered s ->
  load_gate s e = true ->
  OnExtensionLoaded e allow s
  = if stops_at_bookmark_model s e
         (GetExtensionState (extension_prefs_ s) (id_ e))
    then Fatal (Undefined "profile_->GetBookmarkModel()")
    else Ok (add_events
               (placed_events
                  (GetExtensionState (extension_prefs_ s) (id_ e)) s e
                ++ [SetActiveExtensions
                      (active_extension_ids
                         (extensions_ (loaded_state e s)))])
               (loaded_state e s)).
Proof.
  intros [Hfresh Hlow] Hid Hgate.
  unfold registered in Hfresh. rewrite fmap_app, not_elem_of_app in Hfresh.
  destruct Hfresh as [Hf1 Hf2].
  unfold OnExtensionLoaded. run_step. cbv beta zeta.
  set (s0 := with_unloaded_extension_paths _ s).
  assert (load_gate s0 e = true) as -> by done.
  assert (GetExtensionByIdInternal s0 (id_ e) true true = None) as ->.
  { change (GetExtensionByIdInternal s (id_ e) true true = None).
    apply lookup_both_none. by rewrite Hlow. }
  pose proof (place_by_persisted_state_events e s0) as H1.
  change (stops_at_bookmark_model s0 e
            (GetExtensionState (extension_prefs_ s0) (id_ e)))
    with (stops_at_bookmark_model s e
            (GetExtensionState (extension_prefs_ s) (id_ e))) in H1.
  destruct (stops_at_bookmark_model s e _).
  { by rewrite (seq_Fatal _ _ _ _ H1). }
  rewrite (seq_Ok _ _ _ _ H1).
  unfold update_object. run_step.
  unfold UpdateActiveExtensionsInCrashReporter, emit, modify, loaded_state.
  fold s0. change (extension_prefs_ s) with (extension_prefs_ s0).
  change (placed_events ?st s e) with (placed_events st s0 e).
  destruct (GetExtensionState (extension_prefs_ s0) (id_ e));
    f_equal; apply state_eq; simpl; rewrite ?poke_notin by done;
    rewrite ?poke_snoc by done; try done; by rewrite <- app_assoc.
Qed.

(** X25: without a profile, loading an extension that asks for the bookmark
    permission stops the browser.  With the load gate open and no record of
    the identifier registered, OnExtensionLoaded of a new object whose
    persisted state is enabled asks the profile for its bookmark model; the
    service has no profile, so that this dereferences NULL.  The same load
    returns when the extension does not ask for the permission. *)
Theorem OnExtensionLoaded_without_profile s e allow :
  new_object s e ->
  id_ e ∉ id_ <$> registered s ->
  load_gate s e = true ->
  GetExtensionState (extension_prefs_ s) (id_ e) = ENABLED ->
  profile_ s = None ->
  (HasApiPermission e kBookmarkPermission = true ->
   OnExtensionLoaded e allow s
   = Fatal (Undefined "profile_->GetBookmarkModel()"))
  ∧ (HasApiPermission e kBookmarkPermission = false ->
     exists s',
       OnExtensionLoaded e allow s = Ok s'
       ∧ extensions_ s' = extensions_ s ++ [set_being_upgraded false e]).
Proof.
  intros Hnew Hid Hgate Hstate Hprofile.
  rewrite (OnExtensionLoaded_new_id_run s e allow Hnew Hid Hgate).
  unfold stops_at_bookmark_model, loaded_state. rewrite Hstate, Hprofile.
  split; intros ->; [done|]. eexists. split; [done|]. done.
Qed.

Lemma trace_loaded_state e s : trace_ (loaded_state e s) = trace_ s.
Proof.
  unfold loaded_state.
  by destruct (GetExtensionState (extension_prefs_ s) (id_ e)).
Qed.

(** X7: when the load gate is open, no record of the identifier is
    registered and the service has a profile or the new object does not ask
    for the bookmark permission, OnExtensionLoaded puts the new object where
    the persisted state says: at the end of the Enabled list, announced as loaded; or at
    the end of the Disabled list, announced as update-disabled and never as
    loaded; for any other persisted state the object is not registered at
    all, nothing is announced and NOTREACHED is hit. *)
Theorem OnExtensionLoaded_places_by_persisted_state s e allow :
  new_object s e ->
  id_ e ∉ id_ <$> registered s ->
  load_gate s e = true ->
  bookmarks_observable s e ->
  exists s' evs,
    OnExtensionLoaded e allow s = Ok s'
    ∧ trace_ s' = trace_ s ++ evs
    ∧ match GetExtensionState (extension_prefs_ s) (id_ e) with
      | ENABLED =>
          extensions_ s' = extensions_ s ++ [set_being_upgraded false e]
          ∧ disabled_extensions_ s' = disabled_extensions_ s
          ∧ notifications evs = [(EXTENSION_LOADED, DetailsExtension e)]
      | DISABLED =>
          extensions_ s' = extensions_ s
          ∧ disabled_extensions_ s'
            = disabled_extensions_ s ++ [set_being_upgraded false e]
          ∧ notifications evs
            = [(EXTENSION_UPDATE_DISABLED, DetailsExtension e)]
      | KILLBIT =>
          extensions_ s' = extensions_ s
          ∧ disabled_extensions_ s' = disabled_extensions_ s
          ∧ notifications evs = []
          ∧ NOTREACHED "" ∈ evs
      end.
Proof.
  intros Hnew Hid Hgate Hbook. eexists _, _.
  split.
  { rewrite (OnExtensionLoaded_new_id_run s e allow Hnew Hid Hgate).
    by rewrite (bookmarks_observable_no_stop s e _ Hbook). }
  split; [simpl; by rewrite trace_loaded_state|].
  rewrite notifications_app, notifications_placed_events.
  unfold loaded_state.
  destruct (GetExtensionState (extension_prefs_ s) (id_ e)); simpl.
  - done.
  - done.
  - split; [done|]. split; [done|]. split; [done|]. left.
Qed.

(** What [OnExtensionLoaded] leaves alone. *)
Lemma OnExtensionLoaded_frame s e allow s' :
  wf s -> new_object s e ->
  OnExtensionLoaded e allow s = Ok s' ->
  pending_extensions_ s' = pending_extensions_ s
  ∧ pref_installed (extension_prefs_ s') = pref_installed (extension_prefs_ s)
  ∧ orphaned_dev_tools_ s' = orphaned_dev_tools_ s
  ∧ exists evs, trace_ s' = trace_ s ++ evs.
Proof.
  intros Hwf Hnew Hrun. pose proof Hnew as [Hfresh Hlow].
  destruct (load_gate s e) eqn:Hgate.
  - destruct (GetExtensionByIdInternal s (id_ e) true true) as [old|] eqn:Hl.
    + apply lookup_Some_registered in Hl as [Hold Hid]. rewrite Hlow in Hid.
      destruct (Z.gtb_spec (CompareTo (version_ e) (version_ old)) 0).
      * destruct (OnExtensionLoaded_upgrade_run s old e allow)
          as [evs Heq]; try done; [lia|].
        rewrite Heq in Hrun. destruct (_ && _); [done|].
        injection Hrun as <-.
        unfold upgraded_state.
        destruct (allow || negb (IsPrivilegeIncrease old e)); simpl.
        -- destruct (GetExtensionState (extension_prefs_ s) (id_ e));
             simpl; repeat split; by eexists.
        -- repeat split; by eexists.
      * rewrite (OnExtensionLoaded_stale_run s old e allow) in Hrun by done.
        injection Hrun as <-. repeat split; by eexists.
    + apply lookup_none_iff in Hl as [H1 H2].
      assert (id_ e ∉ id_ <$> registered s) as Hid.
      { unfold registered. rewrite fmap_app, not_elem_of_app.
        rewrite Hlow in *. auto. }
      destruct (OnExtensionLoaded_new_id s e allow) as [evs Heq]; try done.
      rewrite Heq in Hrun. destruct (stops_at_bookmark_model _ _ _); [done|].
      injection Hrun as <-. unfold loaded_state.
      destruct (GetExtensionState (extension_prefs_ s) (id_ e));
        simpl; repeat split; by eexists.
  - rewrite OnExtensionLoaded_gate_closed_run in Hrun by done.
    injection Hrun as <-. repeat split; by eexists.
Qed.

(** X8: in a registry that satisfies the invariant [wf], where the service
    has a profile or the object does not ask for the bookmark permission, an
    install of a new object that no pending entry contradicts persists the
    install metadata of the object, announces the install before anything
    else, and leaves no pending entry for the identifier. *)
Theorem OnExtensionInstalled_records_install s e allow :
  wf s ->
  new_object s e ->
  ¬ theme_mismatch s e ->
  bookmarks_observable s e ->
  exists s' evs,
    OnExtensionInstalled e allow s = Ok s'
    ∧ GetInstalledExtensionInfo (extension_prefs_ s') (id_ e)
      = Some (info_of e)
    ∧ pending_extensions_ s' = delete (id_ e) (pending_extensions_ s)
    ∧ trace_ s'
      = trace_ s
        ++ Notify (if is_theme_ e then THEME_INSTALLED
                   else EXTENSION_INSTALLED) (DetailsExtension e)
        :: evs.
Proof.
  intros Hwf Hnew Hok Hbook.
  destruct (OnExtensionLoaded_wf (installed_prefs_state e s) e allow)
    as (s1 & Hload & Hwf1); [done|done|done|].
  destruct (OnExtensionLoaded_frame (installed_prefs_state e s) e allow s1)
    as (Hpend & Hinst & _ & evs & Htrace); [done|done|done|].
  exists (pending_cleared s e s1), evs.
  split; [by apply OnExtensionInstalled_proceeds|].
  unfold pending_cleared.
  destruct (bool_decide_reflect
              (is_Some (pending_extensions_ s !! id_ e))) as [Hs|Hn]; simpl.
  - split; [|split].
    + unfold GetInstalledExtensionInfo. rewrite Hinst. simpl.
      by rewrite lookup_insert_eq.
    + by rewrite Hpend.
    + rewrite Htrace. simpl. by rewrite <- app_assoc.
  - split; [|split].
    + unfold GetInstalledExtensionInfo. rewrite Hinst. simpl.
      by rewrite lookup_insert_eq.
    + rewrite Hpend. simpl. symmetry. apply delete_id.
      by apply eq_None_not_Some.
    + rewrite Htrace. simpl. by rewrite <- app_assoc.
Qed.


(** X9: with the load gate closed (extensions are switched off and the new
    object is neither a theme, nor unpacked, nor external), an install that
    no pending entry contradicts is persisted and announced as an install,
    yet the object is registered in neither list. *)
Theorem OnExtensionInstalled_gate_closed s e allow :
  ptr_ e ∉ ptr_ <$> registered s ->
  ¬ theme_mismatch s e ->
  load_gate s e = false ->
  exists s',
    OnExtensionInstalled e allow s = Ok s'
    ∧ extensions_ s' = extensions_ s
    ∧ disabled_extensions_ s' = disabled_extensions_ s
    ∧ GetInstalledExtensionInfo (extension_prefs_ s') (id_ e)
      = Some (info_of e)
    ∧ trace_ s'
      = trace_ s
        ++ [Notify EXTENSION_INSTALLED (DetailsExtension e);
            SetActiveExtensions (active_extension_ids (extensions_ s))].
Proof.
  intros Hfresh Hok Hgate.
  assert (is_theme_ e = false) as Htheme.
  { unfold load_gate in Hgate. by destruct (extensions_enabled_ s),
      (is_theme_ e). }
  pose proof (OnExtensionLoaded_gate_closed_run
                (installed_prefs_state e s) e allow Hgate Hfresh) as Hload.
  rewrite (OnExtensionInstalled_proceeds s e allow _ Hok Hload).
  eexists. split; [done|]. unfold pending_cleared.
  destruct (bool_decide (is_Some (pending_extensions_ s !! id_ e))); simpl;
    (split; [done|]); (split; [done|]);
    (split; [unfold GetInstalledExtensionInfo; simpl;
             by rewrite lookup_insert_eq|]);
    by rewrite Htheme, <- app_assoc.
Qed.

(** X10: install and uninstall compose to nothing on the lists.  In a
    registry that satisfies the invariant [wf], when a new object of an
    unregistered identifier is installed (gate open, persisted state enabled
    or disabled, and a profile at hand or no bookmark permission asked for)
    and the identifier is uninstalled again, both lists are as they were
    before the install; the uninstall is the last one persisted, and the
    path is remembered as unloaded. *)
Theorem Install_then_Uninstall s e allow external :
  wf s ->
  new_object s e ->
  id_ e ∉ id_ <$> registered s ->
  ¬ theme_mismatch s e ->
  load_gate s e = true ->
  GetExtensionState (extension_prefs_ s) (id_ e) ≠ KILLBIT ->
  bookmarks_observable s e ->
  exists s1 s2,
    OnExtensionInstalled e allow s = Ok s1
    ∧ UninstallExtension (id_ e) external s1 = Ok s2
    ∧ set_being_upgraded false e ∈ registered s1
    ∧ extensions_ s2 = extensions_ s
    ∧ disabled_extensions_ s2 = disabled_extensions_ s
    ∧ last (pref_uninstalled (extension_prefs_ s2))
      = Some (id_ e, location_ e, external)
    ∧ unloaded_extension_paths_ s2 !! id_ e = Some (path_ e).
Proof.
  intros Hwf Hnew Hid Hok Hgate Hstate Hbook.
  pose proof Hnew as [Hfresh Hlow].
  destruct (OnExtensionInstalled_wf s e allow Hwf Hnew Hbook)
    as (s1 & Hrun1 & Hwf1).
  destruct (OnExtensionLoaded_new_id (installed_prefs_state e s) e allow)
    as [evs Hload]; [done|done|done|].
  rewrite (bookmarks_observable_no_stop _ e _) in Hload by done.
  pose proof (OnExtensionInstalled_proceeds s e allow _ Hok Hload) as Hrun.
  rewrite Hrun in Hrun1. injection Hrun1 as Hs1.
  set (e' := set_being_upgraded false e).
  assert (extensions_ s1 = extensions_ s ++ [e']
          ∧ disabled_extensions_ s1 = disabled_extensions_ s
          ∨ extensions_ s1 = extensions_ s
            ∧ disabled_extensions_ s1 = disabled_extensions_ s ++ [e'])
    as Hlists.
  { rewrite <- Hs1. unfold pending_cleared, loaded_state.
    change (extension_prefs_ (installed_prefs_state e s))
      with (Prefs_OnExtensionInstalled (extension_prefs_ s) e).
    change (GetExtensionState
              (Prefs_OnExtensionInstalled (extension_prefs_ s) e) (id_ e))
      with (GetExtensionState (extension_prefs_ s) (id_ e)).
    destruct (bool_decide (is_Some (pending_extensions_ s !! id_ e))),
      (GetExtensionState (extension_prefs_ s) (id_ e));
      simpl; auto; done. }
  assert ((id_ e ∉ id_ <$> extensions_ s)
          ∧ (id_ e ∉ id_ <$> disabled_extensions_ s)) as [Hid1 Hid2].
  { unfold registered in Hid. by rewrite fmap_app, not_elem_of_app in Hid. }
  assert (e' ∈ registered s1) as He'.
  { unfold registered.
    destruct Hlists as [[-> ->]|[-> ->]]; rewrite !elem_of_app;
      rewrite list_elem_of_singleton; auto. }
  destruct (UninstallExtension_registered s1 (id_ e) external e' Hwf1 He' Hlow)
    as (evs2 & Hun & _).
  exists s1. eexists. split; [by rewrite Hrun, Hs1|].
  split; [exact Hun|]. split; [done|].
  assert (without (id_ e) [e'] = []) as Hnil.
  { unfold without. by rewrite filter_cons_False by (intros H; by apply H). }
  split; [|split].
  - simpl. destruct Hlists as [[-> _]|[-> _]];
      rewrite ?without_app, ?Hnil, ?app_nil_r; by apply without_notin.
  - simpl. destruct Hlists as [[_ ->]|[_ ->]];
      rewrite ?without_app, ?Hnil, ?app_nil_r; by apply without_notin.
  - split.
    + simpl. by rewrite last_snoc.
    + simpl. by rewrite lookup_insert_eq.
Qed.


(** ** Pending installs *)

(** X11: after AddPendingExtension for an identifier that is not registered,
    UpdateExtension for that identifier does not delete the downloaded file:
    it starts an installer that expects the identifier, deletes its source
    when done, may not raise privileges, and has an install UI exactly when
    the pending entry is not a silent one. *)
Theorem AddPendingExtension_then_UpdateExtension
    s id update_url version is_theme install_silently extension_path
    download_url :
  GetExtensionByIdInternal s id true true = None ->
  exists s1,
    AddPendingExtension id update_url version is_theme install_silently s
    = Ok s1
    ∧ pending_extensions_ s1 !! id
      = Some {| update_url := update_url; version := version;
                is_theme := is_theme;
                install_silently := install_silently |}
    ∧ UpdateExtension id extension_path download_url s1
      = Ok (add_events
              [InstallCrx
                 {| client := negb install_silently;
                    install_source := None;
                    expected_id := Some id;
                    allow_privilege_increase := false;
                    delete_source := true;
                    force_web_origin_to_download_url := true;
                    original_url := Some download_url |}
                 extension_path] s1).
Proof.
  intros Hl. unfold AddPendingExtension. rewrite Hl. eexists.
  split; [done|]. split; [simpl; by rewrite lookup_insert_eq|].
  unfold UpdateExtension. cbv zeta. simpl.
  rewrite lookup_insert_eq. simpl. done.
Qed.

(** ** Reloading with an inspector open *)

(** The ExtensionHost that comes as the details of a notification. *)
Record ExtensionHost := {
  host_extension_id : string;     (* host->extension()->id() *)
  render_view_host : nat          (* the address of its RenderViewHost *)
}.

(** The calls [Observe] makes to the DevToolsManager. *)
Inductive DevToolsCall :=
  | AttachClientHost (client_cookie : Z) (to_client : nat).

(** [Observe] returns the calls to the DevToolsManager beside its result. *)
Definition Observe (type : NotificationType) (host : ExtensionHost)
    (s : ExtensionsService) : Result * list DevToolsCall :=
  match type with
  | EXTENSION_HOST_DID_STOP_LOADING =>
      match orphaned_dev_tools_ s !! host_extension_id host with
      | None => (Ok s, [])
      | Some cookie =>
          (Ok (with_orphaned_dev_tools (delete (host_extension_id host)) s),
           [AttachClientHost cookie (render_view_host host)])
      end
  | EXTENSION_PROCESS_TERMINATED =>
      (UnloadExtension (host_extension_id host) s, [])
  | _ => (emit (NOTREACHED "Unexpected notification type.") s, [])
  end.

Lemma seq_assoc (a b c : Action) s : ((a >> b) >> c) s = (a >> b >> c) s.
Proof. unfold seq. by destruct (a s). Qed.

Lemma reload_from_LoadExtension s id (path : FilePath) :
  path ≠ "" ->
  no_persisted_manifest s id ->
  reload_from id path s
  = Ok (add_events [PostTask FILE (Backend_LoadSingleExtension path)] s).
Proof.
  intros Hne Hprefs. unfold reload_from.
  assert (bool_decide (path = "") = false) as Hb
      by by apply bool_decide_eq_false_2.
  destruct (GetInstalledExtensionInfo (extension_prefs_ s) id)
    as [info|] eqn:Hinfo.
  - rewrite (Hprefs info Hinfo), Hb. done.
  - by rewrite Hb.
Qed.

Lemma reload_from_CHECK s id :
  no_persisted_manifest s id ->
  reload_from id "" s = Fatal (CHECK_failed "!path.empty()").
Proof.
  intros Hprefs. unfold reload_from.
  destruct (GetInstalledExtensionInfo (extension_prefs_ s) id)
    as [info|] eqn:Hinfo; [|done].
  by rewrite (Hprefs info Hinfo).
Qed.

(** X12: an inspector that is open on the background page survives a reload.
    In a registry that satisfies the invariant [wf], ReloadExtension of an
    enabled extension whose background host has an inspector (the cookie of
    the detached client is not negative) remembers the cookie under the
    identifier, unloads the extension and posts the load of its path; when
    the new host has stopped loading, Observe reattaches exactly that cookie
    to the new host and forgets it, so that a second notification attaches
    nothing. *)
Theorem ReloadExtension_reattaches_inspector s e profile cookie host :
  wf s ->
  e ∈ extensions_ s ->
  profile_ s = Some profile ->
  background_hosts profile !! id_ e = Some cookie ->
  (0 <= cookie)%Z ->
  path_ e ≠ "" ->
  no_persisted_manifest s (id_ e) ->
  host_extension_id host = id_ e ->
  exists s1 s2 evs,
    ReloadExtension (id_ e) s = Ok s1
    ∧ orphaned_dev_tools_ s1 = <[id_ e := cookie]> (orphaned_dev_tools_ s)
    ∧ (id_ e ∉ id_ <$> registered s1)
    ∧ trace_ s1
      = trace_ s
        ++ DetachClientHost (id_ e) :: evs
        ++ [PostTask FILE (Backend_LoadSingleExtension (path_ e))]
    ∧ Observe EXTENSION_HOST_DID_STOP_LOADING host s1
      = (Ok s2, [AttachClientHost cookie (render_view_host host)])
    ∧ orphaned_dev_tools_ s2 !! id_ e = None
    ∧ Observe EXTENSION_HOST_DID_STOP_LOADING host s2 = (Ok s2, []).
Proof.
  intros Hwf He Hprofile Hhost Hcookie Hpath Hprefs Hid.
  assert (e ∈ registered s) as Hreg by (apply elem_of_app; by left).
  pose proof (wf_lowercase s e Hwf Hreg) as Hlow.
  set (s0 := with_orphaned_dev_tools <[id_ e := cookie]>
               (add_events [DetachClientHost (id_ e)] s)).
  destruct (UnloadExtension_registered s0 (id_ e) e Hwf Hreg Hlow)
    as [evs Hunload].
  assert (ReloadExtension (id_ e) s
          = Ok (add_events
                  [PostTask FILE (Backend_LoadSingleExtension (path_ e))]
                  (add_events evs (unloaded_state e s0)))) as Hrun.
  { unfold ReloadExtension, GetExtensionById.
    rewrite (lookup_enabled s e false Hwf He), Hprofile, Hhost.
    rewrite seq_assoc. run_step.
    assert ((0 <=? cookie)%Z = true) as -> by lia.
    unfold when. run_step. fold s0.
    rewrite (seq_Ok _ _ _ _ Hunload).
    by apply reload_from_LoadExtension. }
  eexists _, _, evs. split; [exact Hrun|].
  split; [done|]. split.
  { change (id_ e ∉ id_ <$> registered (unloaded_state e s0)).
    rewrite registered_unloaded_state. apply id_notin_without. }
  split; [simpl; by rewrite <- !app_assoc|].
  unfold Observe. rewrite Hid. simpl. rewrite lookup_insert_eq.
  split; [done|]. simpl. rewrite lookup_delete_eq. done.
Qed.

(** X13: ReloadExtension stops on its CHECK when it can find no path: the
    identifier is not in the Enabled list (an extension of the Disabled list
    is not looked at), the unloaded-path map gives it no path or an empty
    one, and the preferences hold no manifest for it. *)
Theorem ReloadExtension_without_a_path s id :
  StringToLowerASCII id ∉ id_ <$> extensions_ s ->
  default "" (unloaded_extension_paths_ s !! id) = "" ->
  no_persisted_manifest s id ->
  ReloadExtension id s = Fatal (CHECK_failed "!path.empty()").
Proof.
  intros Hnot Hpath Hprefs. unfold ReloadExtension, GetExtensionById.
  assert (GetExtensionByIdInternal s id true false = None) as ->
      by (apply lookup_none_iff; done).
  destruct (unloaded_extension_paths_ s !! id) as [path|].
  - simpl in Hpath. subst path. by apply reload_from_CHECK.
  - run_step. by apply reload_from_CHECK.
Qed.


(** ** The blacklist, again *)

Lemma UpdateExtensionBlacklist_nothing_to_remove s blacklist :
  (forall e, e ∈ extensions_ s -> id_ e ∉ blacklist_set_of blacklist) ->
  UpdateExtensionBlacklist blacklist s
  = Ok (with_extension_prefs
          (fun p => UpdateBlacklist p (blacklist_set_of blacklist)) s).
Proof.
  intros Hnone. unfold UpdateExtensionBlacklist. cbv zeta. run_step.
  rewrite to_be_removed_of_filter. simpl.
  assert (filter (fun e => id_ e ∈ blacklist_set_of blacklist) (extensions_ s)
          = []) as ->; [|done].
  induction (extensions_ s) as [|x l IH]; [done|].
  rewrite filter_cons_False by (apply Hnone; left).
  apply IH. intros e He. apply Hnone. by right.
Qed.

(** X14: applying a blacklist is idempotent.  In a registry that satisfies
    the invariant [wf], a second UpdateExtensionBlacklist with the same list
    changes nothing: no list, no preference, and nothing is announced or
    posted. *)
Theorem UpdateExtensionBlacklist_idempotent s blacklist :
  wf s ->
  exists s1,
    UpdateExtensionBlacklist blacklist s = Ok s1
    ∧ UpdateExtensionBlacklist blacklist s1 = Ok s1.
Proof.
  intros Hwf.
  destruct (UpdateExtensionBlacklist_run s blacklist Hwf)
    as (s1 & Hrun & _ & Hprefs & Hext & _).
  exists s1. split; [done|].
  rewrite UpdateExtensionBlacklist_nothing_to_remove.
  - f_equal. apply state_eq; simpl; try done. by rewrite Hprefs.
  - intros e He. rewrite Hext in He.
    by apply list_elem_of_filter in He as [? _].
Qed.

(** X15: a blacklist without a valid identifier (the empty list, for one)
    unloads nothing: the persisted blacklist becomes the empty set, so that
    what an earlier list held is forgotten, and nothing else changes;
    extensions that an earlier list unloaded are not loaded again. *)
Theorem UpdateExtensionBlacklist_no_valid_id s blacklist :
  (forall id, id ∈ blacklist -> IdIsValid id = false) ->
  UpdateExtensionBlacklist blacklist s
  = Ok (with_extension_prefs (fun p => UpdateBlacklist p ∅) s).
Proof.
  intros Hinvalid.
  assert (blacklist_set_of blacklist = ∅) as Hempty.
  { apply set_eq. intros id. rewrite elem_of_blacklist_set_of.
    split; [|by intros ?%elem_of_empty].
    intros [Hin Hvalid]. by rewrite (Hinvalid id Hin) in Hvalid. }
  rewrite UpdateExtensionBlacklist_nothing_to_remove; rewrite Hempty.
  - done.
  - intros e _. apply not_elem_of_empty.
Qed.

(** ** An install of what is installed already *)

Definition OnExtensionOverinstallAttempted (id : string) : Action :=
  fun s =>
    match GetExtensionById s id false with
    | Some extension =>
        if is_theme_ extension then
          emit (Notify THEME_INSTALLED (DetailsExtension extension)) s
        else emit (Notify NO_THEME_DETECTED NoDetails) s
    | None => emit (Notify NO_THEME_DETECTED NoDetails) s
    end.

(** X16: in a registry that satisfies the invariant [wf],
    OnExtensionOverinstallAttempted announces an installed theme only for an
    enabled theme.  For a theme of the Disabled list, as for an extension
    that is no theme and for an identifier that is not registered, it
    announces that no theme was detected.  It changes no member. *)
Theorem OnExtensionOverinstallAttempted_announces s id :
  wf s ->
  (forall e,
     e ∈ extensions_ s -> StringToLowerASCII id = id_ e ->
     is_theme_ e = true ->
     OnExtensionOverinstallAttempted id s
     = Ok (add_events [Notify THEME_INSTALLED (DetailsExtension e)] s))
  ∧ (forall e,
       e ∈ registered s -> StringToLowerASCII id = id_ e ->
       e ∈ disabled_extensions_ s ∨ is_theme_ e = false ->
       OnExtensionOverinstallAttempted id s
       = Ok (add_events [Notify NO_THEME_DETECTED NoDetails] s))
  ∧ (StringToLowerASCII id ∉ id_ <$> registered s ->
     OnExtensionOverinstallAttempted id s
     = Ok (add_events [Notify NO_THEME_DETECTED NoDetails] s)).
Proof.
  intros Hwf. unfold OnExtensionOverinstallAttempted, GetExtensionById.
  split; [|split].
  - intros e He Hid Htheme.
    assert (e ∈ registered s) as Hreg by (apply elem_of_app; by left).
    rewrite (lookup_as_registered s e id true false Hwf Hreg Hid),
      (lookup_enabled s e false Hwf He), Htheme. done.
  - intros e Hreg Hid Hcase. apply elem_of_app in Hreg as Hwhere.
    destruct Hwhere as [He|He].
    + rewrite (lookup_as_registered s e id true false Hwf Hreg Hid),
        (lookup_enabled s e false Hwf He).
      destruct Hcase as [Hdis| ->]; [|done].
      destruct (wf_enabled_not_disabled s e Hwf He).
      by apply list_elem_of_fmap_2.
    + assert (GetExtensionByIdInternal s id true false = None) as ->; [|done].
      apply lookup_none_iff. split; [|done]. intros _. rewrite Hid.
      destruct (wf_parts s Hwf) as (_ & _ & _ & _ & _ & _ & Hid2).
      by apply Hid2.
  - intros Hnone.
    assert (GetExtensionByIdInternal s id true false = None) as ->; [|done].
    apply lookup_none_iff. split; [|done]. intros _ Hin. apply Hnone.
    unfold registered. rewrite fmap_app, elem_of_app. by left.
Qed.

(** ** Identifiers and case *)

(** X17: the lookup compares the lowercased argument with the stored
    identifiers as they are.  A record whose identifier is not lowercase is
    therefore found by no lookup, whatever the argument and the lists
    searched; and what a lookup finds has the lowercased argument as its
    identifier and is a member of a list that was searched. *)
Theorem GetExtensionByIdInternal_finds s id (enabled disabled : bool) e :
  GetExtensionByIdInternal s id enabled disabled = Some e ->
  id_ e = StringToLowerASCII id
  ∧ is_lowercase (id_ e)
  ∧ (enabled = true ∧ e ∈ extensions_ s
     ∨ disabled = true ∧ e ∈ disabled_extensions_ s)
  ∧ GetExtensionByIdInternal s (StringToLowerASCII id) enabled disabled
    = Some e.
Proof.
  intros Hl.
  assert ((enabled = true ∧ e ∈ extensions_ s
           ∨ disabled = true ∧ e ∈ disabled_extensions_ s)
          ∧ id_ e = StringToLowerASCII id) as [Hwhere Hid].
  { unfold GetExtensionByIdInternal in Hl. cbv zeta in Hl.
    destruct enabled.
    - destruct (find_id _ (extensions_ s)) eqn:E.
      + injection Hl as ->. apply find_id_Some in E as [? ?].
        split; [left|]; done.
      + destruct disabled; [|done]. apply find_id_Some in Hl as [? ?].
        split; [right|]; done.
    - destruct disabled; [|done]. apply find_id_Some in Hl as [? ?].
      split; [right|]; done. }
  split; [done|]. split; [|split; [done|]].
  - rewrite Hid. apply StringToLowerASCII_idem.
  - unfold GetExtensionByIdInternal in *.
    by rewrite StringToLowerASCII_idem.
Qed.


(** * The backend and the start-up helpers *)

(** extension_l10n_util::ShouldRelocalizeManifest and the lookup of the
    version key in a manifest (DictionaryValue::GetString with
    extension_manifest_keys::kVersion), which are not part of the sources. *)
Variable ShouldRelocalizeManifest : ExtensionInfo -> bool.
Variable manifest_version : Manifest -> option string.

(** ** InstalledExtensionSet *)

(** The helper class that collects the identifiers of the preferences;
    [extensions] and [versions] are its two accessors. *)
Record InstalledExtensionSet := {
  extensions : gset string;
  versions : gmap string string
}.

(** The constructor's loop over what
    ExtensionPrefs::GetInstalledExtensionsInfo returned. *)
Definition InstalledExtensionSet_of (info : list ExtensionInfo)
  : InstalledExtensionSet :=
  foldl (fun set i =>
           match extension_manifest i with
           | None => set
           | Some manifest =>
               match manifest_version manifest with
               | None => set
               | Some version =>
                   {| extensions := {[ extension_id i ]} ∪ extensions set;
                      versions :=
                        <[extension_id i := version]> (versions set) |}
               end
           end)
        {| extensions := ∅; versions := ∅ |} info.

(** The version an entry contributes, if it has a manifest with one. *)
Definition version_of_info (i : ExtensionInfo) : option string :=
  match extension_manifest i with
  | None => None
  | Some manifest => manifest_version manifest
  end.

Lemma InstalledExtensionSet_of_snoc info i :
  InstalledExtensionSet_of (info ++ [i])
  = match version_of_info i with
    | None => InstalledExtensionSet_of info
    | Some version =>
        {| extensions :=
             {[ extension_id i ]} ∪ extensions (InstalledExtensionSet_of info);
           versions :=
             <[extension_id i := version]>
               (versions (InstalledExtensionSet_of info)) |}
    end.
Proof.
  unfold InstalledExtensionSet_of, version_of_info. rewrite foldl_snoc.
  destruct (extension_manifest i) as [m|]; [|done].
  by destruct (manifest_version m).
Qed.

(** X18: InstalledExtensionSet lists an identifier exactly when some entry of
    the preferences for it has a manifest with a version; entries without
    one are left out.  Its two accessors agree: the identifiers are the keys
    of the version map, and the version kept for an identifier is the one of
    its last entry that has a version. *)
Theorem InstalledExtensionSet_of_listed info :
  let set := InstalledExtensionSet_of info in
  extensions set = dom (versions set)
  ∧ (forall id,
       id ∈ extensions set
       <-> exists i, i ∈ info ∧ extension_id i = id
                     ∧ is_Some (version_of_info i))
  ∧ (forall before i after version,
       info = before ++ i :: after ->
       version_of_info i = Some version ->
       (forall j, j ∈ after -> extension_id j = extension_id i ->
                  version_of_info j = None) ->
       versions set !! extension_id i = Some version).
Proof.
  cbv zeta. induction info as [|i info IH] using rev_ind.
  - split; [|split].
    + simpl. by rewrite dom_empty_L.
    + intros id. simpl. split; [by intros ?%elem_of_empty|].
      by intros (i & ?%elem_of_nil & _).
    + intros before i after version Heq. by destruct before.
  - destruct IH as (IHdom & IHin & IHlast).
    rewrite InstalledExtensionSet_of_snoc.
    split; [|split].
    + destruct (version_of_info i); [|done]. simpl.
      by rewrite dom_insert_L, IHdom.
    + intros id. destruct (version_of_info i) as [v|] eqn:Hv; simpl.
      * rewrite elem_of_union, elem_of_singleton, IHin. split.
        -- intros [->|(j & Hj & Hid & Hs)].
           ++ exists i. rewrite elem_of_app, list_elem_of_singleton, Hv.
              by auto.
           ++ exists j. rewrite elem_of_app. by auto.
        -- intros (j & Hj & Hid & Hs).
           apply elem_of_app in Hj as [Hj|Hj%list_elem_of_singleton].
           ++ right. by exists j.
           ++ left. by subst j.
      * rewrite IHin. split.
        -- intros (j & Hj & Hid & Hs). exists j. rewrite elem_of_app.
           by auto.
        -- intros (j & Hj & Hid & Hs).
           apply elem_of_app in Hj as [Hj|Hj%list_elem_of_singleton].
           ++ by exists j.
           ++ subst j. rewrite Hv in Hs. by destruct Hs.
    + intros before j after version Heq Hj Hafter.
      destruct after as [|a after _] using rev_ind.
      * apply app_inj_tail in Heq as [_ ->]. rewrite Hj. simpl.
        by rewrite lookup_insert_eq.
      * rewrite app_comm_cons, app_assoc in Heq.
        apply app_inj_tail in Heq as [Heq ->].
        assert (forall k, k ∈ after -> extension_id k = extension_id j ->
                          version_of_info k = None) as Hafter'.
        { intros k Hk. apply Hafter. rewrite elem_of_app. by left. }
        pose proof (IHlast before j after version Heq Hj Hafter') as Hrec.
        destruct (version_of_info a) as [va|] eqn:Hva; [|done]. simpl.
        rewrite lookup_insert_ne; [done|].
        intros Hsame.
        assert (version_of_info a = None) as Hnone.
        { apply Hafter; [|done]. rewrite elem_of_app, list_elem_of_singleton.
          by right. }
        by rewrite Hnone in Hva.
Qed.

(** ** Reloading the manifests on the file thread *)

Definition ShouldReloadExtensionManifest (info : ExtensionInfo) : bool :=
  if bool_decide (extension_location info = LOAD) then true
  else ShouldRelocalizeManifest info.

(** [extension_manifest.reset(...)] on one entry. *)
Definition reset_extension_manifest (manifest : Manifest)
    (info : ExtensionInfo) : ExtensionInfo :=
  {| extension_manifest := Some manifest;
     extension_id := extension_id info;
     extension_path := extension_path info;
     extension_location := extension_location info |}.

(** The loop of [ExtensionsServiceBackend::ReloadExtensionManifests]: the
    list it then hands to [ContinueLoadAllExtensions] on the UI thread. *)
Definition ReloadExtensionManifests (extensions_to_reload : list ExtensionInfo)
  : list ExtensionInfo :=
  map (fun info =>
         if negb (ShouldReloadExtensionManifest info) then info
         else
           match LoadExtension_from_disk (extension_path info) false with
           | inl extension =>
               reset_extension_manifest (manifest_value_ extension) info
           | inr _ => info
           end)
      extensions_to_reload.

(** X19: ReloadExtensionManifests changes manifests only.  The list it hands
    on has the same entries in the same order, each with its identifier, path
    and location; an entry that had a manifest still has one; an entry that
    needs no reload, or whose directory cannot be loaded, is handed on as it
    is; an unpacked (LOAD) entry whose directory loads gets the manifest
    that was read from the disk, whatever the preferences held. *)
Theorem ReloadExtensionManifests_changes_manifests_only infos :
  let reloaded := ReloadExtensionManifests infos in
  extension_id <$> reloaded = extension_id <$> infos
  ∧ extension_path <$> reloaded = extension_path <$> infos
  ∧ extension_location <$> reloaded = extension_location <$> infos
  ∧ (forall i info,
       infos !! i = Some info ->
       exists info',
         reloaded !! i = Some info'
         ∧ (is_Some (extension_manifest info) ->
            is_Some (extension_manifest info'))
         ∧ (ShouldReloadExtensionManifest info = false -> info' = info)
         ∧ (forall error,
              LoadExtension_from_disk (extension_path info) false
              = inr error -> info' = info)
         ∧ (forall extension,
              extension_location info = LOAD ->
              LoadExtension_from_disk (extension_path info) false
              = inl extension ->
              extension_manifest info' = Some (manifest_value_ extension))).
Proof.
  cbv zeta. unfold ReloadExtensionManifests.
  split; [|split; [|split]].
  - rewrite <- list_fmap_compose. apply list_fmap_ext. intros _ info _. simpl.
    destruct (negb _); [done|]. by destruct (LoadExtension_from_disk _ _).
  - rewrite <- list_fmap_compose. apply list_fmap_ext. intros _ info _. simpl.
    destruct (negb _); [done|]. by destruct (LoadExtension_from_disk _ _).
  - rewrite <- list_fmap_compose. apply list_fmap_ext. intros _ info _. simpl.
    destruct (negb _); [done|]. by destruct (LoadExtension_from_disk _ _).
  - intros i info Hi. eexists. split.
    { change (map ?f ?l) with (f <$> l). by rewrite list_lookup_fmap, Hi. }
    unfold ShouldReloadExtensionManifest.
    destruct (bool_decide_reflect (extension_location info = LOAD))
      as [Hload|Hload]; simpl.
    + destruct (LoadExtension_from_disk (extension_path info) false)
        as [extension|error] eqn:Hdisk.
      * split; [by eexists|]. split; [done|]. split; [done|].
        by intros ? _ [= <-].
      * split; [done|]. split; [done|]. split; [done|]. done.
    + destruct (ShouldRelocalizeManifest info); simpl.
      * destruct (LoadExtension_from_disk (extension_path info) false)
          as [extension|error] eqn:Hdisk.
        -- split; [by eexists|]. split; [done|]. split; [done|]. done.
        -- split; [done|]. split; [done|]. split; [done|]. done.
      * split; [done|]. split; [done|]. split; [done|]. done.
Qed.

(** ** What cannot be loaded *)

(** X20: an entry of the preferences that has no manifest, or whose manifest
    the parser rejects, is reported as an install error, quietly; the
    service changes no member for it, writes nothing to the preferences even
    when asked to, and posts no external-uninstall check even for an
    external location. *)
Theorem LoadInstalledExtension_not_loadable s info write_to_prefs error :
  (extension_manifest info = None ∧ error = kManifestUnreadable)
  ∨ (exists manifest,
       extension_manifest info = Some manifest
       ∧ InitFromValue (extension_path info) manifest
           (negb (bool_decide (extension_location info = LOAD)))
         = inr error) ->
  LoadInstalledExtension info write_to_prefs s
  = Ok (add_events
          [Notify EXTENSION_INSTALL_ERROR (DetailsString error);
           ReportError
             ("Could not load extension from '" +:+ extension_path info
                +:+ "'. " +:+ error)
             false] s).
Proof.
  unfold LoadInstalledExtension.
  intros [[-> ->]|(manifest & -> & ->)]; cbv zeta;
    unfold ReportExtensionLoadError; run_step;
    unfold emit, modify; f_equal; apply state_eq; simpl; try done;
    by rewrite <- app_assoc.
Qed.

(** X21: an explicit load of a directory that cannot be loaded is reported
    noisily and changes no member.  LoadExtension posts the backend's load;
    the backend logs it and posts the frontend's ReportExtensionLoadError;
    run on the UI thread, that announces the install error with the
    loader's message. *)
Theorem LoadExtension_not_loadable s (path : FilePath) error :
  LoadExtension_from_disk (AbsolutePath path) false = inr error ->
  exists task,
    LoadExtension path s
    = Ok (add_events [PostTask FILE (Backend_LoadSingleExtension path)] s)
    ∧ Backend_LoadSingleExtension_run path
      = [Log INFO ("Loading single extension from "
                     +:+ BaseName (AbsolutePath path));
         PostTask UI task]
    ∧ forall s',
        run_UI_task task s'
        = Ok (add_events
                [Notify EXTENSION_INSTALL_ERROR (DetailsString error);
                 ReportError
                   ("Could not load extension from '" +:+ AbsolutePath path
                      +:+ "'. " +:+ error)
                   true] s').
Proof.
  intros Hdisk. eexists. split; [done|].
  unfold Backend_LoadSingleExtension_run. rewrite Hdisk.
  split; [done|]. intros s'. simpl.
  unfold ReportExtensionLoadError. run_step.
  unfold emit, modify. f_equal. apply state_eq; simpl; try done.
  by rewrite <- app_assoc.
Qed.


(** ** External extensions that are gone *)

(** An ExternalExtensionProvider as [CheckExternalUninstall] asks it:
    RegisteredVersion(id, NULL), which is NULL for an identifier the
    provider does not list. *)
Definition ExternalExtensionProvider := string -> option Version.

(** external_extension_providers_, the std::map from a location to its
    provider, as [find] sees it. *)
Definition ProviderMap := Location -> option ExternalExtensionProvider.

(** What the backend does on the file thread in [CheckExternalUninstall]. *)
Inductive BackendEvent :=
  | Backend_NOTREACHED (message : string) (location : Location)
  | PostTask_UI_UninstallExtension (id : string) (external_uninstall : bool).

Definition CheckExternalUninstall (external_extension_providers_ : ProviderMap)
    (id : string) (location : Location) : list BackendEvent :=
  match external_extension_providers_ location with
  | None =>
      [Backend_NOTREACHED
         "CheckExternalUninstall called for non-external extension "
         location]
  | Some provider =>
      match provider id with
      | Some _ => []
      | None => [PostTask_UI_UninstallExtension id true]
      end
  end.

Lemma IsExternalLocation_cases location :
  IsExternalLocation location = true ->
  negb (bool_decide (location = LOAD)) = true
  ∧ bool_decide (location = EXTERNAL_PREF)
    || bool_decide (location = EXTERNAL_REGISTRY) = true.
Proof. by destruct location. Qed.

Lemma load_gate_external s e :
  IsExternalLocation (location_ e) = true -> load_gate s e = true.
Proof.
  unfold load_gate. intros ->.
  by destruct (extensions_enabled_ s), (is_theme_ e), (bool_decide _).
Qed.

(** The record [e'] was put at the end of one of the lists of [s], which
    had no record of its identifier; [s1] is the outcome.  Uninstalling it
    gives the lists of [s] back. *)
Lemma UninstallExtension_last_placed s s1 e' external :
  wf s1 ->
  extensions_ s1 = extensions_ s ++ [e']
  ∧ disabled_extensions_ s1 = disabled_extensions_ s
  ∨ extensions_ s1 = extensions_ s
    ∧ disabled_extensions_ s1 = disabled_extensions_ s ++ [e'] ->
  id_ e' ∉ id_ <$> registered s ->
  is_lowercase (id_ e') ->
  exists s2,
    UninstallExtension (id_ e') external s1 = Ok s2
    ∧ extensions_ s2 = extensions_ s
    ∧ disabled_extensions_ s2 = disabled_extensions_ s
    ∧ extension_prefs_ s2
      = Prefs_OnExtensionUninstalled (extension_prefs_ s1) (id_ e')
          (location_ e') external.
Proof.
  intros Hwf1 Hlists Hid Hlow.
  assert ((id_ e' ∉ id_ <$> extensions_ s)
          ∧ (id_ e' ∉ id_ <$> disabled_extensions_ s)) as [Hid1 Hid2].
  { unfold registered in Hid. by rewrite fmap_app, not_elem_of_app in Hid. }
  assert (e' ∈ registered s1) as He'.
  { unfold registered.
    destruct Hlists as [[-> ->]|[-> ->]]; rewrite !elem_of_app;
      rewrite list_elem_of_singleton; auto. }
  destruct (UninstallExtension_registered s1 (id_ e') external e' Hwf1 He' Hlow)
    as (evs2 & Hun & _).
  eexists. split; [exact Hun|].
  assert (without (id_ e') [e'] = []) as Hnil.
  { unfold without. by rewrite filter_cons_False by (intros H; by apply H). }
  split; [|split; [|done]].
  - simpl. destruct Hlists as [[-> _]|[-> _]];
      rewrite ?without_app, ?Hnil, ?app_nil_r; by apply without_notin.
  - simpl. destruct Hlists as [[_ ->]|[_ ->]];
      rewrite ?without_app, ?Hnil, ?app_nil_r; by apply without_notin.
Qed.

(** X22: an external extension that its provider no longer lists is removed
    again at the load of the installed extensions.  In a registry that
    satisfies the invariant [wf], where the service has a profile or the
    extension does not ask for the bookmark permission,
    LoadInstalledExtension registers the
    object made from an external entry of the preferences and then posts the
    backend's uninstall check for the entry; the backend, whose provider for
    that location does not list the identifier, posts an external uninstall;
    and that uninstall leaves both lists as they were before the load, with
    the uninstall persisted as an external one. *)
Theorem LoadInstalledExtension_external_gone
    s info manifest tmp write_to_prefs
    (external_extension_providers_ : ProviderMap) provider :
  let location := extension_location info in
  let e := set_location location tmp in
  wf s ->
  extension_manifest info = Some manifest ->
  IsExternalLocation location = true ->
  InitFromValue (extension_path info) manifest true = inl tmp ->
  new_object s e ->
  id_ e ∉ id_ <$> registered s ->
  extension_id info = id_ e ->
  GetExtensionState (extension_prefs_ s) (id_ e) ≠ KILLBIT ->
  bookmarks_observable s e ->
  external_extension_providers_ location = Some provider ->
  provider (id_ e) = None ->
  exists s1 s2,
    LoadInstalledExtension info write_to_prefs s = Ok s1
    ∧ set_being_upgraded false e ∈ registered s1
    ∧ last (trace_ s1)
      = Some (PostTask FILE (Backend_CheckExternalUninstall (id_ e) location))
    ∧ CheckExternalUninstall external_extension_providers_ (id_ e) location
      = [PostTask_UI_UninstallExtension (id_ e) true]
    ∧ UninstallExtension (id_ e) true s1 = Ok s2
    ∧ extensions_ s2 = extensions_ s
    ∧ disabled_extensions_ s2 = disabled_extensions_ s
    ∧ last (pref_uninstalled (extension_prefs_ s2))
      = Some (id_ e, location, true).
Proof.
  intros location e Hwf Hm Hext Hinit Hnew Hid Hinfo Hstate Hbook Hprov
    Hgone.
  destruct (IsExternalLocation_cases location Hext) as [Hkey Hcheck].
  set (s0 := if write_to_prefs
             then with_extension_prefs (fun p => UpdateManifest p e) s
             else s).
  assert (wf s0 ∧ new_object s0 e ∧ (id_ e ∉ id_ <$> registered s0)
          ∧ registered s0 = registered s
          ∧ GetExtensionState (extension_prefs_ s0) (id_ e)
            = GetExtensionState (extension_prefs_ s) (id_ e))
    as (Hwf0 & Hnew0 & Hid0 & Hreg0 & Hstate0)
      by (unfold s0; by destruct write_to_prefs).
  destruct (OnExtensionLoaded_new_id s0 e true Hnew0 Hid0)
    as [evs Hload]; [by apply load_gate_external|].
  rewrite (bookmarks_observable_no_stop s0 e _) in Hload
    by (unfold s0; by destruct write_to_prefs).
  set (s1 := add_events
               [PostTask FILE
                  (Backend_CheckExternalUninstall (extension_id info)
                     location)]
               (add_events evs (loaded_state e s0))).
  assert (LoadInstalledExtension info write_to_prefs s = Ok s1) as Hrun.
  { unfold LoadInstalledExtension. rewrite Hm. fold location.
    rewrite Hkey, Hinit. cbv zeta. fold e.
    assert ((when write_to_prefs
               (modify (with_extension_prefs (fun p => UpdateManifest p e))) >>
             OnExtensionLoaded e true >>
             when (bool_decide (location = EXTERNAL_PREF)
                   || bool_decide (location = EXTERNAL_REGISTRY))
               (emit (PostTask FILE
                        (Backend_CheckExternalUninstall (extension_id info)
                           location)))) s
            = (OnExtensionLoaded e true >>
               emit (PostTask FILE
                       (Backend_CheckExternalUninstall (extension_id info)
                          location))) s0) as ->.
    { rewrite Hcheck. unfold s0. by destruct write_to_prefs. }
    by rewrite (seq_Ok _ _ _ _ Hload). }
  set (e' := set_being_upgraded false e).
  assert (extensions_ s1 = extensions_ s ++ [e']
          ∧ disabled_extensions_ s1 = disabled_extensions_ s
          ∨ extensions_ s1 = extensions_ s
            ∧ disabled_extensions_ s1 = disabled_extensions_ s ++ [e'])
    as Hlists.
  { unfold s1, loaded_state. rewrite Hstate0.
    destruct (GetExtensionState (extension_prefs_ s) (id_ e));
      [right|left|done]; unfold s0; by destruct write_to_prefs. }
  assert (wf s1) as Hwf1 by by apply (wf_loaded_state e s0).
  destruct (UninstallExtension_last_placed s s1 e' true Hwf1 Hlists)
    as (s2 & Hun & Hext2 & Hdis2 & Hprefs2); [done|apply Hnew|].
  exists s1, s2. split; [done|]. split.
  { unfold registered.
    destruct Hlists as [[-> ->]|[-> ->]]; rewrite !elem_of_app;
      rewrite list_elem_of_singleton; auto. }
  split; [unfold s1; simpl; by rewrite last_snoc, Hinfo|].
  split; [unfold CheckExternalUninstall; by rewrite Hprov, Hgone|].
  split; [done|]. split; [done|]. split; [done|].
  rewrite Hprefs2. simpl. by rewrite last_snoc.
Qed.


(** ** What an upgrade announces *)

Lemma UnloadExtension_registered_notifies s id e :
  wf s -> e ∈ registered s -> StringToLowerASCII id = id_ e ->
  exists evs type,
    UnloadExtension id s = Ok (add_events evs (unloaded_state e s))
    ∧ notifications evs = [(type, DetailsExtension e)]
    ∧ (type = EXTENSION_UNLOADED ∧ e ∈ extensions_ s
       ∨ type = EXTENSION_UNLOADED_DISABLED ∧ e ∈ disabled_extensions_ s).
Proof.
  intros Hwf He Hid. apply elem_of_app in He as [He|He].
  - eexists _, EXTENSION_UNLOADED.
    split; [by apply UnloadExtension_enabled_run|]. split; [|by left].
    cbn [notifications].
    by rewrite notifications_app, notifications_unloaded_events.
  - eexists _, EXTENSION_UNLOADED_DISABLED.
    split; [by apply UnloadExtension_disabled_run|]. split; [done|by right].
Qed.

Lemma trace_placed_state st e s : trace_ (placed_state st e s) = trace_ s.
Proof. by destruct st. Qed.

(** X23: what an upgrade announces.  In a registry that satisfies the
    invariant [wf], with the load gate open and a profile at hand or no
    bookmark permission asked for, loading a newer version of a
    registered extension announces the unload of the old record and then the
    new one.  In a silent upgrade both notifications carry their record
    marked as being upgraded, and the new record is announced as loaded or
    as update-disabled according to the persisted state (and not at all for
    any other state); otherwise the old record is announced unmarked and the
    new one as update-disabled. *)
Theorem OnExtensionLoaded_upgrade_announces s old e allow :
  wf s ->
  old ∈ registered s ->
  id_ e = id_ old ->
  ptr_ e ∉ ptr_ <$> registered s ->
  (CompareTo (version_ e) (version_ old) > 0)%Z ->
  load_gate s e = true ->
  bookmarks_observable s e ->
  exists s' evs type,
    OnExtensionLoaded e allow s = Ok s'
    ∧ trace_ s' = trace_ s ++ evs
    ∧ (type = EXTENSION_UNLOADED ∧ old ∈ extensions_ s
       ∨ type = EXTENSION_UNLOADED_DISABLED ∧ old ∈ disabled_extensions_ s)
    ∧ notifications evs
      = if allow || negb (IsPrivilegeIncrease old e) then
          (type, DetailsExtension (set_being_upgraded true old))
          :: match GetExtensionState (extension_prefs_ s) (id_ e) with
             | ENABLED =>
                 [(EXTENSION_LOADED,
                   DetailsExtension (set_being_upgraded true e))]
             | DISABLED =>
                 [(EXTENSION_UPDATE_DISABLED,
                   DetailsExtension (set_being_upgraded true e))]
             | KILLBIT => []
             end
        else
          [(type, DetailsExtension old);
           (EXTENSION_UPDATE_DISABLED, DetailsExtension e)].
Proof.
  intros Hwf Hold Hid Hfresh Hgt Hgate Hbook.
  unfold OnExtensionLoaded. run_step. cbv beta zeta.
  set (s0 := with_unloaded_extension_paths _ s).
  assert (wf s0) as Hwf0 by done.
  assert (load_gate s0 e = true) as -> by done.
  assert (GetExtensionByIdInternal s0 (id_ e) true true = Some old) as ->.
  { rewrite Hid. by apply lookup_registered. }
  assert ((CompareTo (version_ e) (version_ old) >? 0)%Z = true) as -> by lia.
  assert (forall s2 e2,
            profile_ s2 = profile_ s ->
            api_permissions_ e2 = api_permissions_ e ->
            place_by_persisted_state e2 s2
            = Ok (add_events
                    (placed_events
                       (GetExtensionState (extension_prefs_ s2) (id_ e2))
                       s2 e2)
                    (placed_state
                       (GetExtensionState (extension_prefs_ s2) (id_ e2))
                       e2 s2))) as Hplace.
  { intros s2 e2 Hp Ha. rewrite place_by_persisted_state_events.
    rewrite bookmarks_observable_no_stop; [done|].
    unfold bookmarks_observable, HasApiPermission in *. by rewrite Hp, Ha. }
  destruct (allow || negb (IsPrivilegeIncrease old e)); cbn [when negb].
  - (* silent upgrade *)
    unfold update_object. run_step.
    set (s1 := with_disabled_extensions _ _).
    assert (wf s1) as Hwf1.
    { unfold wf, registered, s1. simpl. rewrite <- poke_app.
      by apply wf_list_poke. }
    destruct (UnloadExtension_registered_notifies s1 (id_ old)
                (set_being_upgraded true old))
      as (evs1 & type & H1 & Hn1 & Hwhere); [done| |
      by apply (wf_lowercase s old) |].
    { unfold registered, s1. simpl. rewrite <- poke_app.
      by apply poke_member. }
    rewrite (seq_Ok _ _ _ _ H1), seq_skip.
    rewrite (seq_Ok _ _ _ _
               (Hplace (add_events evs1
                          (unloaded_state (set_being_upgraded true old) s1))
                  (set_being_upgraded true e) eq_refl eq_refl)).
    run_step.
    unfold UpdateActiveExtensionsInCrashReporter, emit, modify.
    set (st := GetExtensionState _ _).
    set (s2 := add_events evs1 _).
    eexists _, (evs1 ++ placed_events st s2 (set_being_upgraded true e)
                  ++ [_]), type.
    split; [reflexivity|]. split.
    { simpl. rewrite trace_placed_state. simpl. by rewrite <- !app_assoc. }
    split.
    { apply elem_of_app in Hold as [Hold|Hold].
      - left. split; [|done]. destruct Hwhere as [[? _]|[_ Hdis]]; [done|].
        exfalso. apply (wf_enabled_not_disabled s1 _ Hwf1
                          (poke_member _ _ _ _ Hold eq_refl)).
        by apply list_elem_of_fmap_2.
      - right. split; [|done]. destruct Hwhere as [[_ Hen]|[? _]]; [|done].
        exfalso. apply (wf_enabled_not_disabled s1 _ Hwf1 Hen).
        apply list_elem_of_fmap_2. unfold s1. simpl.
        by apply poke_member. }
    rewrite !notifications_app, Hn1, notifications_placed_events.
    change st with (GetExtensionState (extension_prefs_ s) (id_ e)).
    by destruct (GetExtensionState (extension_prefs_ s) (id_ e)).
  - (* no silent upgrade: the new record is disabled *)
    rewrite seq_skip.
    destruct (UnloadExtension_registered_notifies s0 (id_ old) old)
      as (evs1 & type & H1 & Hn1 & Hwhere);
      [done|done|by apply (wf_lowercase s old)|].
    rewrite (seq_Ok _ _ _ _ H1). run_step.
    set (s2 := with_extension_prefs _ _).
    rewrite (seq_Ok _ _ _ _ (Hplace s2 e eq_refl eq_refl)).
    unfold update_object. run_step.
    unfold UpdateActiveExtensionsInCrashReporter, emit, modify.
    assert (GetExtensionState (extension_prefs_ s2) (id_ e) = DISABLED)
      as -> by apply GetExtensionState_set.
    eexists _, (evs1 ++ placed_events DISABLED s2 e ++ [_]), type.
    split; [reflexivity|]. split.
    { simpl. by rewrite <- !app_assoc. }
    split; [done|].
    by rewrite !notifications_app, Hn1.
Qed.

(** ** The crash reporter *)

Lemma elem_of_active_extension_ids id l :
  id ∈ active_extension_ids l
  <-> exists e, e ∈ l ∧ id_ e = id ∧ is_theme_ e = false.
Proof.
  unfold active_extension_ids.
  assert (forall ids : gset string,
            id ∈ foldl (fun ids e =>
                          if is_theme_ e then ids else {[ id_ e ]} ∪ ids)
                       ids l
            <-> id ∈ ids
                ∨ exists e, e ∈ l ∧ id_ e = id ∧ is_theme_ e = false) as H.
  { induction l as [|x l IH]; intros ids; simpl.
    - split; [by left|]. intros [?|(e & ?%elem_of_nil & _)]; done.
    - rewrite IH. destruct (is_theme_ x) eqn:Hx.
      + split.
        * intros [?|(e & He & Hid & Ht)]; [by left|].
          right. exists e. split; [by right|done].
        * intros [?|(e & He & Hid & Ht)]; [by left|].
          apply elem_of_cons in He as [->|He]; [congruence|].
          right. by exists e.
      + rewrite elem_of_union, elem_of_singleton. split.
        * intros [[->|?]|(e & He & Hid & Ht)].
          -- right. exists x. split; [left|done].
          -- by left.
          -- right. exists e. split; [by right|done].
        * intros [?|(e & He & Hid & Ht)]; [left; by right|].
          apply elem_of_cons in He as [->|He]; [left; by left|].
          right. by exists e. }
  rewrite H. split; [|by right]. by intros [?%elem_of_empty|?].
Qed.

(** The last thing in the trace is a report of the enabled extensions that
    are not themes. *)
Definition crash_reporter_in_step (s : ExtensionsService) : Prop :=
  exists ids,
    last (trace_ s) = Some (SetActiveExtensions ids)
    ∧ forall id,
        id ∈ ids
        <-> exists e, e ∈ extensions_ s ∧ id_ e = id ∧ is_theme_ e = false.

Lemma crash_reporter_in_step_intro evs l s0 :
  extensions_ s0 = l ->
  crash_reporter_in_step
    (add_events (evs ++ [SetActiveExtensions (active_extension_ids l)]) s0).
Proof.
  intros Hs. eexists. split.
  - simpl. by rewrite app_assoc, last_snoc.
  - intros id. simpl. rewrite Hs. apply elem_of_active_extension_ids.
Qed.

(** X24: every call that changes the Enabled list one record at a time ends
    by telling the crash reporter which extensions are enabled.  In a
    registry that satisfies the invariant [wf], after EnableExtension of a
    disabled record, DisableExtension or UnloadExtension of an enabled one,
    and OnExtensionLoaded of a new object of an unregistered identifier
    (with a profile at hand or no bookmark permission asked for), the last
    event is a report of exactly the identifiers of the records of the
    Enabled list that are not themes. *)
Theorem crash_reporter_is_told s :
  wf s ->
  (forall id e,
     e ∈ disabled_extensions_ s -> StringToLowerASCII id = id_ e ->
     exists s', EnableExtension id s = Ok s' ∧ crash_reporter_in_step s')
  ∧ (forall id e,
       e ∈ extensions_ s -> StringToLowerASCII id = id_ e ->
       exists s', DisableExtension id s = Ok s' ∧ crash_reporter_in_step s')
  ∧ (forall id e,
       e ∈ extensions_ s -> StringToLowerASCII id = id_ e ->
       exists s', UnloadExtension id s = Ok s' ∧ crash_reporter_in_step s')
  ∧ (forall e allow,
       new_object s e -> id_ e ∉ id_ <$> registered s ->
       bookmarks_observable s e ->
       exists s', OnExtensionLoaded e allow s = Ok s'
                  ∧ crash_reporter_in_step s').
Proof.
  intros Hwf. split; [|split; [|split]].
  - intros id e He Hid. eexists.
    split; [by apply EnableExtension_run|].
    rewrite app_comm_cons. by apply crash_reporter_in_step_intro.
  - intros id e He Hid. eexists.
    split; [by apply DisableExtension_run|].
    rewrite app_comm_cons. by apply crash_reporter_in_step_intro.
  - intros id e He Hid. eexists.
    split; [by apply UnloadExtension_enabled_run|].
    rewrite app_comm_cons. by apply crash_reporter_in_step_intro.
  - intros e allow Hnew Hid Hbook.
    destruct (load_gate s e) eqn:Hgate.
    + rewrite (OnExtensionLoaded_new_id_run s e allow Hnew Hid Hgate),
        (bookmarks_observable_no_stop s e _ Hbook).
      eexists. split; [done|].
      by apply crash_reporter_in_step_intro.
    + destruct Hnew as [Hfresh _]. eexists.
      split; [by apply OnExtensionLoaded_gate_closed_run|].
      by apply (crash_reporter_in_step_intro []).
Qed.

End ExtensionsService.

Arguments ptr_ {Version Manifest} _.
Arguments id_ {Version Manifest} _.
Arguments version_ {Version Manifest} _.
Arguments path_ {Version Manifest} _.
Arguments location_ {Version Manifest} _.
Arguments is_theme_ {Version Manifest} _.
Arguments api_permissions_ {Version Manifest} _.
Arguments set_being_upgraded {Version Manifest} _ _.
Arguments set_location {Version Manifest} _ _.
Arguments extensions_ {Version Manifest} _.
Arguments disabled_extensions_ {Version Manifest} _.
Arguments pending_extensions_ {Version Manifest} _.
Arguments unloaded_extension_paths_ {Version Manifest} _.
Arguments orphaned_dev_tools_ {Version Manifest} _.
Arguments extension_prefs_ {Version Manifest} _.
Arguments extensions_enabled_ {Version Manifest} _.
Arguments trace_ {Version Manifest} _.
Arguments pref_blacklist {Manifest} _.
Arguments GetExtensionState {Manifest} _ _.
Arguments DidExtensionEscalatePermissions {Manifest} _ _.
Arguments GetInstalledExtensionInfo {Manifest} _ _.
Arguments Ok {Version Manifest} _.
Arguments Fatal {Version Manifest} _.
Arguments Notify {Version Manifest} _ _.
Arguments PostTask {Version Manifest} _ _.
Arguments InstallCrx {Version Manifest} _ _.
Arguments Log {Version Manifest} _ _.
Arguments NOTREACHED {Version Manifest} _.
Arguments ReportError {Version Manifest} _ _.
Arguments SetActiveExtensions {Version Manifest} _.
Arguments DetailsExtension {Version Manifest} _.
Arguments DetailsString {Version Manifest} _.
Arguments DeleteFileHelper {Version Manifest} _ _.
Arguments Backend_LoadSingleExtension {Version Manifest} _.
Arguments Frontend_OnExtensionInstalled {Version Manifest} _ _.
Arguments registered {Version Manifest} _.
Arguments without {Version Manifest} _ _.
Arguments wf {Version Manifest} _.
Arguments records_of {Version Manifest} _ _.
Arguments same_members {Version Manifest} _ _.
Arguments load_gate {Version Manifest} _ _.
Arguments new_object {Version Manifest} _ _.
Arguments bookmarks_observable {Version Manifest} _ _.
Arguments no_persisted_manifest {Version Manifest} _ _.
Arguments theme_mismatch {Version Manifest} _ _.
Arguments enabled_disabled_disjoint {Version Manifest} _.
Arguments active_extension_ids {Version Manifest} _.
Arguments UnloadExtension {Version Manifest} _ _.
Arguments EnableExtension {Version Manifest} _ _.
Arguments DisableExtension {Version Manifest} _ _.
Arguments UpdateExtension {Version Manifest} _ _ _ _.
Arguments UninstallExtension {Version Manifest} _ _ _.

(** * The service at work: concrete collaborators and runs *)

Module Sample.

(** ** Collaborators *)

(** Versions are dotted numbers; a missing component counts as zero. *)
Definition Version := list nat.

Fixpoint CompareTo (a b : Version) : Z :=
  match a, b with
  | [], [] => 0
  | [], y :: b' => if forallb (Nat.eqb 0) (y :: b') then 0 else (-1)
  | x :: a', [] => if forallb (Nat.eqb 0) (x :: a') then 0 else 1
  | x :: a', y :: b' =>
      if (x <? y)%nat then (-1)
      else if (y <? x)%nat then 1
      else CompareTo a' b'
  end.

Definition digit (c : ascii) : option nat :=
  let n := nat_of_ascii c in
  if (48 <=? n)%nat && (n <=? 57)%nat then Some (n - 48)%nat else None.

Fixpoint parse_components (s : string) (current : option nat)
    (components : list nat) : option Version :=
  match s with
  | EmptyString =>
      match current with
      | Some n => Some (components ++ [n])
      | None => None
      end
  | String c s' =>
      if Ascii.eqb c "." then
        match current with
        | Some n => parse_components s' None (components ++ [n])
        | None => None
        end
      else
        match digit c with
        | Some d =>
            parse_components s'
              (Some (10 * default 0%nat current + d)%nat) components
        | None => None
        end
  end.

Definition GetVersionFromString (s : string) : option Version :=
  parse_components s None [].

Fixpoint Version_GetString (v : Version) : string :=
  match v with
  | [] => ""
  | [n] => pretty n
  | n :: v' => pretty n +:+ "." +:+ Version_GetString v'
  end.

Definition Manifest := string.

(** The new extension asks for an API permission the old one lacks. *)
Definition IsPrivilegeIncrease (old new : Extension Version Manifest)
  : bool :=
  negb (forallb (fun p => existsb (String.eqb p) (api_permissions_ old))
          (api_permissions_ new)).

(** 32 letters from a to p. *)
Definition IdIsValid (id : string) : bool :=
  (String.length id =? 32)%nat
  && forallb (fun c => let n := nat_of_ascii c in
                       (97 <=? n)%nat && (n <=? 112)%nat)
       (String.list_ascii_of_string (StringToLowerASCII id)).

Definition AbsolutePath (path : FilePath) : FilePath := path.
Definition BaseName (path : FilePath) : string := path.

Abbreviation Ext := (Extension Version Manifest).
Abbreviation Service := (ExtensionsService Version Manifest).
Abbreviation OnExtensionLoaded' :=
  (OnExtensionLoaded Version CompareTo Manifest IsPrivilegeIncrease).
Abbreviation OnExtensionInstalled' :=
  (OnExtensionInstalled Version CompareTo Manifest IsPrivilegeIncrease).
Abbreviation UpdateExtensionBlacklist' :=
  (UpdateExtensionBlacklist Version Manifest IdIsValid).
Abbreviation OnExternalExtensionFound' :=
  (OnExternalExtensionFound Version CompareTo GetVersionFromString
     Version_GetString Manifest).

(** ** Extensions and services *)

Definition id_a : string := "aaaaaaaaaaaaaaaaaaaaaaaaaaaaaaaa".
Definition id_b : string := "bbbbbbbbbbbbbbbbbbbbbbbbbbbbbbbb".

Definition extension (ptr : nat) (id : string) (version : Version)
    (location : Location) (theme : bool) (permissions : list string) : Ext :=
  {| ptr_ := ptr; id_ := id; version_ := version;
     path_ := "/profile/Extensions/" +:+ id +:+ "/"
              +:+ Version_GetString version;
     location_ := location;
     url_ := "chrome-extension://" +:+ id +:+ "/";
     is_theme_ := theme; api_permissions_ := permissions;
     chrome_url_overrides_ := []; default_locale_ := "en";
     manifest_value_ := "{}"; being_upgraded_ := false |}.

Definition a_1 : Ext := extension 1 id_a [1; 0] INTERNAL false ["tabs"].
Definition a_2 : Ext := extension 2 id_a [2; 0] INTERNAL false ["tabs"].
Definition a_2_more : Ext :=
  extension 2 id_a [2; 0] INTERNAL false ["tabs"; "bookmarks"].
Definition b_1 : Ext := extension 3 id_b [1; 0] INTERNAL false [].

Definition no_prefs : ExtensionPrefs Manifest :=
  {| pref_state := ∅; pref_escalated := ∅; pref_blacklist := ∅;
     pref_installed := ∅; pref_uninstalled := [] |}.

Definition service (extensions_enabled : bool) (enabled disabled : list Ext)
  : Service :=
  {| extensions_ := enabled; disabled_extensions_ := disabled;
     pending_extensions_ := ∅; unloaded_extension_paths_ := ∅;
     orphaned_dev_tools_ := ∅; extension_prefs_ := no_prefs;
     extensions_enabled_ := extensions_enabled;
     install_directory_ := "/profile/Extensions";
     profile_ := Some {| IsOffTheRecord := false; GetRequestContext := true;
                         background_hosts := ∅ |};
     trace_ := [] |}.

(** The disk of the sample: one unpacked extension. *)
Definition unpacked_b : Ext := extension 4 id_b [1; 0] LOAD false [].

Definition LoadExtension_from_disk (path : FilePath) (require_id : bool)
  : Ext + string :=
  if String.eqb path (path_ b_1) then inl unpacked_b
  else inr "Manifest file is missing or unreadable.".


(** ** Runs *)

(** Decides a closed, decidable proposition by evaluation. *)
Ltac by_evaluation := apply (bool_decide_unpack _); vm_compute; exact I.

(** Finds a record in a list that is written out. *)
Ltac member := unfold registered; simpl; repeat constructor.

Lemma wf_service_a (flag : bool) : wf (service flag [a_1] []).
Proof.
  unfold wf, wf_list, registered. simpl. repeat split.
  - by_evaluation.
  - by_evaluation.
  - repeat constructor.
Qed.

Lemma wf_service_a_b (flag : bool) : wf (service flag [a_1] [b_1]).
Proof.
  unfold wf, wf_list, registered. simpl. repeat split.
  - by_evaluation.
  - by_evaluation.
  - repeat constructor.
Qed.

Lemma wf_service_ab (flag : bool) : wf (service flag [a_1; b_1] []).
Proof.
  unfold wf, wf_list, registered. simpl. repeat split.
  - by_evaluation.
  - by_evaluation.
  - repeat constructor.
Qed.




(** One valid and enabled extension is blacklisted, the other is not. *)
Lemma blacklist_run :
  exists s',
    UpdateExtensionBlacklist' [id_a] (service true [a_1; b_1] []) = Ok s'
    ∧ extensions_ s' = [b_1]
    ∧ disabled_extensions_ s' = []
    ∧ unloaded_extension_paths_ s' !! id_a = Some (path_ a_1).
Proof.
  destruct (UpdateExtensionBlacklist_unloads_enabled Version Manifest
              IdIsValid (service true [a_1; b_1] []) [id_a]
              (wf_service_ab true))
    as (s' & Hrun & _ & _ & Hext & Hdis & Hgone).
  exists s'. split; [exact Hrun|]. split; [exact Hext|].
  split; [exact Hdis|]. apply (Hgone a_1).
  - member.
  - by_evaluation.
Defined.

(** The claim of C2 fails for the Disabled list: a disabled extension whose
    identifier is blacklisted stays registered. *)
Lemma blacklist_skips_disabled :
  a_1 ∈ disabled_extensions_ (service true [b_1] [a_1])
  ∧ id_ a_1 ∈ blacklist_set_of IdIsValid [id_a]
  ∧ exists s',
      UpdateExtensionBlacklist' [id_a] (service true [b_1] [a_1]) = Ok s'
      ∧ pref_blacklist (extension_prefs_ s') = blacklist_set_of IdIsValid [id_a]
      ∧ extensions_ s' = [b_1]
      ∧ disabled_extensions_ s' = [a_1].
Proof.
  split; [member|]. split; [by_evaluation|].
  eexists. split; [vm_compute; reflexivity|].
  split; [vm_compute; reflexivity|]. split; reflexivity.
Qed.

(** A pending theme request and an installed bundle that is no theme. *)
Definition pending_theme_a : gmap string (PendingExtensionInfo Version) :=
  {[ id_a := {| update_url := "http://example/x.crx"; version := [1; 0];
                is_theme := true; install_silently := false |} ]}.

Definition service_pending : Service :=
  {| extensions_ := []; disabled_extensions_ := [];
     pending_extensions_ := pending_theme_a;
     unloaded_extension_paths_ := ∅; orphaned_dev_tools_ := ∅;
     extension_prefs_ := no_prefs; extensions_enabled_ := true;
     install_directory_ := "/profile/Extensions";
     profile_ := None; trace_ := [] |}.

Lemma theme_mismatch_run :
  exists s' msg,
    OnExtensionInstalled' a_1 true service_pending = Ok s'
    ∧ same_members service_pending s'
    ∧ trace_ s'
      = [Log WARNING msg; PostTask FILE (DeleteFileHelper (path_ a_1) true)].
Proof.
  apply (OnExtensionInstalled_rejects_theme_mismatch Version CompareTo
           Manifest IsPrivilegeIncrease service_pending a_1 true
           {| update_url := "http://example/x.crx"; version := [1; 0];
              is_theme := true; install_silently := false |}).
  - vm_compute. reflexivity.
  - discriminate.
Defined.

(** The same version again. *)
Definition a_1_again : Ext := extension 2 id_a [1; 0] INTERNAL false ["tabs"].

Lemma stale_version_run :
  exists s',
    OnExtensionLoaded' a_1_again true (service true [a_1] []) = Ok s'
    ∧ extensions_ s' = [a_1]
    ∧ disabled_extensions_ s' = []
    ∧ trace_ s'
      = [Log WARNING ("Duplicate extension load attempt: " +:+ id_a);
         Notify EXTENSION_OVERINSTALL_ERROR
           (DetailsString ("Duplicate extension load attempt: " +:+ id_a));
         ReportError
           ("Could not load extension from '" +:+ path_ a_1_again +:+ "'. "
              +:+ ("Duplicate extension load attempt: " +:+ id_a))
           false].
Proof.
  destruct (OnExtensionLoaded_rejects_stale_version Version CompareTo
              Manifest IsPrivilegeIncrease (service true [a_1] []) a_1
              a_1_again true)
    as (s' & Hrun & Hext & Hdis & _ & _ & Htrace).
  - apply wf_service_a.
  - member.
  - reflexivity.
  - by_evaluation.
  - reflexivity.
  - exists s'. split; [exact Hrun|]. split; [exact Hext|].
    split; [exact Hdis|]. exact Htrace.
Defined.

(** The claim of C4 without the gate fails: with extensions disabled, the
    stale load of an ordinary extension is dropped without any load error;
    the only effect outside is the crash reporter's refresh. *)
Lemma stale_version_silent_when_gate_closed :
  wf (service false [a_1] [])
  ∧ a_1 ∈ registered (service false [a_1] [])
  ∧ id_ a_1_again = id_ a_1
  ∧ (CompareTo (version_ a_1_again) (version_ a_1) <= 0)%Z
  ∧ exists s',
      OnExtensionLoaded' a_1_again true (service false [a_1] []) = Ok s'
      ∧ trace_ s' = [SetActiveExtensions (active_extension_ids [a_1])].
Proof.
  split; [apply wf_service_a|]. split; [member|].
  split; [reflexivity|]. split; [by_evaluation|].
  eexists. split; reflexivity.
Qed.

Lemma unknown_update_run :
  exists s' msg,
    UpdateExtension "cccccccccccccccccccccccccccccccc" "/tmp/c.crx"
      "http://example/c.crx" (service true [a_1] [b_1]) = Ok s'
    ∧ same_members (service true [a_1] [b_1]) s'
    ∧ trace_ s'
      = [Log WARNING msg;
         PostTask FILE (DeleteFileHelper "/tmp/c.crx" false)].
Proof.
  apply (UpdateExtension_unknown_id Version Manifest
           (service true [a_1] [b_1])).
  - vm_compute. reflexivity.
  - by_evaluation.
Defined.

(** The external provider reports 2.0 for an extension enabled at 1.0. *)
Lemma external_newer_run :
  exists s',
    OnExternalExtensionFound' id_a "2.0" "/ext/a.crx" EXTERNAL_PREF
      (service true [a_1] []) = Ok s'
    ∧ same_members (service true [a_1] []) s'
    ∧ trace_ s'
      = [InstallCrx (external_installer id_a EXTERNAL_PREF) "/ext/a.crx"].
Proof.
  destruct (OnExternalExtensionFound_registered Version CompareTo
              GetVersionFromString Version_GetString Manifest
              (service true [a_1] []) a_1 id_a "2.0" [2; 0]%nat "/ext/a.crx"
              EXTERNAL_PREF) as (Hnewer & _ & _).
  - apply wf_service_a.
  - member.
  - reflexivity.
  - reflexivity.
  - apply Hnewer. reflexivity.
Defined.

(** The scenario of the specification: registered at 2.0, the provider
    reports 1.0; nothing is installed. *)
Example external_older_keeps_current :
  exists s' msg,
    OnExternalExtensionFound' id_a "1.0" "/ext/a.crx" EXTERNAL_PREF
      (service true [a_2] []) = Ok s'
    ∧ extensions_ s' = [a_2]
    ∧ trace_ s' = [Log WARNING msg].
Proof. eexists _, _. split; [reflexivity|]. split; reflexivity. Qed.


(** Two installs and a disable lead to a state with a record in each list;
    no identifier is in both there, nor after the disabled extension was
    enabled again. *)
Definition state_of (r : Result Version Manifest) : Service :=
  match r with
  | Ok s => s
  | Fatal _ => service true [] []
  end.

Definition installed_a : Service :=
  state_of (OnExtensionInstalled' a_1 true (service true [] [])).
Definition installed_a_b : Service :=
  state_of (OnExtensionInstalled' b_1 true installed_a).
Definition disabled_a : Service :=
  state_of (DisableExtension id_a installed_a_b).
Definition enabled_a_again : Service :=
  state_of (EnableExtension id_a disabled_a).

Lemma disjoint_with_both_lists :
  OnExtensionInstalled' a_1 true (service true [] []) = Ok installed_a
  ∧ OnExtensionInstalled' b_1 true installed_a = Ok installed_a_b
  ∧ DisableExtension id_a installed_a_b = Ok disabled_a
  ∧ extensions_ disabled_a = [b_1]
  ∧ disabled_extensions_ disabled_a = [a_1]
  ∧ enabled_disabled_disjoint disabled_a
  ∧ EnableExtension id_a disabled_a = Ok enabled_a_again
  ∧ extensions_ enabled_a_again = [b_1; a_1]
  ∧ disabled_extensions_ enabled_a_again = []
  ∧ enabled_disabled_disjoint enabled_a_again.
Proof.
  assert (OnExtensionInstalled' a_1 true (service true [] [])
          = Ok installed_a) as H1 by (vm_compute; reflexivity).
  assert (OnExtensionInstalled' b_1 true installed_a = Ok installed_a_b)
    as H2 by (vm_compute; reflexivity).
  assert (DisableExtension id_a installed_a_b = Ok disabled_a)
    as H3 by (vm_compute; reflexivity).
  assert (EnableExtension id_a disabled_a = Ok enabled_a_again)
    as H4 by (vm_compute; reflexivity).
  assert (reachable Version CompareTo GetVersionFromString Version_GetString
            Manifest IsPrivilegeIncrease IdIsValid disabled_a) as Hreach.
  { apply (reachable_step _ _ _ _ _ _ _ installed_a_b);
      [|by apply (step_disable _ _ _ _ _ _ _ id_a)].
    apply (reachable_step _ _ _ _ _ _ _ installed_a).
    - apply (reachable_step _ _ _ _ _ _ _ (service true [] []));
        [by apply reachable_init|].
      apply (step_installed _ _ _ _ _ _ _ a_1 true); [|exact H1].
      split; [by_evaluation|reflexivity].
    - apply (step_installed _ _ _ _ _ _ _ b_1 true); [|exact H2].
      split; [by_evaluation|reflexivity]. }
  destruct (reachable_enabled_disabled_disjoint Version CompareTo
              GetVersionFromString Version_GetString Manifest
              IsPrivilegeIncrease IdIsValid disabled_a Hreach)
    as [Hnow Hnext].
  split; [exact H1|]. split; [exact H2|]. split; [exact H3|].
  split; [vm_compute; reflexivity|]. split; [vm_compute; reflexivity|].
  split; [exact Hnow|]. split; [exact H4|].
  split; [vm_compute; reflexivity|]. split; [vm_compute; reflexivity|].
  apply Hnext. by apply (step_enable _ _ _ _ _ _ _ id_a).
Defined.

(** The sample's manifest parser accepts nothing; reloads below go through
    the disk. *)
Definition InitFromValue (path : FilePath) (manifest : Manifest)
    (require_key : bool) : Ext + string :=
  inr "Manifest is missing or invalid.".

Definition kManifestUnreadable : string :=
  "Manifest file is missing or unreadable.".

Abbreviation ReloadExtension' :=
  (ReloadExtension Version CompareTo Manifest IsPrivilegeIncrease
     InitFromValue kManifestUnreadable).
Abbreviation run_UI_task' :=
  (run_UI_task Version CompareTo Manifest IsPrivilegeIncrease).
Abbreviation Backend_LoadSingleExtension_run' :=
  (Backend_LoadSingleExtension_run Version Manifest LoadExtension_from_disk
     AbsolutePath BaseName).



(** Nothing is registered: enabling reports, disabling is silent. *)
Lemma outside_source_list_run :
  (exists s',
     EnableExtension id_a (service true [a_1] []) = Ok s'
     ∧ same_members (service true [a_1] []) s'
     ∧ trace_ s'
       = [NOTREACHED "Trying to enable an extension that isn't disabled."])
  ∧ DisableExtension id_b (service true [a_1] [])
    = Ok (service true [a_1] []).
Proof.
  destruct (Enable_Disable_outside_source_list Version Manifest
              (service true [a_1] []) id_a) as [Henable _].
  destruct (Enable_Disable_outside_source_list Version Manifest
              (service true [a_1] []) id_b) as [_ Hdisable].
  split.
  - apply Henable. by_evaluation.
  - apply Hdisable. by_evaluation.
Defined.

(** The claim of C9 fails for DisableExtension: disabling an identifier that
    is not enabled (here: already disabled) reports nothing at all. *)
Lemma disable_of_disabled_reports_nothing :
  (StringToLowerASCII id_b ∉ id_ <$> extensions_ (service true [a_1] [b_1]))
  ∧ exists s',
      DisableExtension id_b (service true [a_1] [b_1]) = Ok s'
      ∧ trace_ s' = trace_ (service true [a_1] [b_1])
      ∧ trace_ s' = [].
Proof.
  split; [by_evaluation|]. eexists. split; [reflexivity|].
  split; reflexivity.
Qed.

(** Extensions are disabled and an ordinary extension is loaded. *)
Lemma gate_closed_run :
  exists s',
    OnExtensionLoaded' b_1 true (service false [a_1] []) = Ok s'
    ∧ extensions_ s' = [a_1]
    ∧ disabled_extensions_ s' = []
    ∧ trace_ s' = [SetActiveExtensions (active_extension_ids [a_1])].
Proof.
  destruct (OnExtensionLoaded_gate_closed Version CompareTo Manifest
              IsPrivilegeIncrease (service false [a_1] []) b_1 true)
    as (s' & Hrun & Hext & Hdis & _ & _ & _ & _ & Htrace).
  - reflexivity.
  - reflexivity.
  - discriminate.
  - reflexivity.
  - by_evaluation.
  - exists s'. split; [exact Hrun|]. split; [exact Hext|].
    split; [exact Hdis|]. exact Htrace.
Defined.


(** ** More runs *)

#[local] Arguments notifications {Version Manifest} _.
#[local] Arguments add_events {Version Manifest} _ _.
#[local] Arguments info_of {Version Manifest} _.
#[local] Arguments crash_reporter_in_step {Version Manifest} _.
#[local] Arguments Observe {Version Manifest} _ _ _.
#[local] Arguments OnExtensionOverinstallAttempted {Version Manifest} _ _.
#[local] Arguments AddPendingExtension {Version Manifest} _ _ _ _ _ _.
#[local] Arguments LoadExtension {Version Manifest} _ _.
#[local] Arguments GetExtensionByIdInternal {Version Manifest} _ _ _ _.
#[local] Arguments UninstallExtensionFiles {Version Manifest} _ _.
#[local] Arguments Backend_CheckExternalUninstall {Version Manifest} _ _.
#[local] Arguments pref_uninstalled {Manifest} _.

Abbreviation LoadInstalledExtension' parser :=
  (LoadInstalledExtension Version CompareTo Manifest IsPrivilegeIncrease
     parser kManifestUnreadable).

(** A disabled extension is enabled: it joins the Enabled list at its end. *)
Lemma enable_run :
  exists s',
    EnableExtension id_b (service true [a_1] [b_1]) = Ok s'
    ∧ extensions_ s' = [a_1; b_1]
    ∧ disabled_extensions_ s' = []
    ∧ GetExtensionState (extension_prefs_ s') id_b = ENABLED
    ∧ exists evs,
        trace_ s' = evs
        ∧ notifications evs = [(EXTENSION_LOADED, DetailsExtension b_1)].
Proof.
  destruct (EnableExtension_moves_record Version Manifest
              (service true [a_1] [b_1]) id_b b_1)
    as (s' & evs & Hrun & Hext & Hdis & Hstate & Htrace & _ & Hn).
  - apply wf_service_a_b.
  - member.
  - reflexivity.
  - exists s'. split; [exact Hrun|]. split; [exact Hext|].
    split; [exact Hdis|]. split; [exact Hstate|].
    exists evs. split; [exact Htrace|exact Hn].
Defined.

(** An enabled extension is disabled. *)
Lemma disable_run :
  exists s',
    DisableExtension id_a (service true [a_1; b_1] []) = Ok s'
    ∧ extensions_ s' = [b_1]
    ∧ disabled_extensions_ s' = [a_1]
    ∧ GetExtensionState (extension_prefs_ s') id_a = DISABLED
    ∧ exists evs,
        trace_ s' = evs
        ∧ notifications evs = [(EXTENSION_UNLOADED, DetailsExtension a_1)].
Proof.
  destruct (DisableExtension_moves_record Version Manifest
              (service true [a_1; b_1] []) id_a a_1)
    as (s' & evs & Hrun & Hext & Hdis & Hstate & Htrace & _ & Hn).
  - apply wf_service_ab.
  - member.
  - reflexivity.
  - exists s'. split; [exact Hrun|]. split; [exact Hext|].
    split; [exact Hdis|]. split; [exact Hstate|].
    exists evs. split; [exact Htrace|exact Hn].
Defined.

(** Disabled and enabled again, the first extension is the last. *)
Lemma disable_enable_run :
  exists s1 s2,
    DisableExtension id_a (service true [a_1; b_1] []) = Ok s1
    ∧ EnableExtension id_a s1 = Ok s2
    ∧ extensions_ s2 = [b_1; a_1]
    ∧ disabled_extensions_ s2 = [].
Proof.
  destruct (Disable_then_Enable Version Manifest
              (service true [a_1; b_1] []) a_1)
    as (s1 & s2 & Hdisable & Henable & Hext & Hdis & _).
  - apply wf_service_ab.
  - member.
  - exists s1, s2. split; [exact Hdisable|]. split; [exact Henable|].
    split; [exact Hext|exact Hdis].
Defined.

(** The second unload of the same extension stops the browser. *)
Lemma unload_twice_run :
  exists s1,
    UnloadExtension id_a (service true [a_1] []) = Ok s1
    ∧ UnloadExtension id_a s1 = Fatal (CHECK_failed "extension.get()").
Proof.
  apply (UnloadExtension_twice_is_fatal Version Manifest
           (service true [a_1] []) a_1).
  - apply wf_service_a.
  - member.
Defined.

Definition id_c : string := "cccccccccccccccccccccccccccccccc".

(** A service without a profile, and an extension that asks for the bookmark
    permission. *)
Definition service_without_profile : Service :=
  {| extensions_ := [a_1]; disabled_extensions_ := [b_1];
     pending_extensions_ := ∅; unloaded_extension_paths_ := ∅;
     orphaned_dev_tools_ := ∅; extension_prefs_ := no_prefs;
     extensions_enabled_ := true;
     install_directory_ := "/profile/Extensions";
     profile_ := None; trace_ := [] |}.

Definition bookmarks_c : Ext :=
  extension 7 id_c [1; 0] INTERNAL false ["bookmarks"].
Definition plain_c : Ext := extension 8 id_c [1; 0] INTERNAL false [].

Lemma wf_service_without_profile : wf service_without_profile.
Proof.
  unfold wf, wf_list, registered. simpl. repeat split.
  - by_evaluation.
  - by_evaluation.
  - repeat constructor.
Qed.

(** Enabling an unknown identifier returns; unloading a registered extension
    returns, and unloading an unknown one does not; loading the extension
    with the bookmark permission stops where the profile is asked for its
    bookmark model. *)
Lemma calls_return_run :
  (exists s', EnableExtension id_c service_without_profile = Ok s')
  ∧ (exists s', UnloadExtension id_b service_without_profile = Ok s')
  ∧ ((exists s', UnloadExtension id_c service_without_profile = Ok s')
     -> False)
  ∧ (exists s', OnExtensionLoaded' plain_c true service_without_profile
                = Ok s')
  ∧ OnExtensionLoaded' bookmarks_c true service_without_profile
    = Fatal (Undefined "profile_->GetBookmarkModel()").
Proof.
  destruct (calls_that_return Version CompareTo Manifest IsPrivilegeIncrease
              IdIsValid service_without_profile wf_service_without_profile)
    as (Henable & _ & _ & Hload & _ & Hunload & _).
  split; [apply Henable|]. split; [|split; [|split]].
  - apply Hunload. by eexists.
  - intros Hrun. apply Hunload in Hrun. destruct Hrun as [e He].
    vm_compute in He. discriminate.
  - destruct (Hload plain_c true) as [Hok|(_ & Hperm & _)].
    + split; [by_evaluation|reflexivity].
    + exact Hok.
    + vm_compute in Hperm. discriminate.
  - destruct (Hload bookmarks_c true) as [[s' Hok]|(Hstop & _)].
    + split; [by_evaluation|reflexivity].
    + vm_compute in Hok. discriminate.
    + exact Hstop.
Defined.

(** A disabled, internal extension is uninstalled by the user. *)
Lemma uninstall_run :
  exists s' evs,
    UninstallExtension id_b false (service true [a_1] [b_1]) = Ok s'
    ∧ extensions_ s' = [a_1]
    ∧ disabled_extensions_ s' = []
    ∧ unloaded_extension_paths_ s' !! id_b = Some (path_ b_1)
    ∧ pref_uninstalled (extension_prefs_ s') = [(id_b, INTERNAL, false)]
    ∧ trace_ s' = evs
    ∧ PostTask FILE (UninstallExtensionFiles id_b "/profile/Extensions")
        ∈ evs
    ∧ notifications evs
      = [(EXTENSION_UNLOADED_DISABLED, DetailsExtension b_1)].
Proof.
  destruct (UninstallExtension_registered_record Version Manifest
              (service true [a_1] [b_1]) id_b false b_1)
    as (s' & evs & Hrun & Hext & Hdis & Hpath & Hprefs & Htrace & Hfiles
        & _ & type & Hn & Hwhere).
  - apply wf_service_a_b.
  - member.
  - reflexivity.
  - exists s', evs. split; [exact Hrun|]. split; [exact Hext|].
    split; [exact Hdis|]. split; [exact Hpath|].
    split; [by rewrite Hprefs|]. split; [exact Htrace|].
    split; [apply Hfiles; discriminate|].
    destruct Hwhere as [[_ Hen]|[-> _]]; [|exact Hn].
    apply list_elem_of_singleton in Hen. discriminate.
Defined.

(** The preferences say that an extension was disabled by the user. *)
Definition prefs_b_disabled : ExtensionPrefs Manifest :=
  {| pref_state := {[ id_b := DISABLED ]}; pref_escalated := ∅;
     pref_blacklist := ∅; pref_installed := ∅; pref_uninstalled := [] |}.

Definition service_b_disabled : Service :=
  {| extensions_ := [a_1]; disabled_extensions_ := [];
     pending_extensions_ := ∅; unloaded_extension_paths_ := ∅;
     orphaned_dev_tools_ := ∅; extension_prefs_ := prefs_b_disabled;
     extensions_enabled_ := true;
     install_directory_ := "/profile/Extensions";
     profile_ := None; trace_ := [] |}.

(** Loaded at the start of the browser, it goes to the Disabled list and is
    not announced as loaded. *)
Lemma placed_disabled_run :
  exists s' evs,
    OnExtensionLoaded' b_1 true service_b_disabled = Ok s'
    ∧ trace_ s' = evs
    ∧ extensions_ s' = [a_1]
    ∧ disabled_extensions_ s' = [b_1]
    ∧ notifications evs = [(EXTENSION_UPDATE_DISABLED, DetailsExtension b_1)].
Proof.
  destruct (OnExtensionLoaded_places_by_persisted_state Version CompareTo
              Manifest IsPrivilegeIncrease service_b_disabled b_1 true)
    as (s' & evs & Hrun & Htrace & Hplaced).
  - split; [by_evaluation|reflexivity].
  - by_evaluation.
  - reflexivity.
  - intros Hperm. vm_compute in Hperm. discriminate.
  - assert (GetExtensionState (extension_prefs_ service_b_disabled) (id_ b_1)
            = DISABLED) as Hstate by (vm_compute; reflexivity).
    rewrite Hstate in Hplaced. destruct Hplaced as (Hext & Hdis & Hn).
    exists s', evs. split; [exact Hrun|]. split; [exact Htrace|].
    split; [exact Hext|]. split; [exact Hdis|exact Hn].
Defined.

(** A pending, silent install of an extension that is no theme. *)
Definition service_pending_b : Service :=
  {| extensions_ := [a_1]; disabled_extensions_ := [];
     pending_extensions_ :=
       {[ id_b := {| update_url := "http://example/b.crx";
                     version := [1; 0]; is_theme := false;
                     install_silently := true |} ]};
     unloaded_extension_paths_ := ∅; orphaned_dev_tools_ := ∅;
     extension_prefs_ := no_prefs; extensions_enabled_ := true;
     install_directory_ := "/profile/Extensions";
     profile_ := None; trace_ := [] |}.

Lemma wf_service_pending_b : wf service_pending_b.
Proof.
  unfold wf, wf_list, registered. simpl. repeat split.
  - by_evaluation.
  - by_evaluation.
  - repeat constructor.
Qed.

Lemma install_records_run :
  exists s' evs,
    OnExtensionInstalled' b_1 false service_pending_b = Ok s'
    ∧ GetInstalledExtensionInfo (extension_prefs_ s') id_b
      = Some (info_of b_1)
    ∧ pending_extensions_ s' !! id_b = None
    ∧ trace_ s' = Notify EXTENSION_INSTALLED (DetailsExtension b_1) :: evs.
Proof.
  destruct (OnExtensionInstalled_records_install Version CompareTo Manifest
              IsPrivilegeIncrease service_pending_b b_1 false)
    as (s' & evs & Hrun & Hinfo & Hpending & Htrace).
  - apply wf_service_pending_b.
  - split; [by_evaluation|reflexivity].
  - intros (pending & Hp & Hne). vm_compute in Hp. injection Hp as <-.
    by apply Hne.
  - intros Hperm. vm_compute in Hperm. discriminate.
  - exists s', evs. split; [exact Hrun|]. split; [exact Hinfo|].
    split; [rewrite Hpending; apply lookup_delete_eq|exact Htrace].
Defined.

(** Extensions are switched off: the install is recorded and announced, and
    nothing is registered. *)
Lemma install_gate_closed_run :
  exists s',
    OnExtensionInstalled' b_1 true (service false [] []) = Ok s'
    ∧ extensions_ s' = []
    ∧ disabled_extensions_ s' = []
    ∧ GetInstalledExtensionInfo (extension_prefs_ s') id_b
      = Some (info_of b_1)
    ∧ trace_ s'
      = [Notify EXTENSION_INSTALLED (DetailsExtension b_1);
         SetActiveExtensions (active_extension_ids ([] : list Ext))].
Proof.
  apply (OnExtensionInstalled_gate_closed Version CompareTo Manifest
           IsPrivilegeIncrease (service false [] []) b_1 true).
  - by_evaluation.
  - intros (pending & Hp & _). vm_compute in Hp. discriminate.
  - reflexivity.
Defined.

(** Installed and uninstalled again. *)
Lemma install_uninstall_run :
  exists s1 s2,
    OnExtensionInstalled' b_1 true (service true [a_1] []) = Ok s1
    ∧ b_1 ∈ registered s1
    ∧ UninstallExtension id_b false s1 = Ok s2
    ∧ extensions_ s2 = [a_1]
    ∧ disabled_extensions_ s2 = []
    ∧ last (pref_uninstalled (extension_prefs_ s2))
      = Some (id_b, INTERNAL, false)
    ∧ unloaded_extension_paths_ s2 !! id_b = Some (path_ b_1).
Proof.
  destruct (Install_then_Uninstall Version CompareTo Manifest
              IsPrivilegeIncrease (service true [a_1] []) b_1 true false)
    as (s1 & s2 & Hinstall & Huninstall & Hin & Hext & Hdis & Hlast & Hpath).
  - apply wf_service_a.
  - split; [by_evaluation|reflexivity].
  - by_evaluation.
  - intros (pending & Hp & _). vm_compute in Hp. discriminate.
  - reflexivity.
  - vm_compute. discriminate.
  - intros _. by eexists.
  - exists s1, s2. split; [exact Hinstall|]. split; [exact Hin|].
    split; [exact Huninstall|]. split; [exact Hext|]. split; [exact Hdis|].
    split; [exact Hlast|exact Hpath].
Defined.

(** A pending install with an install UI, and the update that follows. *)
Lemma pending_update_run :
  exists s1,
    AddPendingExtension id_b "http://example/b.crx" [1; 0]%nat false false
      (service true [a_1] []) = Ok s1
    ∧ pending_extensions_ s1 !! id_b
      = Some {| update_url := "http://example/b.crx"; version := [1; 0]%nat;
                is_theme := false; install_silently := false |}
    ∧ UpdateExtension id_b "/tmp/b.crx" "http://example/b.crx" s1
      = Ok (add_events
              [InstallCrx
                 {| client := true; install_source := None;
                    expected_id := Some id_b;
                    allow_privilege_increase := false;
                    delete_source := true;
                    force_web_origin_to_download_url := true;
                    original_url := Some "http://example/b.crx" |}
                 "/tmp/b.crx"] s1).
Proof.
  apply (AddPendingExtension_then_UpdateExtension Version Manifest
           (service true [a_1] []) id_b "http://example/b.crx" [1; 0]%nat
           false false "/tmp/b.crx" "http://example/b.crx").
  vm_compute. reflexivity.
Defined.

(** An inspector is open on the background page of the extension. *)
Definition service_inspected : Service :=
  {| extensions_ := [a_1]; disabled_extensions_ := [];
     pending_extensions_ := ∅; unloaded_extension_paths_ := ∅;
     orphaned_dev_tools_ := ∅; extension_prefs_ := no_prefs;
     extensions_enabled_ := true;
     install_directory_ := "/profile/Extensions";
     profile_ := Some {| IsOffTheRecord := false; GetRequestContext := true;
                         background_hosts := {[ id_a := 7%Z ]} |};
     trace_ := [] |}.

Definition new_host_of_a : ExtensionHost :=
  {| host_extension_id := id_a; render_view_host := 42 |}.

Lemma reload_inspector_run :
  exists s1 s2,
    ReloadExtension' id_a service_inspected = Ok s1
    ∧ extensions_ s1 = []
    ∧ orphaned_dev_tools_ s1 !! id_a = Some 7%Z
    ∧ Observe EXTENSION_HOST_DID_STOP_LOADING new_host_of_a s1
      = (Ok s2, [AttachClientHost 7 42])
    ∧ Observe EXTENSION_HOST_DID_STOP_LOADING new_host_of_a s2 = (Ok s2, []).
Proof.
  destruct (ReloadExtension_reattaches_inspector Version CompareTo Manifest
              IsPrivilegeIncrease InitFromValue kManifestUnreadable
              service_inspected a_1
              {| IsOffTheRecord := false; GetRequestContext := true;
                 background_hosts := {[ id_a := 7%Z ]} |}
              7%Z new_host_of_a)
    as (s1 & s2 & evs & Hreload & Hcookie & Hgone & _ & Hattach & _ & Hagain).
  - unfold wf, wf_list, registered. simpl. repeat split.
    + by_evaluation.
    + by_evaluation.
    + repeat constructor.
  - member.
  - reflexivity.
  - vm_compute. reflexivity.
  - lia.
  - vm_compute. discriminate.
  - intros info Hinfo. vm_compute in Hinfo. discriminate.
  - reflexivity.
  - exists s1, s2. split; [exact Hreload|]. split.
    { vm_compute in Hreload. by injection Hreload as <-. }
    split; [rewrite Hcookie; apply lookup_insert_eq|].
    split; [exact Hattach|exact Hagain].
Defined.

(** Reloading a disabled extension that was never unloaded stops the
    browser. *)
Lemma reload_disabled_run :
  b_1 ∈ disabled_extensions_ (service true [a_1] [b_1])
  ∧ ReloadExtension' id_b (service true [a_1] [b_1])
    = Fatal (CHECK_failed "!path.empty()").
Proof.
  split; [member|].
  apply (ReloadExtension_without_a_path Version CompareTo Manifest
           IsPrivilegeIncrease InitFromValue kManifestUnreadable
           (service true [a_1] [b_1]) id_b).
  - by_evaluation.
  - vm_compute. reflexivity.
  - intros info Hinfo. vm_compute in Hinfo. discriminate.
Defined.

(** The same blacklist twice. *)
Lemma blacklist_twice_run :
  exists s1,
    UpdateExtensionBlacklist' [id_a] (service true [a_1; b_1] []) = Ok s1
    ∧ UpdateExtensionBlacklist' [id_a] s1 = Ok s1.
Proof.
  apply (UpdateExtensionBlacklist_idempotent Version Manifest IdIsValid
           (service true [a_1; b_1] []) [id_a]).
  apply wf_service_ab.
Defined.

(** A blacklist of something that is no identifier. *)
Lemma blacklist_invalid_run :
  exists s',
    UpdateExtensionBlacklist' ["not an identifier"]
      (service true [a_1; b_1] []) = Ok s'
    ∧ extensions_ s' = [a_1; b_1]
    ∧ pref_blacklist (extension_prefs_ s') = ∅
    ∧ trace_ s' = [].
Proof.
  eexists. split.
  - apply (UpdateExtensionBlacklist_no_valid_id Version Manifest IdIsValid
             (service true [a_1; b_1] []) ["not an identifier"]).
    intros id Hin. apply list_elem_of_singleton in Hin as ->. reflexivity.
  - split; [reflexivity|]. split; reflexivity.
Defined.

(** A theme that the user disabled. *)
Definition theme_c : Ext := extension 5 id_c [1; 0] INTERNAL true [].

Lemma wf_service_a_theme_c : wf (service true [a_1] [theme_c]).
Proof.
  unfold wf, wf_list, registered. simpl. repeat split.
  - by_evaluation.
  - by_evaluation.
  - repeat constructor.
Qed.

Lemma overinstall_run :
  OnExtensionOverinstallAttempted id_c (service true [a_1] [theme_c])
  = Ok (add_events [Notify NO_THEME_DETECTED (NoDetails Version Manifest)]
          (service true [a_1] [theme_c])).
Proof.
  destruct (OnExtensionOverinstallAttempted_announces Version Manifest
              (service true [a_1] [theme_c]) id_c wf_service_a_theme_c)
    as (_ & Hno & _).
  apply (Hno theme_c).
  - member.
  - reflexivity.
  - left. member.
Defined.

(** The identifier in capitals finds the extension. *)
Lemma lookup_run :
  id_ a_1 = StringToLowerASCII "AAAAAAAAAAAAAAAAAAAAAAAAAAAAAAAA"
  ∧ is_lowercase (id_ a_1)
  ∧ GetExtensionByIdInternal (service true [a_1] []) id_a true false
    = Some a_1.
Proof.
  destruct (GetExtensionByIdInternal_finds Version Manifest
              (service true [a_1] []) "AAAAAAAAAAAAAAAAAAAAAAAAAAAAAAAA"
              true false a_1)
    as (Hid & Hlow & _ & Hagain).
  - vm_compute. reflexivity.
  - split; [exact Hid|]. split; [exact Hlow|exact Hagain].
Defined.

(** An entry of the preferences whose manifest is gone. *)
Definition info_without_manifest : ExtensionInfo Manifest :=
  {| extension_manifest := None; extension_id := id_b;
     extension_path := path_ b_1; extension_location := EXTERNAL_PREF |}.

Lemma unreadable_manifest_run :
  LoadInstalledExtension' InitFromValue info_without_manifest true
    (service true [a_1] [])
  = Ok (add_events
          [Notify EXTENSION_INSTALL_ERROR (DetailsString kManifestUnreadable);
           ReportError
             ("Could not load extension from '" +:+ path_ b_1 +:+ "'. "
                +:+ kManifestUnreadable)
             false]
          (service true [a_1] [])).
Proof.
  apply (LoadInstalledExtension_not_loadable Version CompareTo Manifest
           IsPrivilegeIncrease InitFromValue kManifestUnreadable
           (service true [a_1] []) info_without_manifest true
           kManifestUnreadable).
  left. split; reflexivity.
Defined.

(** The user loads a directory that holds no extension. *)
Lemma load_missing_directory_run :
  exists task,
    LoadExtension "/nowhere" (service true [a_1] [])
    = Ok (add_events [PostTask FILE (Backend_LoadSingleExtension "/nowhere")]
            (service true [a_1] []))
    ∧ Backend_LoadSingleExtension_run' "/nowhere"
      = [Log INFO "Loading single extension from /nowhere";
         PostTask UI task]
    ∧ run_UI_task' task (service true [a_1] [])
      = Ok (add_events
              [Notify EXTENSION_INSTALL_ERROR
                 (DetailsString "Manifest file is missing or unreadable.");
               ReportError
                 ("Could not load extension from '/nowhere'. "
                    +:+ "Manifest file is missing or unreadable.")
                 true]
              (service true [a_1] [])).
Proof.
  destruct (LoadExtension_not_loadable Version CompareTo Manifest
              IsPrivilegeIncrease LoadExtension_from_disk AbsolutePath
              BaseName (service true [a_1] []) "/nowhere"
              "Manifest file is missing or unreadable.")
    as (task & Hload & Hbackend & Hreport).
  - reflexivity.
  - exists task. split; [exact Hload|]. split; [exact Hbackend|].
    apply Hreport.
Defined.

(** An external extension that the preferences still list, while the
    provider of its location has dropped it. *)
Definition external_c : Ext := extension 6 id_c [1; 0] INTERNAL false [].

Definition info_external_c : ExtensionInfo Manifest :=
  {| extension_manifest := Some "{}"; extension_id := id_c;
     extension_path := path_ external_c;
     extension_location := EXTERNAL_PREF |}.

Definition InitFromValue_c (path : FilePath) (manifest : Manifest)
    (require_key : bool) : Ext + string :=
  if String.eqb path (path_ external_c) then inl external_c
  else inr "Manifest is missing or invalid.".

Definition empty_pref_provider : ProviderMap Version :=
  fun location =>
    match location with
    | EXTERNAL_PREF => Some (fun _ => None)
    | _ => None
    end.

Lemma external_gone_run :
  exists s1 s2,
    LoadInstalledExtension' InitFromValue_c info_external_c false
      (service true [a_1] []) = Ok s1
    ∧ extensions_ s1 = [a_1; set_location EXTERNAL_PREF external_c]
    ∧ CheckExternalUninstall Version empty_pref_provider id_c EXTERNAL_PREF
      = [PostTask_UI_UninstallExtension id_c true]
    ∧ UninstallExtension id_c true s1 = Ok s2
    ∧ extensions_ s2 = [a_1]
    ∧ disabled_extensions_ s2 = []
    ∧ last (pref_uninstalled (extension_prefs_ s2))
      = Some (id_c, EXTERNAL_PREF, true).
Proof.
  destruct (LoadInstalledExtension_external_gone Version CompareTo Manifest
              IsPrivilegeIncrease InitFromValue_c kManifestUnreadable
              (service true [a_1] []) info_external_c "{}" external_c false
              empty_pref_provider (fun _ => None))
    as (s1 & s2 & Hload & _ & _ & Hcheck & Huninstall & Hext & Hdis & Hlast).
  - apply wf_service_a.
  - reflexivity.
  - reflexivity.
  - reflexivity.
  - split; [by_evaluation|reflexivity].
  - by_evaluation.
  - reflexivity.
  - vm_compute. discriminate.
  - intros _. by eexists.
  - reflexivity.
  - reflexivity.
  - exists s1, s2. split; [exact Hload|]. split.
    { vm_compute in Hload. by injection Hload as <-. }
    split; [exact Hcheck|]. split; [exact Huninstall|].
    split; [exact Hext|]. split; [exact Hdis|exact Hlast].
Defined.

(** Version 2.0 replaces version 1.0 silently: both notifications carry
    their record marked as being upgraded. *)
Lemma upgrade_announces_run :
  exists s' evs,
    OnExtensionLoaded' a_2 false (service true [a_1] []) = Ok s'
    ∧ trace_ s' = evs
    ∧ notifications evs
      = [(EXTENSION_UNLOADED, DetailsExtension (set_being_upgraded true a_1));
         (EXTENSION_LOADED, DetailsExtension (set_being_upgraded true a_2))]
    ∧ extensions_ s' = [a_2].
Proof.
  destruct (OnExtensionLoaded_upgrade_announces Version CompareTo Manifest
              IsPrivilegeIncrease (service true [a_1] []) a_1 a_2 false)
    as (s' & evs & type & Hrun & Htrace & Hwhere & Hn).
  - apply wf_service_a.
  - member.
  - reflexivity.
  - by_evaluation.
  - reflexivity.
  - reflexivity.
  - intros _. by eexists.
  - exists s', evs. split; [exact Hrun|]. split; [exact Htrace|]. split.
    + destruct Hwhere as [[-> _]|[_ Hdis]]; [exact Hn|].
      apply elem_of_nil in Hdis. destruct Hdis.
    + vm_compute in Hrun. by injection Hrun as <-.
Defined.

(** After an extension was disabled, the crash reporter knows the one that
    is left; after a third one was loaded, it knows all three. *)
Lemma crash_reporter_run :
  exists s' s'',
    DisableExtension id_a (service true [a_1; b_1] []) = Ok s'
    ∧ crash_reporter_in_step s'
    ∧ last (trace_ s') = Some (SetActiveExtensions {[ id_b ]})
    ∧ OnExtensionLoaded' bookmarks_c true (service true [a_1; b_1] [])
      = Ok s''
    ∧ crash_reporter_in_step s''
    ∧ last (trace_ s'')
      = Some (SetActiveExtensions {[ id_a; id_b; id_c ]}).
Proof.
  destruct (crash_reporter_is_told Version CompareTo Manifest
              IsPrivilegeIncrease (service true [a_1; b_1] [])
              (wf_service_ab true))
    as (_ & Hdisable & _ & Hload).
  destruct (Hdisable id_a a_1) as (s' & Hrun & Hstep).
  - member.
  - reflexivity.
  - destruct (Hload bookmarks_c true) as (s'' & Hrun' & Hstep').
    + split; [by_evaluation|reflexivity].
    + by_evaluation.
    + intros _. by eexists.
    + exists s', s''. split; [exact Hrun|]. split; [exact Hstep|]. split.
      { vm_compute in Hrun. injection Hrun as <-. vm_compute. reflexivity. }
      split; [exact Hrun'|]. split; [exact Hstep'|].
      vm_compute in Hrun'. injection Hrun' as <-. vm_compute. reflexivity.
Defined.

(** Without a profile, the load of an extension with the bookmark permission
    stops the browser. *)
Lemma load_without_profile_run :
  OnExtensionLoaded' bookmarks_c true service_without_profile
  = Fatal (Undefined "profile_->GetBookmarkModel()").
Proof.
  destruct (OnExtensionLoaded_without_profile Version CompareTo Manifest
              IsPrivilegeIncrease service_without_profile bookmarks_c true)
    as [Hstop _].
  - split; [by_evaluation|reflexivity].
  - by_evaluation.
  - reflexivity.
  - reflexivity.
  - reflexivity.
  - apply Hstop. reflexivity.
Defined.

End Sample.
